(** * Simulation recontextualization workflow ([utlis_2.py])

    A shallow embedding of the control logic of the workflow: the response
    sanitizer, the validator, the retry state machine, subset extraction and
    the aggregator, together with the properties stated about them. *)

From Stdlib Require Import ZArith List String Ascii Bool Lia SpecFloat.
Import ListNotations.

Local Open Scope Z_scope.

(* ================================================================== *)
(** * Python [str] operations used by the workflow *)
(* ================================================================== *)

(** A text is a [string]; every [ascii] stands for one code point below 256,
    so indices count characters as Python's do.  Indices are Python [int]s,
    hence [Z], with [-1] for "not found". *)
Module PyStr.

Local Open Scope string_scope.
Local Open Scope Z_scope.

Definition len (s : string) : Z := Z.of_nat (String.length s).

(** [str.isspace] restricted to code points below 256. *)
Definition isspace (c : ascii) : bool :=
  let n := N_of_ascii c in
  (((9 <=? n) && (n <=? 13)) || ((28 <=? n) && (n <=? 32))
   || (n =? 133) || (n =? 160))%N.

Fixpoint lstrip (s : string) : string :=
  match s with
  | EmptyString => EmptyString
  | String c s' => if isspace c then lstrip s' else s
  end.

Fixpoint rstrip (s : string) : string :=
  match s with
  | EmptyString => EmptyString
  | String c s' =>
      match rstrip s' with
      | EmptyString => if isspace c then EmptyString else String c EmptyString
      | r => String c r
      end
  end.

(** [text.strip()] *)
Definition strip (s : string) : string := rstrip (lstrip s).

(** [text.startswith(p)] *)
Definition startswith (s p : string) : bool := String.prefix p s.

(** [text.find(sub)]: lowest index at which [sub] occurs, or [-1]. *)
Fixpoint find_from (i : Z) (s sub : string) : Z :=
  if String.prefix sub s then i
  else match s with
       | EmptyString => -1
       | String _ s' => find_from (i + 1) s' sub
       end.

Definition find (s sub : string) : Z := find_from 0 s sub.

(** [text.rfind(sub)]: highest index at which [sub] occurs, or [-1]. *)
Fixpoint rfind_from (i : Z) (s sub : string) : Z :=
  match s with
  | EmptyString => if String.prefix sub s then i else -1
  | String _ s' =>
      let r := rfind_from (i + 1) s' sub in
      if (r =? -1)%Z then (if String.prefix sub s then i else -1) else r
  end.

Definition rfind (s sub : string) : Z := rfind_from 0 s sub.

(** Normalisation of one slice bound, as CPython's [PySlice_AdjustIndices]
    does for a step of 1. *)
Definition adjust (n i : Z) : Z :=
  if i <? 0 then Z.max 0 (i + n) else Z.min i n.

(** [text[lo:hi]] *)
Definition slice (s : string) (lo hi : Z) : string :=
  let lo' := adjust (len s) lo in
  let hi' := adjust (len s) hi in
  String.substring (Z.to_nat lo') (Z.to_nat (hi' - lo')) s.

(** [sub in text], stated without reference to the search functions. *)
Definition contains (s sub : string) : Prop :=
  exists a b, s = a ++ sub ++ b.

Definition newline : string := String "010"%char EmptyString.
Definition fence : string := "```".

End PyStr.

(* ================================================================== *)
(** * ResponseSanitizer *)
(* ================================================================== *)

Module Sanitizer.
Import PyStr.
Local Open Scope string_scope.
Local Open Scope Z_scope.

(** [_remove_markdown_code_blocks], lines 368-387. *)
Definition _remove_markdown_code_blocks (text : string) : string :=
  let text := strip text in
  if startswith text fence then
    let first_newline := find text newline in
    let last_backticks := rfind text fence in
    if (negb (first_newline =? -1) && negb (last_backticks =? -1))%Z then
      strip (slice text (first_newline + 1) last_backticks)
    else text
  else text.

(** The sanitizer as the specification words it: when the trimmed text opens
    with a fence, everything strictly between the end of the opening fence
    line and the last fence; otherwise the trimmed text. *)
Definition sanitize_as_specified (text : string) : string :=
  let t := strip text in
  if startswith t fence then
    slice t (find t newline + 1) (rfind t fence)
  else t.

End Sanitizer.

(* ================================================================== *)
(** * Documents *)
(* ================================================================== *)

(** What [json.load] and [json_repair.loads] return: [None], [bool], [int],
    [float] (IEEE binary64, as [spec_float]), [str], [list] and [dict] with
    string keys.  A [dict] is kept as the list of its items in insertion
    order. *)
Module Json.

Local Open Scope string_scope.
Local Open Scope Z_scope.

#[local] Unset Elimination Schemes.
Inductive JSON : Type :=
| JNull
| JBool (b : bool)
| JInt (z : Z)
| JFloat (f : spec_float)
| JString (s : string)
| JArray (l : list JSON)
| JObject (items : list (string * JSON)).
#[local] Set Elimination Schemes.

Definition Dict : Type := list (string * JSON).

(** Induction over documents, with the hypotheses for the elements of a
    list and for the values of a dict. *)
Definition JSON_ind (P : JSON -> Prop)
    (Hnull : P JNull)
    (Hbool : forall b, P (JBool b))
    (Hint : forall z, P (JInt z))
    (Hfloat : forall f, P (JFloat f))
    (Hstr : forall s, P (JString s))
    (Harr : forall l, Forall P l -> P (JArray l))
    (Hobj : forall d, Forall (fun kv => P (snd kv)) d -> P (JObject d)) :
  forall v, P v :=
  fix go (v : JSON) : P v :=
    match v with
    | JNull => Hnull
    | JBool b => Hbool b
    | JInt z => Hint z
    | JFloat f => Hfloat f
    | JString s => Hstr s
    | JArray l =>
        Harr l ((fix all (l : list JSON) : Forall P l :=
                   match l with
                   | [] => Forall_nil _
                   | x :: l' => Forall_cons _ (go x) (all l')
                   end) l)
    | JObject d =>
        Hobj d ((fix all (d : Dict) : Forall (fun kv => P (snd kv)) d :=
                   match d with
                   | [] => Forall_nil _
                   | kv :: d' => Forall_cons _ (go (snd kv)) (all d')
                   end) d)
    end.

(** ** dict operations *)

(** [d.get(k)] *)
Fixpoint dict_get (k : string) (d : Dict) : option JSON :=
  match d with
  | [] => None
  | (k', v) :: d' => if (k' =? k)%string then Some v else dict_get k d'
  end.

(** [d[k] = v]: an existing key keeps its position, a new one is appended. *)
Fixpoint dict_set (k : string) (v : JSON) (d : Dict) : Dict :=
  match d with
  | [] => [(k, v)]
  | (k', v') :: d' =>
      if (k' =? k)%string then (k, v) :: d' else (k', v') :: dict_set k v d'
  end.

Definition keys (d : Dict) : list string := map fst d.

(** [k in keys_to_extract] for a list of strings. *)
Definition str_in (k : string) (l : list string) : bool :=
  existsb (fun k' => (k' =? k)%string) l.

(** ** Python equality [==] on documents *)

Definition int_of_bool (b : bool) : Z := if b then 1 else 0.

(** [float == int]: CPython compares the two exactly, without rounding the
    integer. *)
Definition float_eq_int (f : spec_float) (z : Z) : bool :=
  match f with
  | S754_zero _ => z =? 0
  | S754_finite s m e =>
      let v := if s then Z.neg m else Z.pos m in
      if 0 <=? e then z =? v * 2 ^ e else z * 2 ^ (- e) =? v
  | S754_infinity _ | S754_nan => false
  end.

(** A float that is the NaN. *)
Definition is_nan (v : JSON) : bool :=
  match v with
  | JFloat S754_nan => true
  | _ => false
  end.

(** [x is y] between two values of the documents at hand, where it can
    decide a comparison.  The [json] module keeps one float object for NaN
    and returns it for every NaN of a text, and [copy.deepcopy] returns a
    float as it is: two NaNs of these documents are the same object.  Every
    other value is equal to itself, so for it identity decides nothing. *)
Definition same_nan (x y : JSON) : bool := is_nan x && is_nan y.

(** [a == b].  [bool] is a subclass of [int], so [True == 1]; numbers are
    compared by value across [int] and [float], so [nan == nan] is False;
    lists are compared element by element; dicts have to have as many items
    and equal values under every key of the left one.  A list or a dict
    compares its elements with [PyObject_RichCompareBool], which answers
    True for one and the same object before it tries [==]: inside a
    container a NaN is equal to itself. *)
Fixpoint py_eq (a b : JSON) {struct a} : bool :=
  match a, b with
  | JNull, JNull => true
  | JBool x, JBool y => Bool.eqb x y
  | JBool x, JInt z => int_of_bool x =? z
  | JBool x, JFloat f => float_eq_int f (int_of_bool x)
  | JInt z, JBool x => z =? int_of_bool x
  | JInt x, JInt y => x =? y
  | JInt z, JFloat f => float_eq_int f z
  | JFloat f, JBool x => float_eq_int f (int_of_bool x)
  | JFloat f, JInt z => float_eq_int f z
  | JFloat f, JFloat g => SFeqb f g
  | JString s, JString t => (s =? t)%string
  | JArray l, JArray m =>
      (fix all (l m : list JSON) : bool :=
         match l, m with
         | [], [] => true
         | x :: l', y :: m' => (same_nan x y || py_eq x y) && all l' m'
         | _, _ => false
         end) l m
  | JObject d, JObject e =>
      (Nat.eqb (List.length d) (List.length e))
      && forallb (fun kv => match dict_get (fst kv) e with
                            | Some w => same_nan (snd kv) w || py_eq (snd kv) w
                            | None => false
                            end) d
  | _, _ => false
  end.

(** ** Structural equality, as the specification defines it

    "Two documents are structurally equal if they serialize to the same tree
    ignoring key order within maps." *)
#[local] Unset Elimination Schemes.
Inductive struct_eq : JSON -> JSON -> Prop :=
| se_null : struct_eq JNull JNull
| se_bool b : struct_eq (JBool b) (JBool b)
| se_int z : struct_eq (JInt z) (JInt z)
| se_float f : struct_eq (JFloat f) (JFloat f)
| se_str s : struct_eq (JString s) (JString s)
| se_arr l m : Forall2 struct_eq l m -> struct_eq (JArray l) (JArray m)
| se_obj d e :
    (forall k v, dict_get k d = Some v ->
                 exists w, dict_get k e = Some w /\ struct_eq v w) ->
    (forall k w, dict_get k e = Some w ->
                 exists v, dict_get k d = Some v /\ struct_eq v w) ->
    struct_eq (JObject d) (JObject e).
#[local] Set Elimination Schemes.

(** ** Well-formed documents: what a JSON text denotes

    The keys of a dict are pairwise distinct and no number is a NaN. *)
Fixpoint wf_doc (v : JSON) : Prop :=
  match v with
  | JFloat f => f <> S754_nan
  | JArray l => (fix all (l : list JSON) : Prop :=
                   match l with
                   | [] => True
                   | x :: l' => wf_doc x /\ all l'
                   end) l
  | JObject d => NoDup (keys d) /\
                 (fix all (d : Dict) : Prop :=
                    match d with
                    | [] => True
                    | kv :: d' => wf_doc (snd kv) /\ all d'
                    end) d
  | _ => True
  end.

(** The documents Python can hold: the keys of a dict are pairwise
    distinct, whatever the numbers. *)
Fixpoint keys_distinct (v : JSON) : Prop :=
  match v with
  | JArray l => (fix all (l : list JSON) : Prop :=
                   match l with
                   | [] => True
                   | x :: l' => keys_distinct x /\ all l'
                   end) l
  | JObject d => NoDup (keys d) /\
                 (fix all (d : Dict) : Prop :=
                    match d with
                    | [] => True
                    | kv :: d' => keys_distinct (snd kv) /\ all d'
                    end) d
  | _ => True
  end.

End Json.

(* ================================================================== *)
(** * Exceptions *)
(* ================================================================== *)

Module PyExn.

(** The exceptions the workflow handles or lets through. *)
Inductive exn :=
| KeyError (key : string)
| TypeError (msg : string)
| AttributeError (attr : string)
| UnboundLocalError (name : string)
| JSONDecodeError (msg : string)
| ValidationError (message : string)
| OtherException (msg : string).

(** The outcome of a call: it raises or it returns. *)
Definition result (A : Type) : Type := (exn + A)%type.

Definition raise {A} (e : exn) : result A := inl e.

Definition rbind {A B} (r : result A) (k : A -> result B) : result B :=
  match r with
  | inl e => inl e
  | inr a => k a
  end.

End PyExn.

(* ================================================================== *)
(** * SchemaInferrer and schema validation *)
(* ================================================================== *)

(** [genson.SchemaBuilder] and [jsonschema.validate] are libraries the
    workflow imports; their code is not part of the repository. *)
Module SchemaModel.
Import Json PyExn.
Local Open Scope string_scope.
Local Open Scope Z_scope.

(** Modelled from the spec: the types of the scalars of a document
    (section 3: string, number, boolean, null), with the integers told from
    the other numbers. *)
Inductive ScalarType := TNull | TBoolean | TInteger | TNumber | TString.

Definition ScalarType_eqb (a b : ScalarType) : bool :=
  match a, b with
  | TNull, TNull | TBoolean, TBoolean | TInteger, TInteger
  | TNumber, TNumber | TString, TString => true
  | _, _ => false
  end.

(** Modelled from the spec: the Schema of section 3, "for every path in the
    tree, the set of permissible types and, for maps, required/optional keys",
    which stands for the dict that [SchemaBuilder.to_schema] returns.  A node
    describes one path: the scalar types seen there, the node of the elements
    when a sequence was seen, and, when a map was seen, the node of every key
    seen together with the keys that every map seen there had. *)
#[local] Unset Elimination Schemes.
Inductive Schema : Type :=
| SNode (types : list ScalarType)
        (items : option Schema)
        (props : list (string * Schema))
        (required : option (list string)).
#[local] Set Elimination Schemes.

(** Modelled from the spec: [SchemaBuilder()], the schema inferred from no
    example; it constrains nothing. *)
Definition SchemaBuilder : Schema := SNode [] None [] None.

(** Modelled from the spec: a node inferred from no example. *)
Definition is_empty (s : Schema) : bool :=
  match s with
  | SNode [] None [] None => true
  | _ => false
  end.

(** Modelled from the spec: membership in, and addition to, "the set of
    permissible types". *)
Definition has_type (t : ScalarType) (ts : list ScalarType) : bool :=
  existsb (ScalarType_eqb t) ts.

Definition add_type (t : ScalarType) (ts : list ScalarType) : list ScalarType :=
  if has_type t ts then ts else ts ++ [t].

(** Modelled from the spec: the node of a key of a map, read and written. *)
Fixpoint props_get (k : string) (ps : list (string * Schema)) : option Schema :=
  match ps with
  | [] => None
  | (k', s) :: ps' => if (k' =? k)%string then Some s else props_get k ps'
  end.

Fixpoint props_set (k : string) (s : Schema) (ps : list (string * Schema))
  : list (string * Schema) :=
  match ps with
  | [] => [(k, s)]
  | (k', s') :: ps' =>
      if (k' =? k)%string then (k, s) :: ps' else (k', s') :: props_set k s ps'
  end.

Definition node_or_new (o : option Schema) : Schema :=
  match o with Some s => s | None => SchemaBuilder end.

(** Modelled from the spec: [SchemaBuilder.add_object], schema inference
    (section 4.1) from one more example.  The example's type is added to the
    permissible types of its path; the elements of a sequence all feed the
    one node of the elements; every key of a map feeds the node of that key,
    and a key stays required only while every map seen at the path has it. *)
Fixpoint add_object (s : Schema) (v : JSON) {struct v} : Schema :=
  match s with
  | SNode types items props required =>
      match v with
      | JNull => SNode (add_type TNull types) items props required
      | JBool _ => SNode (add_type TBoolean types) items props required
      | JInt _ => SNode (add_type TInteger types) items props required
      | JFloat _ => SNode (add_type TNumber types) items props required
      | JString _ => SNode (add_type TString types) items props required
      | JArray l =>
          SNode types
                (Some (fold_left (fun node x => add_object node x) l
                                 (node_or_new items)))
                props required
      | JObject d =>
          SNode types items
                (fold_left
                   (fun ps kv =>
                      props_set (fst kv)
                        (add_object (node_or_new (props_get (fst kv) ps))
                                    (snd kv))
                        ps)
                   d props)
                (Some match required with
                      | None => keys d
                      | Some req => filter (fun k => str_in k (keys d)) req
                      end)
      end
  end.

(** Modelled from the spec: [SchemaBuilder.to_schema]. *)
Definition to_schema (s : Schema) : Schema := s.

(** Modelled from the spec: the check behind [jsonschema.validate], [true]
    when the instance satisfies the schema.  The instance's type must be
    permissible at its path (an integer is also a number), the elements of a
    sequence must satisfy the node of the elements, a map must have every
    required key, and the value of every key that has a node must satisfy
    it; keys without a node are not constrained. *)
Fixpoint satisfies (s : Schema) (v : JSON) {struct v} : bool :=
  is_empty s ||
  match s with
  | SNode types items props required =>
      match v with
      | JNull => has_type TNull types
      | JBool _ => has_type TBoolean types
      | JInt _ => has_type TInteger types || has_type TNumber types
      | JFloat _ => has_type TNumber types
      | JString _ => has_type TString types
      | JArray l =>
          match items with
          | None => false
          | Some s' => forallb (fun x => satisfies s' x) l
          end
      | JObject d =>
          match required with
          | None => false
          | Some req =>
              forallb (fun k => str_in k (keys d)) req
              && forallb (fun kv => match props_get (fst kv) props with
                                    | Some s' => satisfies s' (snd kv)
                                    | None => true
                                    end) d
          end
      end
  end.

(** Modelled from the spec: [jsonschema.validate(instance, schema)], which
    returns when the instance satisfies the schema and raises
    [ValidationError] when it does not. *)
Definition validate (instance : JSON) (schema : Schema) : result unit :=
  if satisfies schema instance then inr tt
  else inl (ValidationError "instance does not match the schema").

End SchemaModel.

(* ================================================================== *)
(** * Workflow state and partial updates *)
(* ================================================================== *)

Module Workflow.
Export PyExn.
Import PyStr Sanitizer Json SchemaModel.
Local Open Scope string_scope.
Local Open Scope Z_scope.

(** ** Constants *)

Definition MAX_RETRIES : Z := 3.

Definition SIMULATION_KEYS_TO_EXTRACT : list string :=
  [ "lessonInformation";
    "assessmentCriterion";
    "selectedAssessmentCriterion";
    "simulationName";
    "simulationFlow";
    "workplaceScenario";
    "industryAlignedActivities";
    "selectedIndustryAlignedActivities" ].

(** ** State *)

Record Message := mkMessage { role : string; content : string }.

(** The entry [generated_schema] is declared [str]; line 289 stores the
    parsed document under the same key. *)
Inductive Generated :=
| GenText (text : string)
| GenParsed (doc : JSON).

(** [class State(TypedDict)].  [create_initial_state] leaves out the keys
    that are [option]s here; [None] is an absent key. *)
Record State := mkState {
  current_scenario_option : string;
  new_scenario_option : string;
  current_scenario_example_json : JSON;
  validation_schema : option Schema;
  generated_schema : Generated;
  evaluator_message : string;
  num_retries : Z;
  history_generator : list string;
  history_evaluator : list string;
  message_history : list Message;
  simulation_start_time : spec_float;
  simulation_end_time : spec_float;
  simulation_duration : spec_float;
  schema_fidelity : option string;
  locked_field_equality : option string;
  changed_fields : option JSON;
  output_json : option JSON
}.

Definition float_zero : spec_float := S754_zero false.

(** [create_initial_state], lines 89-116. *)
Definition create_initial_state (current_scenario new_scenario : string)
    (scenario_json : JSON) : State :=
  {| current_scenario_option := current_scenario;
     new_scenario_option := new_scenario;
     current_scenario_example_json := scenario_json;
     validation_schema := None;
     generated_schema := GenText "";
     evaluator_message := "";
     num_retries := 0;
     history_generator := [];
     history_evaluator := [];
     message_history := [];
     simulation_start_time := float_zero;
     simulation_end_time := float_zero;
     simulation_duration := float_zero;
     schema_fidelity := None;
     locked_field_equality := None;
     changed_fields := None;
     output_json := None |}.

(** ** Partial updates

    A node returns a dict holding some of the state's keys; the driver
    writes each of them over the state it keeps. *)
Inductive Assign :=
| Set_validation_schema (v : Schema)
| Set_generated_schema (v : string)
| Set_evaluator_message (v : string)
| Set_num_retries (v : Z)
| Set_history_generator (v : list string)
| Set_history_evaluator (v : list string)
| Set_message_history (v : list Message)
| Set_simulation_start_time (v : spec_float)
| Set_simulation_end_time (v : spec_float)
| Set_simulation_duration (v : spec_float)
| Set_schema_fidelity (v : string)
| Set_locked_field_equality (v : string)
| Set_changed_fields (v : JSON)
| Set_output_json (v : JSON).

Definition Update : Type := list Assign.

Definition assign (s : State) (a : Assign) : State :=
  let '(mkState cso nso cej vs gs em nr hg he mh sst set_ sd sf lfe cf oj) := s in
  match a with
  | Set_validation_schema v =>
      mkState cso nso cej (Some v) gs em nr hg he mh sst set_ sd sf lfe cf oj
  | Set_generated_schema v =>
      mkState cso nso cej vs (GenText v) em nr hg he mh sst set_ sd sf lfe cf oj
  | Set_evaluator_message v =>
      mkState cso nso cej vs gs v nr hg he mh sst set_ sd sf lfe cf oj
  | Set_num_retries v =>
      mkState cso nso cej vs gs em v hg he mh sst set_ sd sf lfe cf oj
  | Set_history_generator v =>
      mkState cso nso cej vs gs em nr v he mh sst set_ sd sf lfe cf oj
  | Set_history_evaluator v =>
      mkState cso nso cej vs gs em nr hg v mh sst set_ sd sf lfe cf oj
  | Set_message_history v =>
      mkState cso nso cej vs gs em nr hg he v sst set_ sd sf lfe cf oj
  | Set_simulation_start_time v =>
      mkState cso nso cej vs gs em nr hg he mh v set_ sd sf lfe cf oj
  | Set_simulation_end_time v =>
      mkState cso nso cej vs gs em nr hg he mh sst v sd sf lfe cf oj
  | Set_simulation_duration v =>
      mkState cso nso cej vs gs em nr hg he mh sst set_ v sf lfe cf oj
  | Set_schema_fidelity v =>
      mkState cso nso cej vs gs em nr hg he mh sst set_ sd (Some v) lfe cf oj
  | Set_locked_field_equality v =>
      mkState cso nso cej vs gs em nr hg he mh sst set_ sd sf (Some v) cf oj
  | Set_changed_fields v =>
      mkState cso nso cej vs gs em nr hg he mh sst set_ sd sf lfe (Some v) oj
  | Set_output_json v =>
      mkState cso nso cej vs gs em nr hg he mh sst set_ sd sf lfe cf (Some v)
  end.

(** The driver's merge of a node's return value into the state. *)
Definition merge (s : State) (u : Update) : State := fold_left assign u s.

(** [state['generated_schema'] = v], a write into the dict the node was
    handed. *)
Definition store_generated_schema (v : Generated) (s : State) : State :=
  let '(mkState cso nso cej vs gs em nr hg he mh sst set_ sd sf lfe cf oj) := s in
  mkState cso nso cej vs v em nr hg he mh sst set_ sd sf lfe cf oj.

(** ** Subscripting documents *)

(** [v[k]] for a string key. *)
Definition getitem (v : JSON) (k : string) : result JSON :=
  match v with
  | JObject d => match dict_get k d with
                 | Some x => inr x
                 | None => raise (KeyError k)
                 end
  | _ => raise (TypeError "not subscriptable by a string")
  end.

(** [v[k1][k2] = x], giving the new value of [v]. *)
Definition setitem2 (v : JSON) (k1 k2 : string) (x : JSON) : result JSON :=
  match v with
  | JObject d =>
      match dict_get k1 d with
      | Some (JObject inner) => inr (JObject (dict_set k1 (JObject (dict_set k2 x inner)) d))
      | Some _ => raise (TypeError "does not support item assignment by a string")
      | None => raise (KeyError k1)
      end
  | _ => raise (TypeError "not subscriptable by a string")
  end.

(** [v.items()] *)
Definition dict_items (v : JSON) : result Dict :=
  match v with
  | JObject d => inr d
  | _ => raise (AttributeError "items")
  end.

(** ** Subset extraction *)

(** [_extract_simulation_subset], lines 353-365.  The comprehension builds
    the result by successive insertions. *)
Definition _extract_simulation_subset (full_json : JSON)
    (keys_to_extract : list string) : result Dict :=
  match full_json with
  | JObject d =>
      let topic_wizard_data :=
        match dict_get "topicWizardData" d with
        | Some v => v
        | None => JObject []
        end in
      rbind (dict_items topic_wizard_data) (fun items =>
        inr (fold_left
               (fun acc kv => if str_in (fst kv) keys_to_extract
                              then dict_set (fst kv) (snd kv) acc
                              else acc)
               items []))
  | _ => raise (AttributeError "get")
  end.

(** ** Effects of a node

    A node runs against a world: the documents it holds by reference, the
    state dict it was handed, and the number of clock readings taken so
    far.  A document object is a cell of the heap holding a whole tree: the
    documents at hand come from [json.load] and [copy.deepcopy], which share
    no part with any other object. *)

Definition loc : Type := nat.

Record World := mkWorld {
  heap : list JSON;
  wstate : State;
  ticks : nat
}.

Definition M (A : Type) : Type := World -> result A * World.

Definition ret {A} (a : A) : M A := fun w => (inr a, w).

Definition bind {A B} (m : M A) (k : A -> M B) : M B :=
  fun w => match m w with
           | (inl e, w') => (inl e, w')
           | (inr a, w') => k a w'
           end.

Declare Scope agg_scope.
Delimit Scope agg_scope with agg.
Notation "x <- m ;; k" := (bind m (fun x => k))
  (at level 61, m at next level, right associativity) : agg_scope.
Notation "m ;; k" := (bind m (fun _ => k))
  (at level 61, right associativity) : agg_scope.
Local Open Scope agg_scope.

Definition liftR {A} (r : result A) : M A := fun w => (r, w).

Definition get_state : M State := fun w => (inr (wstate w), w).

Definition put_state (s : State) : M unit :=
  fun w => (inr tt, mkWorld (heap w) s (ticks w)).

(** A new object holding [v]. *)
Definition alloc (v : JSON) : M loc :=
  fun w => (inr (List.length (heap w)),
            mkWorld (heap w ++ [v])%list (wstate w) (ticks w)).

Definition load (l : loc) : M JSON :=
  fun w => (inr (nth l (heap w) JNull), w).

Fixpoint list_set {A} (l : list A) (n : nat) (x : A) : list A :=
  match l, n with
  | [], _ => []
  | _ :: l', O => x :: l'
  | y :: l', S n' => y :: list_set l' n' x
  end.

Definition store (l : loc) (v : JSON) : M unit :=
  fun w => (inr tt, mkWorld (list_set (heap w) l v) (wstate w) (ticks w)).

(** [copy.deepcopy(x)]: a new object with an equal tree. *)
Definition deepcopy (l : loc) : M loc := v <- load l ;; alloc v.

(** [x[k1][k2] = v] on the object [l]. *)
Definition setitem2_at (l : loc) (k1 k2 : string) (x : JSON) : M unit :=
  v <- load l ;; v' <- liftR (setitem2 v k1 k2 x) ;; store l v'.

Definition getitem2_at (l : loc) (k1 k2 : string) : M JSON :=
  v <- load l ;; a <- liftR (getitem v k1) ;; liftR (getitem a k2).

Fixpoint for_each {A} (l : list A) (body : A -> M unit) : M unit :=
  match l with
  | [] => ret tt
  | x :: l' => body x ;; for_each l' body
  end.

(** [try: body except Exception: handler] *)
Definition try_except {A} (body : M A) (handler : exn -> M A) : M A :=
  fun w => match body w with
           | (inl e, w') => handler e w'
           | r => r
           end.

(** Reading a local variable that an earlier branch may have left unbound. *)
Definition local {A} (name : string) (v : option A) : M A :=
  match v with
  | Some a => ret a
  | None => liftR (raise (UnboundLocalError name))
  end.

(* ================================================================== *)
(** * The nodes of the graph *)
(* ================================================================== *)

Section Nodes.

(** ** External collaborators *)

(** [model.invoke(history)], giving [response.content]. *)
Variable model_invoke : list Message -> result string.
(** [json_repair.loads] *)
Variable json_repair_loads : string -> result JSON.
(** [jsonschema.validate(instance, schema)] *)
Variable jsonschema_validate : JSON -> Schema -> result unit.
(** [DeepDiff(a, b, ignore_order=True, report_repetition=True, hasher=None)] *)
Variable DeepDiff : JSON -> JSON -> result JSON.
(** [json.load] of the file at a path. *)
Variable json_load_file : string -> result JSON.
(** [time.time()]: the n-th reading of the clock. *)
Variable clock : nat -> spec_float.
(** The wording of the two prompts. *)
Variable _build_recontextualization_prompt : string -> string -> Dict -> string.
Variable _build_correction_prompt : string -> string.

Definition time_time : M spec_float :=
  fun w => (inr (clock (ticks w)), mkWorld (heap w) (wstate w) (S (ticks w))).

Definition float_sub : spec_float -> spec_float -> spec_float := SFsub 53 1024.

(** [recontextualize_agent], lines 122-172. *)
Definition recontextualize_agent : M Update :=
  state <- get_state ;;
  simulation_start_time <- time_time ;;
  simulation_json <- liftR (_extract_simulation_subset
                              (current_scenario_example_json state)
                              SIMULATION_KEYS_TO_EXTRACT) ;;
  let builder := add_object SchemaBuilder (JObject simulation_json) in
  let validation_schema := to_schema builder in
  let prompt := _build_recontextualization_prompt
                  (current_scenario_option state)
                  (new_scenario_option state)
                  simulation_json in
  let updated_history := (message_history state ++ [mkMessage "user" prompt])%list in
  response <- liftR (model_invoke updated_history) ;;
  _ <- time_time ;;
  ret [ Set_validation_schema validation_schema;
        Set_simulation_start_time simulation_start_time;
        Set_message_history (updated_history ++ [mkMessage "assistant" response])%list;
        Set_generated_schema response;
        Set_history_generator (history_generator state ++ [response])%list ].

(** [state['generated_schema']] read as the text to parse. *)
Definition loads (g : Generated) : result JSON :=
  match g with
  | GenText t => json_repair_loads t
  | GenParsed _ => raise (TypeError "loads takes a str")
  end.

Definition generated_text (g : Generated) : result string :=
  match g with
  | GenText t => inr t
  | GenParsed _ => raise (AttributeError "strip")
  end.

(** The [try] block of [validate_json], lines 189-194. *)
Definition validate_json_try (state : State) : result unit :=
  rbind (generated_text (generated_schema state)) (fun text =>
  let cleaned_json_text := _remove_markdown_code_blocks text in
  rbind (json_repair_loads cleaned_json_text) (fun generated_json =>
  match validation_schema state with
  | None => raise (KeyError "validation_schema")
  | Some schema => jsonschema_validate generated_json schema
  end)).

(** [validate_json], lines 175-216. *)
Definition validate_json (state : State) : result Update :=
  match validate_json_try state with
  | inr tt =>
      inr [ Set_evaluator_message "PASS";
            Set_history_evaluator (history_evaluator state ++ ["PASS"])%list ]
  | inl (ValidationError message) =>
      inr [ Set_num_retries (num_retries state + 1);
            Set_evaluator_message ("JSON Schema Validation FAILED: " ++ message);
            Set_history_evaluator (history_evaluator state ++ [message])%list ]
  | inl (JSONDecodeError msg) =>
      inr [ Set_num_retries (num_retries state + 1);
            Set_evaluator_message ("JSON Parse Error: " ++ msg);
            Set_history_evaluator (history_evaluator state ++ [msg])%list ]
  | inl e => raise e
  end.

(** [json_format_correction_agent], lines 219-247. *)
Definition json_format_correction_agent (state : State) : result Update :=
  let retry_prompt := _build_correction_prompt (evaluator_message state) in
  rbind (model_invoke (message_history state ++ [mkMessage "user" retry_prompt])%list)
    (fun response =>
  inr [ Set_message_history (message_history state
                             ++ [ mkMessage "user" retry_prompt;
                                  mkMessage "assistant" response ])%list;
        Set_generated_schema response;
        Set_history_generator (history_generator state ++ [response])%list ]).

(** [route_after_validation], lines 254-271. *)
Definition route_after_validation (state : State) : string :=
  if (evaluator_message state =? "PASS")%string then "Pass"
  else if num_retries state >=? MAX_RETRIES then "Retry Limit Exceeded"
  else "Fail".

(** [aggregator_node], lines 277-345.  The three locals bound inside the
    [try] are [option]s: the [except] branch binds only [diff]. *)
Definition aggregator_node : M Update :=
  start_time <- time_time ;;
  file <- liftR (json_load_file "problem_statement/POC_sim_D.json") ;;
  data <- alloc file ;;
  recontextualized_json <- deepcopy data ;;
  state <- get_state ;;
  parsed <- liftR (loads (generated_schema state)) ;;
  put_state (store_generated_schema (GenParsed parsed) state) ;;
  state <- get_state ;;
  generated <- liftR (match generated_schema state with
                      | GenParsed v => dict_items v
                      | GenText _ => raise (AttributeError "items")
                      end) ;;
  for_each generated (fun kv =>
    setitem2_at recontextualized_json "topicWizardData" (fst kv) (snd kv)) ;;
  setitem2_at recontextualized_json "topicWizardData" "selectedScenarioOption"
              (JString (new_scenario_option state)) ;;
  locals <- try_except
              (a <- load data ;;
               b <- load recontextualized_json ;;
               diff <- liftR (DeepDiff a b) ;;
               simulation_end_time <- time_time ;;
               let simulation_duration :=
                 float_sub simulation_end_time (simulation_start_time state) in
               ret (diff, Some simulation_end_time, Some simulation_duration))
              (fun e => ret (JObject [], None, None)) ;;
  let '(diff, simulation_end_time, simulation_duration) := locals in
  original <- load data ;;
  let builder := add_object SchemaBuilder original in
  let validation_schema := to_schema builder in
  merged <- load recontextualized_json ;;
  schema_fidelity <- liftR (match jsonschema_validate merged validation_schema with
                            | inr tt => inr "PASS"
                            | inl (ValidationError _) => inr "FAIL"
                            | inl e => raise e
                            end) ;;
  new_options <- getitem2_at recontextualized_json "topicWizardData" "scenarioOptions" ;;
  old_options <- getitem2_at data "topicWizardData" "scenarioOptions" ;;
  let locked_field_equality :=
    if py_eq new_options old_options then "PASS" else "FAIL" in
  _ <- time_time ;;
  _ <- local "simulation_duration" simulation_duration ;;
  output <- load recontextualized_json ;;
  end_time <- local "simulation_end_time" simulation_end_time ;;
  duration <- local "simulation_duration" simulation_duration ;;
  ret [ Set_schema_fidelity schema_fidelity;
        Set_locked_field_equality locked_field_equality;
        Set_output_json output;
        Set_simulation_end_time end_time;
        Set_simulation_duration duration;
        Set_changed_fields diff ].

(* ================================================================== *)
(** * The graph and its driver *)
(* ================================================================== *)

(** [build_workflow], lines 442-481. *)
Inductive Node :=
| N_recontextualize_agent
| N_validate_json
| N_json_format_correction
| N_aggregator_node
| N_END.

(** The mapping given to [add_conditional_edges]. *)
Definition conditional_edges (route : string) : result Node :=
  if (route =? "Fail")%string then inr N_json_format_correction
  else if (route =? "Pass")%string then inr N_aggregator_node
  else if (route =? "Retry Limit Exceeded")%string then inr N_END
  else raise (KeyError route).

Definition run_node (n : Node) : M Update :=
  match n with
  | N_recontextualize_agent => recontextualize_agent
  | N_validate_json => state <- get_state ;; liftR (validate_json state)
  | N_json_format_correction =>
      state <- get_state ;; liftR (json_format_correction_agent state)
  | N_aggregator_node => aggregator_node
  | N_END => ret []
  end.

Definition next_node (n : Node) (state : State) : result Node :=
  match n with
  | N_recontextualize_agent => inr N_validate_json
  | N_validate_json => conditional_edges (route_after_validation state)
  | N_json_format_correction => inr N_validate_json
  | N_aggregator_node => inr N_END
  | N_END => inr N_END
  end.

(** Where the run is: the node to run next, the state the driver keeps, and
    the clock readings taken. *)
Record Config := mkConfig {
  at_node : Node;
  state_of : State;
  readings : nat
}.

(** The first node after [START]. *)
Definition initial_config (current_scenario new_scenario : string)
    (scenario_json : JSON) : Config :=
  mkConfig N_recontextualize_agent
           (create_initial_state current_scenario new_scenario scenario_json) 0.

(** One superstep: the node runs on a dict built from the driver's state,
    and the dict it returns is merged into the driver's state.  An exception
    of the node ends the run. *)
Definition step (c : Config) : result Config :=
  match at_node c with
  | N_END => inr c
  | n =>
      let '(r, w) := run_node n (mkWorld [] (state_of c) (readings c)) in
      rbind r (fun u =>
      let s' := merge (state_of c) u in
      rbind (next_node n s') (fun n' =>
      inr (mkConfig n' s' (ticks w))))
  end.

Fixpoint run (fuel : nat) (c : Config) : result Config :=
  match fuel with
  | O => inr c
  | S fuel' => rbind (step c) (run fuel')
  end.

(** The configurations a run goes through. *)
Inductive reachable : Config -> Prop :=
| reach_start current_scenario new_scenario scenario_json :
    reachable (initial_config current_scenario new_scenario scenario_json)
| reach_step c c' :
    reachable c -> step c = inr c' -> reachable c'.

End Nodes.

End Workflow.

(* ================================================================== *)
(** * Test doubles for the external collaborators *)
(* ================================================================== *)

Module Stubs.
Import Json SchemaModel Workflow.
Local Open Scope string_scope.

(** A parser that knows two texts and rejects every other one. *)
Definition parse (text : string) : result JSON :=
  if (text =? "{}")%string then inr (JObject [])
  else if (text =? "[]")%string then inr (JArray [])
  else inl (JSONDecodeError "Expecting value: line 1 column 1 (char 0)").

Definition validate : JSON -> Schema -> result unit := SchemaModel.validate.

(** A generator that answers the n-th request with the n-th text of a
    script; the history has two more messages at every request. *)
Definition scripted (answers : list string) (history : list Message)
  : result string :=
  inr (nth (Nat.div2 (List.length history)) answers "").

Definition diff_ok (a b : JSON) : result JSON := inr (JObject []).

Definition diff_fails (a b : JSON) : result JSON :=
  inl (OtherException "DeepDiff failed").

Definition clock (n : nat) : spec_float := S754_zero false.

Definition recontextualization_prompt (old new : string) (d : Dict) : string :=
  "adapt".

Definition correction_prompt (error_message : string) : string :=
  "correct: " ++ error_message.

Definition document : JSON :=
  JObject [ ("topicWizardData",
             JObject [ ("simulationName", JString "Pricing war");
                       ("scenarioOptions", JArray [JString "a"; JString "b"]);
                       ("selectedScenarioOption", JString "a") ]) ].

Definition file (path : string) : result JSON := inr document.

End Stubs.

(* ================================================================== *)
(** * The prompts *)
(* ================================================================== *)

Module Prompts.
Import PyStr Json.
Local Open Scope string_scope.

(** [_build_recontextualization_prompt], lines 390-414, over
    [json.dumps(_, indent=2)]. *)
Definition _build_recontextualization_prompt (json_dumps : Dict -> string)
    (old_scenario new_scenario : string) (simulation_json : Dict) : string :=
  "You are an expert simulation designer. Your task is to adapt an existing simulation (given as JSON) to a new scenario while preserving its structure and links." ++ newline ++
  newline ++
  "Here is the current simulation scenario:" ++ newline ++
  "OLD SCENARIO: " ++ old_scenario ++ newline ++
  newline ++
  "Simulation JSON (do not modify the structure or fields):" ++ newline ++
  "SIMULATION: " ++ json_dumps simulation_json ++ newline ++
  newline ++
  "Your objective:" ++ newline ++
  "- Re-contextualize all narrative, descriptions, and scenario-dependent content so that it aligns with the NEW SCENARIO:" ++ newline ++
  "NEW SCENARIO: " ++ new_scenario ++ newline ++
  newline ++
  "Constraints:" ++ newline ++
  "1. Do not modify the JSON structure, keys, or data types." ++ newline ++
  "2. Locked fields (everything not scenario-dependent) must remain identical." ++ newline ++
  "3. Only adapt scenario-relevant content such as names, roles, narrative, instructions, examples, and context." ++ newline ++
  "4. Ensure global coherence: the adapted simulation should read naturally, reflect the new scenario consistently, and contain no residual references to the old scenario." ++ newline ++
  "5. Preserve formatting, arrays, objects, and any schema constraints." ++ newline ++
  newline ++
  "Deliverable:" ++ newline ++
  "- Output ONLY the valid JSON object. Do not include any markdown formatting, code blocks, explanations, or additional text." ++ newline ++
  "- Do not wrap the JSON in ```json or ``` markers." ++ newline ++
  "- Return only the raw JSON that can be directly parsed.".

(** [_build_correction_prompt], lines 417-434. *)
Definition _build_correction_prompt (error_message : string) : string :=
  "The previous output did not satisfy the required JSON Schema." ++ newline ++
  "A validation failure occurred with the following message:" ++ newline ++
  newline ++
  error_message ++ newline ++
  newline ++
  "You must correct all issues identified by the validator and produce a fully compliant JSON object." ++ newline ++
  "Carefully review the schema constraints, adjust any incorrect fields or structural inconsistencies, and ensure that:" ++ newline ++
  newline ++
  "1. Every key strictly adheres to the expected schema." ++ newline ++
  "2. All value types match the schema requirements." ++ newline ++
  "3. No additional or missing fields exist." ++ newline ++
  "4. Arrays and nested objects follow the exact structure defined by the schema." ++ newline ++
  "5. The JSON remains syntactically valid and properly formatted." ++ newline ++
  newline ++
  "After making the necessary corrections, re-generate the complete JSON output that fully conforms to the schema." ++ newline ++
  "Provide only the corrected JSON in your response.".

End Prompts.

(* ================================================================== *)
(** * Facts about the string operations *)
(* ================================================================== *)

Module PyStrFacts.
Import PyStr.
Local Open Scope string_scope.
Local Open Scope Z_scope.

Lemma prefix_nil (s : string) : String.prefix "" s = true.
Proof. destruct s; reflexivity. Qed.

Lemma prefix_app (p r : string) : String.prefix p (p ++ r) = true.
Proof.
  induction p as [|c p IH]; simpl.
  - apply prefix_nil.
  - destruct (ascii_dec c c) as [_|ne]; [exact IH | contradiction].
Qed.

Lemma prefix_split (p s : string) :
  String.prefix p s = true -> exists r, s = p ++ r.
Proof.
  revert s. induction p as [|c p IH]; intros s H.
  - exists s. reflexivity.
  - destruct s as [|d s]; simpl in H; [discriminate|].
    destruct (ascii_dec c d) as [->|]; [|discriminate].
    destruct (IH s H) as [r ->]. exists r. reflexivity.
Qed.

Lemma append_assoc (a b c : string) : (a ++ b) ++ c = a ++ (b ++ c).
Proof. induction a as [|x a IH]; simpl; [reflexivity | now rewrite IH]. Qed.

Lemma length_append (a b : string) :
  String.length (a ++ b) = (String.length a + String.length b)%nat.
Proof. induction a as [|x a IH]; simpl; [reflexivity | now rewrite IH]. Qed.

Lemma len_append (a b : string) : len (a ++ b) = len a + len b.
Proof. unfold len. rewrite length_append. lia. Qed.

Lemma len_nonneg (s : string) : 0 <= len s.
Proof. unfold len. lia. Qed.

Lemma contains_prefix (p s : string) :
  String.prefix p s = true -> contains s p.
Proof.
  intros H. destruct (prefix_split _ _ H) as [r ->]. exists "", r. reflexivity.
Qed.

Lemma contains_tail (c : ascii) (s sub : string) :
  contains s sub -> contains (String c s) sub.
Proof. intros (a & b & ->). exists (String c a), b. reflexivity. Qed.

Lemma contains_cons (c : ascii) (s sub : string) :
  contains (String c s) sub ->
  String.prefix sub (String c s) = true \/ contains s sub.
Proof.
  intros (a & b & E). destruct a as [|x a].
  - left. simpl in E. rewrite E. apply prefix_app.
  - right. simpl in E. injection E as _ ->. exists a, b. reflexivity.
Qed.

Lemma contains_app_r (a s sub : string) :
  contains s sub -> contains (a ++ s) sub.
Proof.
  induction a as [|c a IH]; intros H; simpl; [exact H|].
  apply contains_tail, IH, H.
Qed.

(** ** [strip] *)

Lemma lstrip_idem (s : string) : lstrip (lstrip s) = lstrip s.
Proof.
  induction s as [|c s IH]; simpl; [reflexivity|].
  destruct (isspace c) eqn:E; [exact IH | simpl; now rewrite E].
Qed.

Lemma rstrip_idem (s : string) : rstrip (rstrip s) = rstrip s.
Proof.
  induction s as [|c s IH]; simpl; [reflexivity|].
  destruct (rstrip s) as [|d r] eqn:E.
  - destruct (isspace c) eqn:Ec; simpl; [reflexivity | now rewrite Ec].
  - change (rstrip (String c (String d r)) = String c (String d r)).
    simpl. simpl in IH. rewrite IH. reflexivity.
Qed.

(** A text the left strip leaves alone is empty or starts with a character
    that is no space. *)
Definition lstripped (s : string) : Prop :=
  match s with
  | EmptyString => True
  | String c _ => isspace c = false
  end.

Lemma lstrip_lstripped (s : string) : lstripped (lstrip s).
Proof.
  induction s as [|c s IH]; simpl; [exact I|].
  destruct (isspace c) eqn:E; [exact IH | exact E].
Qed.

Lemma lstripped_fix (s : string) : lstripped s -> lstrip s = s.
Proof. destruct s as [|c s]; simpl; [reflexivity | now intros ->]. Qed.

Lemma rstrip_lstripped (s : string) : lstripped s -> lstripped (rstrip s).
Proof.
  destruct s as [|c s]; simpl; [trivial|]. intros H.
  destruct (rstrip s); [rewrite H|]; exact H.
Qed.

Lemma strip_idem (s : string) : strip (strip s) = strip s.
Proof.
  unfold strip.
  rewrite (lstripped_fix (rstrip (lstrip s))).
  - apply rstrip_idem.
  - apply rstrip_lstripped, lstrip_lstripped.
Qed.

Lemma length_lstrip (s : string) : (String.length (lstrip s) <= String.length s)%nat.
Proof.
  induction s as [|c s IH]; simpl; [lia|].
  destruct (isspace c); simpl; lia.
Qed.

Lemma length_rstrip (s : string) : (String.length (rstrip s) <= String.length s)%nat.
Proof.
  induction s as [|c s IH]; simpl; [lia|].
  destruct (rstrip s); [destruct (isspace c)|]; simpl in *; lia.
Qed.

Lemma len_strip (s : string) : len (strip s) <= len s.
Proof.
  unfold len, strip.
  pose proof (length_rstrip (lstrip s)). pose proof (length_lstrip s). lia.
Qed.

(** ** [find] and [rfind] *)

Lemma find_from_absent (s sub : string) (i : Z) :
  ~ contains s sub -> find_from i s sub = -1.
Proof.
  revert i. induction s as [|c s IH]; intros i H; cbn [find_from].
  - destruct (String.prefix sub "") eqn:E; [|reflexivity].
    exfalso. apply H, contains_prefix, E.
  - destruct (String.prefix sub (String c s)) eqn:E.
    + exfalso. apply H, contains_prefix, E.
    + apply IH. intros C. apply H, contains_tail, C.
Qed.

Lemma prefix_len (p s : string) : String.prefix p s = true -> len p <= len s.
Proof.
  intros H. destruct (prefix_split _ _ H) as [r ->].
  rewrite len_append. pose proof (len_nonneg r). lia.
Qed.

Lemma find_from_range (s sub : string) (i : Z) :
  find_from i s sub = -1 \/
  (i <= find_from i s sub /\ find_from i s sub + len sub <= i + len s).
Proof.
  revert i. induction s as [|c s IH]; intros i; cbn [find_from].
  - destruct (String.prefix sub "") eqn:E; [right | now left].
    apply prefix_len in E. lia.
  - destruct (String.prefix sub (String c s)) eqn:E.
    + right. apply prefix_len in E. lia.
    + destruct (IH (i + 1)) as [->|R]; [now left|].
      right. unfold len in *. simpl String.length. lia.
Qed.

Lemma find_from_present (s sub : string) (i : Z) :
  0 <= i -> contains s sub -> find_from i s sub <> -1.
Proof.
  revert i. induction s as [|c s IH]; intros i Hi H.
  - destruct H as (a & b & E). destruct a; [|discriminate].
    simpl in E. cbn [find_from]. rewrite E, prefix_app. lia.
  - cbn [find_from]. destruct (String.prefix sub (String c s)) eqn:E; [lia|].
    destruct (contains_cons _ _ _ H) as [P|C]; [congruence|].
    apply IH; [lia | exact C].
Qed.

Lemma find_absent (s sub : string) : find s sub = -1 -> ~ contains s sub.
Proof.
  intros E C. exact (find_from_present s sub 0 (Z.le_refl 0) C E).
Qed.

(** The first newline of a text is where [find] says. *)
Lemma find_from_newline (a b : string) (i : Z) :
  ~ contains a newline -> find_from i (a ++ newline ++ b) newline = i + len a.
Proof.
  revert i. induction a as [|c a IH]; intros i H.
  - pose proof (prefix_app newline b) as P.
    unfold newline in *. cbn [append] in *. cbn [find_from].
    rewrite P. unfold len. simpl. lia.
  - change (String c a ++ newline ++ b) with (String c (a ++ newline ++ b)).
    cbn [find_from].
    replace (String.prefix newline (String c (a ++ newline ++ b))) with false.
    + rewrite IH.
      * unfold len. simpl String.length. lia.
      * intros C. apply H, contains_tail, C.
    + unfold newline. cbn [String.prefix].
      destruct (ascii_dec "010" c) as [<-|]; [|reflexivity].
      exfalso. apply H. exists "", a. reflexivity.
Qed.

Lemma rfind_from_absent (s sub : string) (i : Z) :
  ~ contains s sub -> rfind_from i s sub = -1.
Proof.
  revert i. induction s as [|c s IH]; intros i H; cbn [rfind_from].
  - destruct (String.prefix sub "") eqn:E; [|reflexivity].
    exfalso. apply H, contains_prefix, E.
  - rewrite IH by (intros C; apply H, contains_tail, C). simpl Z.eqb. cbv iota.
    destruct (String.prefix sub (String c s)) eqn:E; [|reflexivity].
    exfalso. apply H, contains_prefix, E.
Qed.

Lemma rfind_from_range (s sub : string) (i : Z) :
  rfind_from i s sub = -1 \/ (i <= rfind_from i s sub <= i + len s).
Proof.
  revert i. induction s as [|c s IH]; intros i; cbn [rfind_from].
  - destruct (String.prefix sub ""); [right; unfold len; simpl; lia | now left].
  - destruct (IH (i + 1)) as [->|R].
    + simpl Z.eqb. cbv iota. destruct (String.prefix sub (String c s)); [right|now left].
      pose proof (len_nonneg (String c s)). lia.
    + destruct (rfind_from (i + 1) s sub =? -1) eqn:E.
      * destruct (String.prefix sub (String c s)); [right|now left].
        pose proof (len_nonneg (String c s)). lia.
      * right. unfold len in *. simpl String.length. lia.
Qed.

Lemma rfind_from_present (s sub : string) (i : Z) :
  0 <= i -> String.prefix sub s = true -> rfind_from i s sub <> -1.
Proof.
  intros Hi P. destruct s as [|c s]; cbn [rfind_from].
  - rewrite P. lia.
  - destruct (rfind_from (i + 1) s sub =? -1) eqn:E.
    + rewrite P. lia.
    + apply Z.eqb_neq, E.
Qed.

(** The last occurrence: [sub] starts the text [String c s] and occurs
    nowhere later. *)
Lemma rfind_from_last (a : string) (c : ascii) (s sub : string) (i : Z) :
  0 <= i ->
  String.prefix sub (String c s) = true ->
  ~ contains s sub ->
  rfind_from i (a ++ String c s) sub = i + len a.
Proof.
  revert i. induction a as [|x a IH]; intros i Hi P H.
  - cbn [append rfind_from]. rewrite rfind_from_absent by exact H.
    simpl Z.eqb. cbv iota. rewrite P. unfold len. simpl. lia.
  - change (String x a ++ String c s) with (String x (a ++ String c s)).
    cbn [rfind_from]. rewrite IH by (try lia; assumption).
    pose proof (len_nonneg a).
    destruct (i + 1 + len a =? -1) eqn:E; [apply Z.eqb_eq in E; lia|].
    unfold len. simpl String.length. lia.
Qed.

(** ** Slices *)

Lemma substring_0_app (a b : string) :
  String.substring 0 (String.length a) (a ++ b) = a.
Proof.
  induction a as [|c a IH]; simpl.
  - destruct b; reflexivity.
  - now rewrite IH.
Qed.

Lemma substring_skip (a b : string) (m : nat) :
  String.substring (String.length a) m (a ++ b) = String.substring 0 m b.
Proof. induction a as [|c a IH]; simpl; [reflexivity | exact IH]. Qed.

Lemma length_substring (s : string) (n m : nat) :
  (String.length (String.substring n m s) <= String.length s - n)%nat.
Proof.
  revert n m. induction s as [|c s IH]; intros n m.
  - destruct n, m; simpl; lia.
  - destruct n as [|n].
    + destruct m as [|m]; simpl; [lia|]. specialize (IH 0%nat m). lia.
    + simpl. apply IH.
Qed.

(** The middle of three parts is the slice between their boundaries. *)
Lemma slice_middle (a b c : string) :
  slice (a ++ b ++ c) (len a) (len a + len b) = b.
Proof.
  unfold slice, adjust.
  pose proof (len_nonneg a). pose proof (len_nonneg b). pose proof (len_nonneg c).
  rewrite !len_append.
  destruct (len a <? 0) eqn:E1; [apply Z.ltb_lt in E1; lia|].
  destruct (len a + len b <? 0) eqn:E2; [apply Z.ltb_lt in E2; lia|].
  rewrite !Z.min_l by lia.
  replace (len a + len b - len a) with (len b) by lia.
  unfold len. rewrite !Nat2Z.id.
  rewrite substring_skip. apply substring_0_app.
Qed.

Lemma len_slice (s : string) (lo hi : Z) :
  0 <= lo <= len s -> len (slice s lo hi) <= len s - lo.
Proof.
  intros H. unfold slice, adjust.
  destruct (lo <? 0) eqn:E; [apply Z.ltb_lt in E; lia|].
  rewrite Z.min_l by lia.
  pose proof (length_substring s (Z.to_nat lo)
    (Z.to_nat ((if hi <? 0 then Z.max 0 (hi + len s) else Z.min hi (len s)) - lo))).
  unfold len in *. lia.
Qed.

End PyStrFacts.

(* ================================================================== *)
(** * ResponseSanitizer: properties *)
(* ================================================================== *)

Module SanitizerProps.
Import PyStr Sanitizer PyStrFacts.
Local Open Scope string_scope.
Local Open Scope Z_scope.

Definition fenced_json : string :=
  "```json" ++ newline ++ "{}" ++ newline ++ "```".

Definition nested_fences : string :=
  "```" ++ newline ++ "```" ++ newline ++ "foo" ++ newline ++ "```"
        ++ newline ++ "```".

Example sanitize_fenced_json :
  _remove_markdown_code_blocks fenced_json = "{}".
Proof. reflexivity. Qed.

Example sanitize_plain :
  _remove_markdown_code_blocks ("  {}" ++ newline) = "{}".
Proof. reflexivity. Qed.

Example sanitize_no_newline :
  _remove_markdown_code_blocks "```json" = "```json".
Proof. reflexivity. Qed.

Example sanitize_embedded_fence :
  _remove_markdown_code_blocks
    ("```" ++ newline ++ "a ```x``` b" ++ newline ++ "```")
  = "a ```x``` b".
Proof. reflexivity. Qed.

(** A fence that is never closed: the opening fence is the last one. *)
Example sanitize_unclosed_fence :
  _remove_markdown_code_blocks ("```json" ++ newline ++ "{}") = "".
Proof. reflexivity. Qed.

Example sanitize_nested_fences :
  _remove_markdown_code_blocks nested_fences
  = "```" ++ newline ++ "foo" ++ newline ++ "```".
Proof. reflexivity. Qed.

(** The sanitizer's result is always trimmed. *)
Lemma sanitize_stripped (text : string) :
  strip (_remove_markdown_code_blocks text) = _remove_markdown_code_blocks text.
Proof.
  unfold _remove_markdown_code_blocks.
  destruct (startswith (strip text) fence); [|apply strip_idem].
  destruct (negb (find (strip text) newline =? -1)
            && negb (rfind (strip text) fence =? -1))%bool;
    apply strip_idem.
Qed.

Lemma no_newline_in_fence_line (tag : string) :
  ~ contains tag newline -> ~ contains (fence ++ tag) newline.
Proof.
  intros H C. unfold fence in C. cbn [append] in C.
  repeat (apply contains_cons in C; destruct C as [C|C]; [discriminate C|]).
  exact (H C).
Qed.

Lemma sanitize_unfenced (text : string) :
  startswith (strip text) fence = false ->
  _remove_markdown_code_blocks text = strip text.
Proof. unfold _remove_markdown_code_blocks. intros ->. reflexivity. Qed.

Lemma sanitize_fence_line (text : string) :
  startswith (strip text) fence = true ->
  ~ contains (strip text) newline ->
  _remove_markdown_code_blocks text = strip text.
Proof.
  unfold _remove_markdown_code_blocks. intros -> H.
  unfold find. rewrite find_from_absent by exact H. reflexivity.
Qed.

(** C7 (as amended).  On a trimmed text that is not fenced, or is fenced but
    has no newline, the sanitizer returns the trimmed text.  On a trimmed
    text made of an opening fence line (fence, tag without newline,
    newline), a body, a fence that is the last one of the text, and a tail,
    it returns the body, trimmed; fences inside the body do not matter. *)
Theorem sanitize_fenced_block (text : string) :
  (startswith (strip text) fence = false ->
   _remove_markdown_code_blocks text = strip text)
  /\ (startswith (strip text) fence = true ->
      ~ contains (strip text) newline ->
      _remove_markdown_code_blocks text = strip text)
  /\ (forall tag body tail,
        strip text = fence ++ tag ++ newline ++ body ++ fence ++ tail ->
        ~ contains tag newline ->
        ~ contains ("``" ++ tail) fence ->
        _remove_markdown_code_blocks text = strip body).
Proof.
  split; [apply sanitize_unfenced|]. split; [apply sanitize_fence_line|].
  unfold _remove_markdown_code_blocks.
  intros tag body tail E Htag Htail. rewrite E.
  unfold startswith. rewrite prefix_app.
  assert (F : find (fence ++ tag ++ newline ++ body ++ fence ++ tail) newline
              = len (fence ++ tag)).
  { unfold find. rewrite <- append_assoc.
    rewrite find_from_newline by (apply no_newline_in_fence_line, Htag).
    lia. }
  assert (R : rfind (fence ++ tag ++ newline ++ body ++ fence ++ tail) fence
              = len (fence ++ tag ++ newline ++ body)).
  { unfold rfind.
    replace (fence ++ tag ++ newline ++ body ++ fence ++ tail)
      with ((fence ++ tag ++ newline ++ body) ++ String "`" ("``" ++ tail))
      by (rewrite !append_assoc; reflexivity).
    rewrite rfind_from_last; [lia | lia | | exact Htail].
    change (String "`" ("``" ++ tail)) with (fence ++ tail).
    apply prefix_app. }
  rewrite F, R.
  pose proof (len_nonneg (fence ++ tag)).
  pose proof (len_nonneg (fence ++ tag ++ newline ++ body)).
  destruct (len (fence ++ tag) =? -1) eqn:E1; [apply Z.eqb_eq in E1; lia|].
  destruct (len (fence ++ tag ++ newline ++ body) =? -1) eqn:E2;
    [apply Z.eqb_eq in E2; lia|].
  cbn [negb andb]. f_equal.
  replace (fence ++ tag ++ newline ++ body ++ fence ++ tail)
    with ((fence ++ tag ++ newline) ++ body ++ (fence ++ tail))
    by (rewrite !append_assoc; reflexivity).
  replace (len (fence ++ tag) + 1) with (len (fence ++ tag ++ newline)).
  2:{ rewrite <- append_assoc, len_append. reflexivity. }
  replace (len (fence ++ tag ++ newline ++ body))
    with (len (fence ++ tag ++ newline) + len body).
  2:{ rewrite <- len_append, !append_assoc. reflexivity. }
  apply slice_middle.
Qed.

Lemma sanitize_fenced_block_witness :
  _remove_markdown_code_blocks "{}" = strip "{}"
  /\ _remove_markdown_code_blocks "```json" = strip "```json"
  /\ _remove_markdown_code_blocks fenced_json = strip ("{}" ++ newline).
Proof.
  split; [|split].
  - apply (proj1 (sanitize_fenced_block "{}")). reflexivity.
  - apply (proj1 (proj2 (sanitize_fenced_block "```json"))); [reflexivity|].
    apply find_absent. reflexivity.
  - apply (proj2 (proj2 (sanitize_fenced_block fenced_json)))
      with (tag := "json") (tail := "").
    + reflexivity.
    + apply find_absent. reflexivity.
    + apply find_absent. reflexivity.
Defined.

(** C7 (as stated) fails: between the opening fence line and the last fence
    of this text lies the payload with its newline, and the sanitizer
    returns the payload trimmed; and a fenced text of one line comes back
    whole. *)
Lemma sanitize_not_everything_between :
  sanitize_as_specified fenced_json <> _remove_markdown_code_blocks fenced_json
  /\ sanitize_as_specified "```json" <> _remove_markdown_code_blocks "```json".
Proof. split; vm_compute; discriminate. Qed.

(** C8 (as amended).  A second pass changes nothing exactly when the first
    pass did not itself return a fenced text with a newline. *)
Theorem sanitize_idempotent_iff (x : string) :
  _remove_markdown_code_blocks (_remove_markdown_code_blocks x)
  = _remove_markdown_code_blocks x
  <-> (startswith (_remove_markdown_code_blocks x) fence = false
       \/ ~ contains (_remove_markdown_code_blocks x) newline).
Proof.
  set (y := _remove_markdown_code_blocks x).
  assert (Sy : strip y = y) by apply sanitize_stripped.
  pose proof (sanitize_unfenced y) as Hplain.
  pose proof (sanitize_fence_line y) as Hline.
  rewrite Sy in Hplain, Hline.
  split.
  - intros Hfix. destruct (startswith y fence) eqn:Ef; [right | now left].
    intros C.
    assert (Hfind : find y newline <> -1)
      by (apply find_from_present; [lia | exact C]).
    assert (Hrfind : rfind y fence <> -1)
      by (apply rfind_from_present; [lia | exact Ef]).
    unfold _remove_markdown_code_blocks in Hfix. rewrite Sy, Ef in Hfix.
    apply Z.eqb_neq in Hfind as Ef1. apply Z.eqb_neq in Hrfind as Ef2.
    rewrite Ef1, Ef2 in Hfix. cbn [negb andb] in Hfix.
    destruct (find_from_range y newline 0) as [E|[R1 R2]];
      [exact (Hfind E)|].
    fold (find y newline) in R1, R2.
    change (len newline) with 1 in R2.
    pose proof (len_strip (slice y (find y newline + 1) (rfind y fence))).
    pose proof (len_slice y (find y newline + 1) (rfind y fence)
                  ltac:(lia)).
    rewrite Hfix in H. lia.
  - intros [Ef|Hn].
    + apply Hplain, Ef.
    + destruct (startswith y fence) eqn:Ef; [|apply Hplain, eq_refl].
      apply Hline; [reflexivity | exact Hn].
Qed.

Lemma sanitize_idempotent_iff_witness :
  _remove_markdown_code_blocks (_remove_markdown_code_blocks fenced_json)
  = _remove_markdown_code_blocks fenced_json.
Proof.
  apply (proj2 (sanitize_idempotent_iff fenced_json)).
  left. reflexivity.
Defined.

(** C8 (as stated) fails: the first pass over a doubly fenced text returns
    a fenced text, which the second pass unwraps again. *)
Lemma sanitize_not_idempotent :
  _remove_markdown_code_blocks (_remove_markdown_code_blocks nested_fences)
  <> _remove_markdown_code_blocks nested_fences.
Proof. vm_compute. discriminate. Qed.

End SanitizerProps.

(* ================================================================== *)
(** * Facts about dicts *)
(* ================================================================== *)

Module JsonFacts.
Import Json.
Local Open Scope string_scope.

Lemma dict_get_set_same (k : string) (v : JSON) (d : Dict) :
  dict_get k (dict_set k v d) = Some v.
Proof.
  induction d as [|[k' v'] d IH]; simpl.
  - now rewrite String.eqb_refl.
  - destruct (String.eqb_spec k' k) as [->|ne]; simpl.
    + now rewrite String.eqb_refl.
    + apply String.eqb_neq in ne. now rewrite ne.
Qed.

Lemma dict_get_set_other (k k0 : string) (v : JSON) (d : Dict) :
  k <> k0 -> dict_get k0 (dict_set k v d) = dict_get k0 d.
Proof.
  intros ne. induction d as [|[k' v'] d IH]; simpl.
  - apply String.eqb_neq in ne. now rewrite ne.
  - destruct (String.eqb_spec k' k) as [->|ne']; simpl.
    + apply String.eqb_neq in ne. now rewrite ne.
    + now rewrite IH.
Qed.

Lemma dict_set_set (k : string) (v1 v2 : JSON) (d : Dict) :
  dict_set k v2 (dict_set k v1 d) = dict_set k v2 d.
Proof.
  induction d as [|[k' v'] d IH]; simpl.
  - now rewrite String.eqb_refl.
  - destruct (String.eqb_spec k' k) as [->|ne]; simpl.
    + now rewrite String.eqb_refl.
    + apply String.eqb_neq in ne. now rewrite ne, IH.
Qed.

Lemma dict_get_absent (k : string) (d : Dict) :
  ~ In k (keys d) -> dict_get k d = None.
Proof.
  induction d as [|[k' v'] d IH]; simpl; [reflexivity|].
  intros H. destruct (String.eqb_spec k' k) as [->|ne].
  - exfalso. apply H. now left.
  - apply IH. intros I. apply H. now right.
Qed.

Lemma dict_get_In (k : string) (v : JSON) (d : Dict) :
  dict_get k d = Some v -> In (k, v) d.
Proof.
  induction d as [|[k' v'] d IH]; simpl; [discriminate|].
  destruct (String.eqb_spec k' k) as [->|ne].
  - intros [= ->]. now left.
  - intros H. right. apply IH, H.
Qed.

Lemma In_keys (k : string) (v : JSON) (d : Dict) : In (k, v) d -> In k (keys d).
Proof. intros H. apply (in_map fst) in H. exact H. Qed.

Lemma In_dict_get (k : string) (v : JSON) (d : Dict) :
  NoDup (keys d) -> In (k, v) d -> dict_get k d = Some v.
Proof.
  induction d as [|[k' v'] d IH]; simpl; [contradiction|].
  intros ND [E|I].
  - injection E as -> ->. now rewrite String.eqb_refl.
  - inversion ND as [|? ? Hk ND']; subst.
    destruct (String.eqb_spec k' k) as [->|ne].
    + exfalso. apply Hk. eapply In_keys, I.
    + apply IH; assumption.
Qed.

Lemma dict_get_keys (k : string) (d : Dict) :
  In k (keys d) <-> exists v, dict_get k d = Some v.
Proof.
  split.
  - induction d as [|[k' v'] d IH]; simpl; [contradiction|].
    intros H. destruct (String.eqb_spec k' k) as [->|ne].
    + now exists v'.
    + destruct H as [E|I]; [contradiction|]. apply IH, I.
  - intros [v H]. eapply In_keys, dict_get_In, H.
Qed.

(** A new key is appended. *)
Lemma dict_set_fresh (k : string) (v : JSON) (d : Dict) :
  ~ In k (keys d) -> dict_set k v d = (d ++ [(k, v)])%list.
Proof.
  induction d as [|[k' v'] d IH]; simpl; [reflexivity|].
  intros H. destruct (String.eqb_spec k' k) as [->|ne].
  - exfalso. apply H. now left.
  - rewrite IH; [reflexivity|]. intros I. apply H. now right.
Qed.

Lemma dict_get_filter (p : string -> bool) (k : string) (d : Dict) :
  dict_get k (filter (fun kv => p (fst kv)) d)
  = if p k then dict_get k d else None.
Proof.
  induction d as [|[k' v'] d IH]; simpl.
  - now destruct (p k).
  - destruct (p k') eqn:E; simpl.
    + destruct (String.eqb_spec k' k) as [->|ne]; [now rewrite E | exact IH].
    + destruct (String.eqb_spec k' k) as [->|ne]; [now rewrite E in * | exact IH].
Qed.

(** A dict comprehension over items with distinct keys keeps the selected
    items in their order. *)
Lemma comprehension_filter (p : string -> bool) (items acc : Dict) :
  NoDup (keys acc ++ keys items) ->
  fold_left (fun acc kv => if p (fst kv)
                           then dict_set (fst kv) (snd kv) acc else acc)
            items acc
  = (acc ++ filter (fun kv => p (fst kv)) items)%list.
Proof.
  revert acc. induction items as [|[k v] items IH]; intros acc ND; simpl.
  - now rewrite app_nil_r.
  - simpl in ND. pose proof (NoDup_remove_1 _ _ _ ND) as ND1.
    pose proof (NoDup_remove_2 _ _ _ ND) as Hk.
    destruct (p k) eqn:E.
    + rewrite dict_set_fresh by (intros I; apply Hk, in_or_app; now left).
      rewrite IH.
      * now rewrite <- app_assoc.
      * unfold keys in *. rewrite map_app, <- app_assoc. exact ND.
    + apply IH, ND1.
Qed.

Lemma keys_filter_NoDup (p : string -> bool) (d : Dict) :
  NoDup (keys d) -> NoDup (keys (filter (fun kv => p (fst kv)) d)).
Proof.
  induction d as [|[k v] d IH]; simpl; [constructor|].
  intros ND. inversion ND as [|? ? Hk ND']; subst.
  destruct (p k); simpl; [|apply IH, ND'].
  constructor; [|apply IH, ND'].
  intros I. apply Hk. unfold keys in *.
  apply in_map_iff in I as ([k0 v0] & <- & I).
  apply filter_In in I as [I _]. apply (in_map fst) in I. exact I.
Qed.

(** ** Python equality and structural equality *)

Lemma SFeqb_refl (f : spec_float) : f <> S754_nan -> SFeqb f f = true.
Proof.
  unfold SFeqb, SFcompare.
  destruct f as [s|s| |s m e]; intros H; try reflexivity.
  - now destruct s.
  - contradiction.
  - destruct s; rewrite Z.compare_refl, Pos.compare_cont_refl; reflexivity.
Qed.

Lemma py_eq_cons (x y : JSON) (l m : list JSON) :
  py_eq (JArray (x :: l)) (JArray (y :: m))
  = (same_nan x y || py_eq x y) && py_eq (JArray l) (JArray m).
Proof. reflexivity. Qed.

Lemma wf_doc_array (l : list JSON) :
  wf_doc (JArray l) <-> Forall wf_doc l.
Proof.
  induction l as [|x l IH].
  - split; [constructor | intros _; exact I].
  - change (wf_doc (JArray (x :: l))) with (wf_doc x /\ wf_doc (JArray l)).
    split.
    + intros [Hx Hl]. constructor; [exact Hx | apply IH, Hl].
    + intros H. inversion H; subst. split; [assumption | now apply IH].
Qed.

Lemma wf_doc_object (d : Dict) :
  wf_doc (JObject d) <->
  NoDup (keys d) /\ Forall (fun kv => wf_doc (snd kv)) d.
Proof.
  assert (A : forall d : Dict,
             (fix all (d : Dict) : Prop :=
                match d with
                | [] => True
                | kv :: d' => wf_doc (snd kv) /\ all d'
                end) d
             <-> Forall (fun kv => wf_doc (snd kv)) d).
  { clear d. induction d as [|kv d IH].
    - split; [constructor | intros _; exact I].
    - split.
      + intros [Hx Hl]. constructor; [exact Hx | apply IH, Hl].
      + intros H. inversion H; subst. split; [assumption | now apply IH]. }
  change (wf_doc (JObject d))
    with (NoDup (keys d) /\
          (fix all (d : Dict) : Prop :=
             match d with
             | [] => True
             | kv :: d' => wf_doc (snd kv) /\ all d'
             end) d).
  now rewrite A.
Qed.

(** On documents that JSON texts denote, structurally equal documents are
    equal for Python. *)
Lemma struct_eq_py_eq (a : JSON) :
  forall b, wf_doc a -> wf_doc b -> struct_eq a b -> py_eq a b = true.
Proof.
  induction a as [|x|z|f|s|l IH|d IH] using JSON_ind; intros b Wa Wb E;
    inversion E; subst; cbn [py_eq].
  - reflexivity.
  - apply Bool.eqb_reflx.
  - apply Z.eqb_refl.
  - apply SFeqb_refl, Wa.
  - apply String.eqb_refl.
  - apply wf_doc_array in Wa, Wb.
    match goal with F : Forall2 struct_eq l ?m |- _ =>
      revert Wb; induction F as [|x y l m Hxy F IHF]; intros Wb end.
    + reflexivity.
    + inversion IH; inversion Wa; inversion Wb; subst.
      change (py_eq (JArray (x :: l)) (JArray (y :: m)) = true).
      rewrite py_eq_cons. apply andb_true_intro. split.
      * apply orb_true_iff. right. auto.
      * apply IHF; auto. now constructor.
  - apply wf_doc_object in Wa as [NDa Va], Wb as [NDb Vb].
    match goal with
    | F : forall k v, dict_get k d = Some v -> _,
      G : forall k w, dict_get k ?e = Some w -> _ |- _ =>
        rename F into Hde; rename G into Hed; rename e into e'
    end.
    apply andb_true_intro. split.
    + apply Nat.eqb_eq.
      assert (I1 : incl (keys d) (keys e')).
      { intros k Hk. apply dict_get_keys in Hk as [v Hv].
        destruct (Hde k v Hv) as (w & Hw & _).
        apply dict_get_keys. now exists w. }
      assert (I2 : incl (keys e') (keys d)).
      { intros k Hk. apply dict_get_keys in Hk as [w Hw].
        destruct (Hed k w Hw) as (v & Hv & _).
        apply dict_get_keys. now exists v. }
      pose proof (NoDup_incl_length NDa I1).
      pose proof (NoDup_incl_length NDb I2).
      unfold keys in *. rewrite !length_map in *. lia.
    + apply forallb_forall. intros [k v] Hin. cbn [fst snd].
      pose proof (In_dict_get k v d NDa Hin) as Hv.
      destruct (Hde k v Hv) as (w & Hw & Evw). rewrite Hw.
      rewrite Forall_forall in IH, Va, Vb.
      apply orb_true_iff. right.
      apply (IH (k, v) Hin w).
      * apply (Va (k, v) Hin).
      * apply (Vb (k, w)). apply dict_get_In, Hw.
      * exact Evw.
Qed.

Lemma struct_eq_refl (a : JSON) : struct_eq a a.
Proof.
  induction a as [|x|z|f|s|l IH|d IH] using JSON_ind; try constructor.
  - induction IH; constructor; auto.
  - intros k v H. exists v. split; [exact H|].
    rewrite Forall_forall in IH. apply (IH (k, v)), dict_get_In, H.
  - intros k v H. exists v. split; [exact H|].
    rewrite Forall_forall in IH. apply (IH (k, v)), dict_get_In, H.
Qed.

Lemma py_eq_refl (a : JSON) : wf_doc a -> py_eq a a = true.
Proof. intros W. apply struct_eq_py_eq; auto using struct_eq_refl. Qed.

(** ** A value against itself *)

Lemma keys_distinct_array (l : list JSON) :
  keys_distinct (JArray l) <-> Forall keys_distinct l.
Proof.
  induction l as [|x l IH].
  - split; [constructor | intros _; exact I].
  - change (keys_distinct (JArray (x :: l)))
      with (keys_distinct x /\ keys_distinct (JArray l)).
    split.
    + intros [Hx Hl]. constructor; [exact Hx | apply IH, Hl].
    + intros H. inversion H; subst. split; [assumption | now apply IH].
Qed.

Lemma keys_distinct_object (d : Dict) :
  keys_distinct (JObject d) <->
  NoDup (keys d) /\ Forall (fun kv => keys_distinct (snd kv)) d.
Proof.
  assert (A : forall d : Dict,
             (fix all (d : Dict) : Prop :=
                match d with
                | [] => True
                | kv :: d' => keys_distinct (snd kv) /\ all d'
                end) d
             <-> Forall (fun kv => keys_distinct (snd kv)) d).
  { clear d. induction d as [|kv d IH].
    - split; [constructor | intros _; exact I].
    - split.
      + intros [Hx Hl]. constructor; [exact Hx | apply IH, Hl].
      + intros H. inversion H; subst. split; [assumption | now apply IH]. }
  change (keys_distinct (JObject d))
    with (NoDup (keys d) /\
          (fix all (d : Dict) : Prop :=
             match d with
             | [] => True
             | kv :: d' => keys_distinct (snd kv) /\ all d'
             end) d).
  now rewrite A.
Qed.

(** A value is equal to itself unless it is the NaN; as the element of a
    list or a dict it always is. *)
Lemma py_eq_self (a : JSON) :
  keys_distinct a ->
  (is_nan a = false -> py_eq a a = true)
  /\ same_nan a a || py_eq a a = true.
Proof.
  induction a as [|x|z|f|s|l IH|d IH] using JSON_ind; intros K;
    unfold same_nan.
  - split; reflexivity.
  - split; [intros _|]; cbn; apply Bool.eqb_reflx.
  - split; [intros _|]; cbn; apply Z.eqb_refl.
  - destruct f as [sg|sg| |sg m e]; split; try discriminate; try reflexivity;
      try intros _; cbn [is_nan andb orb py_eq]; apply SFeqb_refl;
      discriminate.
  - split; [intros _|]; cbn; apply String.eqb_refl.
  - assert (E : py_eq (JArray l) (JArray l) = true).
    { apply keys_distinct_array in K.
      induction IH as [|x l Hx _ IHl]; [reflexivity|].
      inversion K; subst. rewrite py_eq_cons. apply andb_true_intro.
      split; [apply Hx; assumption | apply IHl; assumption]. }
    split; [intros _; exact E | cbn [is_nan andb orb]; exact E].
  - assert (E : py_eq (JObject d) (JObject d) = true).
    { apply keys_distinct_object in K as [ND K]. cbn [py_eq].
      apply andb_true_intro. split; [apply Nat.eqb_refl|].
      apply forallb_forall. intros [k v] Hin. cbn [fst snd].
      rewrite (In_dict_get k v d ND Hin).
      rewrite Forall_forall in IH, K.
      apply (IH (k, v) Hin), (K (k, v) Hin). }
    split; [intros _; exact E | cbn [is_nan andb orb]; exact E].
Qed.

Example py_eq_nan :
  py_eq (JFloat S754_nan) (JFloat S754_nan) = false
  /\ py_eq (JArray [JFloat S754_nan]) (JArray [JFloat S754_nan]) = true
  /\ py_eq (JObject [("x", JFloat S754_nan)]) (JObject [("x", JFloat S754_nan)])
     = true
  /\ py_eq (JArray [JFloat S754_nan]) (JArray [JInt 0]) = false.
Proof. repeat split. Qed.

End JsonFacts.

(* ================================================================== *)
(** * Subset extraction: properties *)
(* ================================================================== *)

Module ExtractionProps.
Import Json JsonFacts Workflow.
Local Open Scope string_scope.

Definition sample_document : JSON :=
  JObject [ ("topicWizardData",
             JObject [ ("simulationName", JString "Pricing war");
                       ("scenarioOptions", JArray [JString "a"; JString "b"]);
                       ("selectedScenarioOption", JString "a");
                       ("workplaceScenario", JObject [("background", JString "x")]) ]);
            ("version", JInt 2) ].

Example extract_sample :
  _extract_simulation_subset sample_document SIMULATION_KEYS_TO_EXTRACT
  = inr [ ("simulationName", JString "Pricing war");
          ("workplaceScenario", JObject [("background", JString "x")]) ].
Proof. reflexivity. Qed.

Example extract_without_topic_wizard_data :
  _extract_simulation_subset (JObject [("version", JInt 2)])
                             SIMULATION_KEYS_TO_EXTRACT
  = inr [].
Proof. reflexivity. Qed.

(** C10 (as amended).  On a document that is a map, extraction returns the
    empty map when [topicWizardData] is absent, and, when [topicWizardData]
    is itself a map, the map of exactly those of its keys that are to be
    extracted, each with its value; missing keys are not an error. *)
Theorem extract_subset_of_map (d : Dict) (keys_to_extract : list string) :
  (dict_get "topicWizardData" d = None ->
   _extract_simulation_subset (JObject d) keys_to_extract = inr [])
  /\ (forall twd,
        dict_get "topicWizardData" d = Some (JObject twd) ->
        NoDup (keys twd) ->
        exists subset,
          _extract_simulation_subset (JObject d) keys_to_extract = inr subset
          /\ NoDup (keys subset)
          /\ forall k, dict_get k subset
                       = if str_in k keys_to_extract then dict_get k twd
                         else None).
Proof.
  unfold _extract_simulation_subset. split.
  - intros ->. reflexivity.
  - intros twd -> ND. cbn [dict_items rbind].
    rewrite (comprehension_filter (fun k => str_in k keys_to_extract))
      by exact ND.
    cbn [app]. eexists. split; [reflexivity|]. split.
    + apply (keys_filter_NoDup (fun k => str_in k keys_to_extract)), ND.
    + intros k. apply (dict_get_filter (fun k => str_in k keys_to_extract)).
Qed.

Lemma extract_subset_of_map_witness :
  exists subset,
    _extract_simulation_subset sample_document SIMULATION_KEYS_TO_EXTRACT
    = inr subset
    /\ NoDup (keys subset)
    /\ forall k, dict_get k subset
                 = if str_in k SIMULATION_KEYS_TO_EXTRACT
                   then dict_get k
                          [ ("simulationName", JString "Pricing war");
                            ("scenarioOptions", JArray [JString "a"; JString "b"]);
                            ("selectedScenarioOption", JString "a");
                            ("workplaceScenario",
                             JObject [("background", JString "x")]) ]
                   else None.
Proof.
  eapply (proj2 (extract_subset_of_map _ SIMULATION_KEYS_TO_EXTRACT)).
  - reflexivity.
  - repeat constructor; simpl; intuition discriminate.
Defined.

(** C10 (as stated) fails: a document whose [topicWizardData] is [null] is
    rejected with an exception. *)
Lemma extract_subset_rejects_non_map :
  _extract_simulation_subset (JObject [("topicWizardData", JNull)])
                             SIMULATION_KEYS_TO_EXTRACT
  = inl (AttributeError "items").
Proof. reflexivity. Qed.

End ExtractionProps.

(* ================================================================== *)
(** * Validator: properties *)
(* ================================================================== *)

Module ValidatorProps.
Import PyStr Sanitizer Json SchemaModel Workflow.
Local Open Scope string_scope.
Local Open Scope Z_scope.

(** The verdicts of section 3 of the specification. *)
Inductive Verdict :=
| PASS
| SCHEMA_VIOLATION (message : string)
| PARSE_ERROR (message : string).

(** The dict by which [validate_json] reports a verdict. *)
Definition verdict_update (state : State) (v : Verdict) : Update :=
  match v with
  | PASS =>
      [ Set_evaluator_message "PASS";
        Set_history_evaluator (history_evaluator state ++ ["PASS"]) ]
  | SCHEMA_VIOLATION message =>
      [ Set_num_retries (num_retries state + 1);
        Set_evaluator_message ("JSON Schema Validation FAILED: " ++ message);
        Set_history_evaluator (history_evaluator state ++ [message]) ]
  | PARSE_ERROR message =>
      [ Set_num_retries (num_retries state + 1);
        Set_evaluator_message ("JSON Parse Error: " ++ message);
        Set_history_evaluator (history_evaluator state ++ [message]) ]
  end%list.

Section Classification.

Variable json_repair_loads : string -> result JSON.
Variable jsonschema_validate : JSON -> Schema -> result unit.

(** The parser fails only by [json.JSONDecodeError], the schema check only
    by [ValidationError]. *)
Definition parser_contract : Prop :=
  forall text e, json_repair_loads text = inl e ->
                 exists msg, e = JSONDecodeError msg.

Definition validator_contract : Prop :=
  forall v schema e, jsonschema_validate v schema = inl e ->
                     exists message, e = ValidationError message.

(** An exception that neither handler of [validate_json] catches. *)
Definition uncaught (e : exn) : Prop :=
  match e with
  | JSONDecodeError _ | ValidationError _ => False
  | _ => True
  end.

(** C6 (as amended).  With the generator's text and a schema in the state,
    the validator reports [PARSE_ERROR] with the parser's message when the
    parser raises a decode error on the sanitized text, [SCHEMA_VIOLATION]
    with the checker's message when the parsed value fails the schema, and
    [PASS] when it passes.  Whatever value the parser returns is classified
    by the schema check: a text that the parser repairs is no
    [PARSE_ERROR].  An exception of any other class, from the parser or
    from the check, is not caught, and the validator raises only so: it
    returns a verdict in every case when the parser fails only by decode
    errors and the check only by validation errors. *)
Theorem validate_json_classifies (state : State) (text : string) (schema : Schema) :
  generated_schema state = GenText text ->
  validation_schema state = Some schema ->
  let validate_json := validate_json json_repair_loads jsonschema_validate in
  let cleaned := _remove_markdown_code_blocks text in
  (forall msg,
      json_repair_loads cleaned = inl (JSONDecodeError msg) ->
      validate_json state = inr (verdict_update state (PARSE_ERROR msg)))
  /\ (forall v message,
        json_repair_loads cleaned = inr v ->
        jsonschema_validate v schema = inl (ValidationError message) ->
        validate_json state = inr (verdict_update state (SCHEMA_VIOLATION message)))
  /\ (forall v,
        json_repair_loads cleaned = inr v ->
        jsonschema_validate v schema = inr tt ->
        validate_json state = inr (verdict_update state PASS))
  /\ (forall v msg,
        json_repair_loads cleaned = inr v ->
        validator_contract ->
        validate_json state <> inr (verdict_update state (PARSE_ERROR msg)))
  /\ (forall e,
        uncaught e ->
        json_repair_loads cleaned = inl e ->
        validate_json state = inl e)
  /\ (forall v e,
        uncaught e ->
        json_repair_loads cleaned = inr v ->
        jsonschema_validate v schema = inl e ->
        validate_json state = inl e)
  /\ (forall e,
        validate_json state = inl e ->
        uncaught e
        /\ (json_repair_loads cleaned = inl e
            \/ exists v, json_repair_loads cleaned = inr v
                         /\ jsonschema_validate v schema = inl e))
  /\ (parser_contract -> validator_contract ->
      exists verdict, validate_json state = inr (verdict_update state verdict)).
Proof.
  intros Hgen Hschema validate_json' cleaned. subst validate_json'.
  unfold validate_json, validate_json_try.
  rewrite Hgen, Hschema. cbn [generated_text rbind]. fold cleaned.
  split; [|split; [|split; [|split; [|split; [|split; [|split]]]]]].
  - intros msg ->. reflexivity.
  - intros v message -> E. cbn [rbind]. rewrite E. reflexivity.
  - intros v -> E. cbn [rbind]. rewrite E. reflexivity.
  - intros v msg -> Hv. cbn [rbind].
    destruct (jsonschema_validate v schema) as [e|[]] eqn:E.
    + destruct (Hv _ _ _ E) as [message ->].
      cbn [verdict_update]. intros [=].
    + cbn [verdict_update]. discriminate.
  - intros e U ->. destruct e; try contradiction U; reflexivity.
  - intros v e U -> E. cbn [rbind]. rewrite E.
    destruct e; try contradiction U; reflexivity.
  - intros e. destruct (json_repair_loads cleaned) as [e'|v] eqn:E.
    + destruct e'; intros [= <-]; (split; [exact I|now left]).
    + cbn [rbind]. destruct (jsonschema_validate v schema) as [e'|[]] eqn:E';
        [|discriminate].
      destruct e'; intros [= <-]; (split; [exact I|right; now exists v]).
  - intros Hp Hv. destruct (json_repair_loads cleaned) as [e|v] eqn:E.
    + destruct (Hp _ _ E) as [msg ->]. exists (PARSE_ERROR msg). reflexivity.
    + cbn [rbind]. destruct (jsonschema_validate v schema) as [e|[]] eqn:E'.
      * destruct (Hv _ _ _ E') as [message ->].
        exists (SCHEMA_VIOLATION message). reflexivity.
      * exists PASS. reflexivity.
Qed.

End Classification.

End ValidatorProps.

(* ================================================================== *)
(** * RetryController: properties *)
(* ================================================================== *)

Module RetryProps.
Import PyStr Sanitizer Json SchemaModel Workflow ValidatorProps.
Local Open Scope string_scope.
Local Open Scope Z_scope.

Lemma num_retries_assign (s : State) (a : Assign) :
  num_retries (assign s a)
  = match a with Set_num_retries v => v | _ => num_retries s end.
Proof. destruct s, a; reflexivity. Qed.

Lemma evaluator_message_assign (s : State) (a : Assign) :
  evaluator_message (assign s a)
  = match a with Set_evaluator_message v => v | _ => evaluator_message s end.
Proof. destruct s, a; reflexivity. Qed.

(** The assignments that leave the verdict and the retry counter alone. *)
Definition keeps_verdict (a : Assign) : bool :=
  match a with
  | Set_num_retries _ | Set_evaluator_message _ => false
  | _ => true
  end.

Lemma merge_keeps_verdict (u : Update) (s : State) :
  forallb keeps_verdict u = true ->
  num_retries (merge s u) = num_retries s
  /\ evaluator_message (merge s u) = evaluator_message s.
Proof.
  revert s. induction u as [|a u IH]; intros s H; [now split|].
  simpl in H. apply andb_prop in H as [Ha Hu].
  unfold merge. simpl. fold (merge (assign s a) u).
  destruct (IH (assign s a) Hu) as [-> ->].
  rewrite num_retries_assign, evaluator_message_assign.
  destruct a; try discriminate Ha; now split.
Qed.

Lemma bind_inr {A B} (m : M A) (k : A -> M B) (w w' : World) (b : B) :
  bind m k w = (inr b, w') ->
  exists a w1, m w = (inr a, w1) /\ k a w1 = (inr b, w').
Proof.
  unfold bind. destruct (m w) as [[e|a] w1]; [discriminate|].
  intros H. now exists a, w1.
Qed.

Ltac bind_inv H :=
  let a := fresh "a" in
  let w := fresh "w" in
  let E := fresh "E" in
  apply bind_inr in H; destruct H as (a & w & E & H).

Section Machine.

Variable model_invoke : list Message -> result string.
Variable json_repair_loads : string -> result JSON.
Variable jsonschema_validate : JSON -> Schema -> result unit.
Variable DeepDiff : JSON -> JSON -> result JSON.
Variable json_load_file : string -> result JSON.
Variable clock : nat -> spec_float.
Variable _build_recontextualization_prompt : string -> string -> Dict -> string.
Variable _build_correction_prompt : string -> string.

Let recontextualize_agent :=
  recontextualize_agent model_invoke clock _build_recontextualization_prompt.
Let validate_json := validate_json json_repair_loads jsonschema_validate.
Let json_format_correction_agent :=
  json_format_correction_agent model_invoke _build_correction_prompt.
Let aggregator_node :=
  aggregator_node json_repair_loads jsonschema_validate DeepDiff
                  json_load_file clock.
Let step :=
  step model_invoke json_repair_loads jsonschema_validate DeepDiff
       json_load_file clock _build_recontextualization_prompt
       _build_correction_prompt.
Let reachable :=
  reachable model_invoke json_repair_loads jsonschema_validate DeepDiff
            json_load_file clock _build_recontextualization_prompt
            _build_correction_prompt.

Lemma recontextualize_agent_keeps_verdict (w w' : World) (u : Update) :
  recontextualize_agent w = (inr u, w') -> forallb keeps_verdict u = true.
Proof.
  unfold recontextualize_agent, Workflow.recontextualize_agent. intros H.
  repeat bind_inv H. injection H as <- _. reflexivity.
Qed.

Lemma correction_agent_keeps_verdict (s : State) (u : Update) :
  json_format_correction_agent s = inr u -> forallb keeps_verdict u = true.
Proof.
  unfold json_format_correction_agent, Workflow.json_format_correction_agent.
  destruct (model_invoke _) as [e|r]; simpl; [discriminate|].
  intros [= <-]. reflexivity.
Qed.

Lemma aggregator_node_keeps_verdict (w w' : World) (u : Update) :
  aggregator_node w = (inr u, w') -> forallb keeps_verdict u = true.
Proof.
  unfold aggregator_node, Workflow.aggregator_node. intros H.
  repeat bind_inv H.
  match goal with
  | locals : (JSON * option spec_float * option spec_float)%type |- _ =>
      destruct locals as [[diff end_time] duration]
  end.
  repeat bind_inv H.
  injection H as <- _. reflexivity.
Qed.

Lemma validate_json_verdict (s : State) (u : Update) :
  validate_json s = inr u -> exists v, u = verdict_update s v.
Proof.
  unfold validate_json, Workflow.validate_json.
  destruct (validate_json_try _ _ s) as [e|[]].
  - destruct e; intros [= <-].
    + now exists (PARSE_ERROR msg).
    + now exists (SCHEMA_VIOLATION message).
  - intros [= <-]. now exists PASS.
Qed.

Lemma merge_verdict (s : State) (v : Verdict) :
  match v with
  | PASS =>
      num_retries (merge s (verdict_update s v)) = num_retries s
      /\ evaluator_message (merge s (verdict_update s v)) = "PASS"
  | _ =>
      num_retries (merge s (verdict_update s v)) = num_retries s + 1
      /\ (evaluator_message (merge s (verdict_update s v)) =? "PASS")%string
         = false
  end.
Proof. destruct s, v; split; reflexivity. Qed.

(** The route chosen after the update of a verdict has been merged. *)
Lemma route_after_verdict (s : State) (v : Verdict) :
  route_after_validation (merge s (verdict_update s v))
  = match v with
    | PASS => "Pass"
    | _ => if num_retries s + 1 >=? MAX_RETRIES
           then "Retry Limit Exceeded" else "Fail"
    end.
Proof. destruct s, v; reflexivity. Qed.

(** C2 (as amended).  After a validation, a PASS verdict leaves the counter
    and routes to the aggregator; any other verdict has already added one to
    the counter when the route is chosen, and the route is the terminal one
    when the counter so updated has reached [MAX_RETRIES], the correcting
    one otherwise. *)
Theorem routing_follows_updated_counter (state : State) (u : Update) :
  validate_json state = inr u ->
  let s' := merge state u in
  (evaluator_message s' = "PASS"
   /\ num_retries s' = num_retries state
   /\ next_node N_validate_json s' = inr N_aggregator_node)
  \/ (evaluator_message s' <> "PASS"
      /\ num_retries s' = num_retries state + 1
      /\ ((MAX_RETRIES <= num_retries state + 1
           /\ route_after_validation s' = "Retry Limit Exceeded"
           /\ next_node N_validate_json s' = inr N_END)
          \/ (num_retries state + 1 < MAX_RETRIES
              /\ route_after_validation s' = "Fail"
              /\ next_node N_validate_json s' = inr N_json_format_correction))).
Proof.
  intros H s'. destruct (validate_json_verdict _ _ H) as [v ->]. subst s'.
  pose proof (merge_verdict state v) as M.
  pose proof (route_after_verdict state v) as R.
  unfold next_node. rewrite R.
  destruct v.
  - left. destruct M as [-> ->]. repeat split.
  - right. destruct M as [-> E].
    split; [now apply String.eqb_neq|]. split; [reflexivity|].
    destruct (num_retries state + 1 >=? MAX_RETRIES) eqn:G.
    + left. apply Z.geb_le in G. repeat split. exact G.
    + right. rewrite Z.geb_leb in G. apply Z.leb_gt in G. repeat split. exact G.
  - right. destruct M as [-> E].
    split; [now apply String.eqb_neq|]. split; [reflexivity|].
    destruct (num_retries state + 1 >=? MAX_RETRIES) eqn:G.
    + left. apply Z.geb_le in G. repeat split. exact G.
    + right. rewrite Z.geb_leb in G. apply Z.leb_gt in G. repeat split. exact G.
Qed.

(** ** The invariant of a run *)

Definition awaits_validation (n : Node) : bool :=
  match n with
  | N_recontextualize_agent | N_validate_json | N_json_format_correction => true
  | N_aggregator_node | N_END => false
  end.

(** The counter is within its bound, and strictly below it wherever a
    validation is still to come. *)
Definition Inv (c : Config) : Prop :=
  0 <= num_retries (state_of c) <= MAX_RETRIES
  /\ (awaits_validation (at_node c) = true ->
      num_retries (state_of c) < MAX_RETRIES).

(** What one superstep does to the counter. *)
Definition counter_step (c c' : Config) : Prop :=
  (num_retries (state_of c') = num_retries (state_of c)
   \/ (at_node c = N_validate_json
       /\ evaluator_message (state_of c') <> "PASS"
       /\ num_retries (state_of c') = num_retries (state_of c) + 1))
  /\ (at_node c = N_validate_json ->
      evaluator_message (state_of c') = "PASS" ->
      num_retries (state_of c') = num_retries (state_of c))
  /\ (at_node c = N_validate_json ->
      route_after_validation (state_of c') = "Retry Limit Exceeded" ->
      num_retries (state_of c') = MAX_RETRIES).

Lemma step_frame (n n' : Node) (s : State) (u : Update) (t t' : nat) :
  forallb keeps_verdict u = true ->
  n <> N_validate_json ->
  (awaits_validation n' = true -> awaits_validation n = true) ->
  Inv (mkConfig n s t) ->
  Inv (mkConfig n' (merge s u) t')
  /\ counter_step (mkConfig n s t) (mkConfig n' (merge s u) t').
Proof.
  intros K Hn Hw [B W]. destruct (merge_keeps_verdict u s K) as [En Em].
  unfold Inv, counter_step. cbn [state_of at_node] in *. rewrite En.
  repeat split; try tauto; try lia; auto.
Qed.

Lemma step_spec (c c' : Config) :
  Inv c -> step c = inr c' -> Inv c' /\ counter_step c c'.
Proof.
  destruct c as [n s t]. intros I.
  unfold step, Workflow.step. cbn [at_node state_of readings].
  destruct n; cbn [run_node].
  - fold recontextualize_agent.
    destruct (recontextualize_agent (mkWorld [] s t)) as [[e|u] w] eqn:E;
      cbn [rbind next_node]; [discriminate|].
    intros [= <-]. apply recontextualize_agent_keeps_verdict in E.
    apply step_frame; auto; discriminate.
  - unfold bind, get_state, liftR. cbn [wstate]. fold validate_json.
    destruct (validate_json s) as [e|u] eqn:E; cbn [rbind]; [discriminate|].
    destruct (validate_json_verdict s u E) as [v ->].
    pose proof (merge_verdict s v) as M.
    pose proof (route_after_verdict s v) as R.
    set (s' := merge s (verdict_update s v)) in *. clearbody s'.
    destruct I as [B W]. specialize (W eq_refl). cbn [state_of] in B, W.
    unfold next_node. rewrite R.
    assert (F : forall m : State,
               match v with
               | PASS => True
               | _ => (evaluator_message m =? "PASS")%string = false ->
                      evaluator_message m <> "PASS"
               end)
      by (intros m; destruct v; auto; intros X; now apply String.eqb_neq).
    specialize (F s').
    destruct v as [|message|message]; destruct M as [En Em]; [|
      destruct (num_retries s + 1 >=? MAX_RETRIES) eqn:G;
      [apply Z.geb_le in G | rewrite Z.geb_leb in G; apply Z.leb_gt in G]..];
      intros [= <-]; unfold Inv, counter_step;
      cbn [state_of at_node awaits_validation]; rewrite R, En;
      repeat split; try lia; try discriminate; auto;
      intros _ P; exfalso; apply F; assumption.
  - unfold bind, get_state, liftR. cbn [wstate].
    fold json_format_correction_agent.
    destruct (json_format_correction_agent s) as [e|u] eqn:E;
      cbn [rbind next_node]; [discriminate|].
    intros [= <-]. apply correction_agent_keeps_verdict in E.
    apply step_frame; auto; discriminate.
  - fold aggregator_node.
    destruct (aggregator_node (mkWorld [] s t)) as [[e|u] w] eqn:E;
      cbn [rbind next_node]; [discriminate|].
    intros [= <-]. apply aggregator_node_keeps_verdict in E.
    apply step_frame; auto; discriminate.
  - intros [= <-]. split; [exact I|].
    unfold counter_step. cbn [at_node]. repeat split; auto; discriminate.
Qed.

Lemma reachable_Inv (c : Config) : reachable c -> Inv c.
Proof.
  induction 1 as [a b j|c c' _ IH E].
  - unfold Inv. cbn. unfold MAX_RETRIES. split; [lia|]. intros _. lia.
  - apply (step_spec c c' IH E).
Qed.

(** C1.  The counter starts at 0; in every configuration of every run it is
    at most [MAX_RETRIES]; a superstep changes it only by adding one, which
    only a validation with a verdict other than PASS does; and it is exactly
    [MAX_RETRIES] when the route 'Retry Limit Exceeded' is taken. *)
Theorem retry_counter_bounded :
  (forall current_scenario new_scenario scenario_json,
      num_retries (state_of (initial_config current_scenario new_scenario
                                            scenario_json)) = 0)
  /\ (forall c,
        reachable c ->
        0 <= num_retries (state_of c) <= MAX_RETRIES
        /\ forall c', step c = inr c' -> counter_step c c').
Proof.
  split; [reflexivity|].
  intros c R. pose proof (reachable_Inv c R) as I. split; [apply I|].
  intros c' E. apply (step_spec c c' I E).
Qed.

Lemma run_reachable (n : nat) (c c' : Config) :
  reachable c ->
  run model_invoke json_repair_loads jsonschema_validate DeepDiff
      json_load_file clock _build_recontextualization_prompt
      _build_correction_prompt n c = inr c' ->
  reachable c'.
Proof.
  revert c. induction n as [|n IH]; intros c R; cbn [run].
  - intros [= <-]. exact R.
  - fold step. destruct (step c) as [e|c1] eqn:E; cbn [rbind]; [discriminate|].
    apply IH. exact (reach_step _ _ _ _ _ _ _ _ c c1 R E).
Qed.

End Machine.

End RetryProps.

(* ================================================================== *)
(** * End-to-end scenarios *)
(* ================================================================== *)

Module Scenarios.
Import Json SchemaModel Workflow ValidatorProps RetryProps.
Local Open Scope string_scope.
Local Open Scope Z_scope.

Definition valid_answer : string := "{'simulationName': 'Gym'}".

(** The parser of the scenarios also knows one well-formed fragment. *)
Definition parse (text : string) : result JSON :=
  if (text =? valid_answer)%string
  then inr (JObject [("simulationName", JString "Gym")])
  else Stubs.parse text.

Definition start : Config := initial_config "old" "new" Stubs.document.

(** A run of [n] supersteps against a scripted generator. *)
Definition scenario (answers : list string) (n : nat) : result Config :=
  run (Stubs.scripted answers) parse Stubs.validate Stubs.diff_ok Stubs.file
      Stubs.clock Stubs.recontextualization_prompt Stubs.correction_prompt
      n start.

Definition observe {A} (f : Config -> A) (r : result Config) : option A :=
  match r with
  | inr c => Some (f c)
  | inl _ => None
  end.

(** Scenario 1: a conformant answer at the first attempt. *)
Example scenario_first_attempt_passes :
  let r := scenario [valid_answer] 3 in
  observe at_node r = Some N_END
  /\ observe (fun c => num_retries (state_of c)) r = Some 0
  /\ observe (fun c => schema_fidelity (state_of c)) r = Some (Some "PASS")
  /\ observe (fun c => locked_field_equality (state_of c)) r
     = Some (Some "PASS").
Proof. vm_compute. repeat split. Qed.

(** Scenario 2: three unparsable answers. *)
Example scenario_retry_limit :
  let r := scenario ["oops"; "oops"; "oops"] 6 in
  observe at_node r = Some N_END
  /\ observe (fun c => num_retries (state_of c)) r = Some 3
  /\ observe (fun c => output_json (state_of c)) r = Some None.
Proof. vm_compute. repeat split. Qed.

(** Scenario 3: a schema violation, then a conformant answer. *)
Example scenario_one_correction :
  let r := scenario ["[]"; valid_answer] 5 in
  observe at_node r = Some N_END
  /\ observe (fun c => num_retries (state_of c)) r = Some 1
  /\ observe (fun c => List.length (message_history (state_of c))) r
     = Some 4%nat
  /\ observe (fun c => locked_field_equality (state_of c)) r
     = Some (Some "PASS").
Proof. vm_compute. repeat split. Qed.

Lemma retry_counter_bounded_witness :
  exists c,
    scenario ["oops"; "oops"; "oops"] 6 = inr c
    /\ 0 <= num_retries (state_of c) <= MAX_RETRIES.
Proof.
  eexists. split; [vm_compute; reflexivity|].
  apply (retry_counter_bounded (Stubs.scripted ["oops"; "oops"; "oops"]) parse
           Stubs.validate Stubs.diff_ok Stubs.file Stubs.clock
           Stubs.recontextualization_prompt Stubs.correction_prompt).
  apply run_reachable with (n := 6%nat) (c := start).
  - apply reach_start.
  - vm_compute. reflexivity.
Defined.

(** A state awaiting validation, holding a text the parser rejects. *)
Definition awaiting (retries : Z) (text : string) : State :=
  merge (create_initial_state "old" "new" Stubs.document)
        [ Set_validation_schema
            (to_schema (add_object SchemaBuilder
                          (JObject [("simulationName", JString "Pricing war")])));
          Set_generated_schema text;
          Set_num_retries retries ].

Lemma routing_follows_updated_counter_witness :
  exists u,
    validate_json parse Stubs.validate (awaiting 0 "oops") = inr u
    /\ num_retries (merge (awaiting 0 "oops") u) = 1
    /\ next_node N_validate_json (merge (awaiting 0 "oops") u)
       = inr N_json_format_correction.
Proof.
  eexists. split; [vm_compute; reflexivity|].
  destruct (routing_follows_updated_counter parse Stubs.validate
              (awaiting 0 "oops") _ eq_refl)
    as [(E & _)|(_ & En & [(G & _)|(_ & _ & Ex)])].
  - vm_compute in E. discriminate E.
  - vm_compute in G. exfalso. apply G. reflexivity.
  - split; [exact En | exact Ex].
Defined.

(** C2 (as stated) fails: the validation that finds the counter at 2, below
    [MAX_RETRIES], and returns a verdict other than PASS does not route to
    the correcting node; the run ends. *)
Lemma third_failure_ends_the_run :
  let before := scenario ["oops"; "oops"; "oops"] 5 in
  let after := scenario ["oops"; "oops"; "oops"] 6 in
  observe at_node before = Some N_validate_json
  /\ observe (fun c => num_retries (state_of c) <? MAX_RETRIES) before
     = Some true
  /\ observe (fun c => (evaluator_message (state_of c) =? "PASS")%string) after
     = Some false
  /\ observe at_node after = Some N_END
  /\ observe at_node after <> Some N_json_format_correction.
Proof. vm_compute. repeat split. discriminate. Qed.

Lemma parse_contract : parser_contract parse.
Proof.
  intros text e. unfold parse, Stubs.parse.
  destruct (text =? valid_answer)%string; [discriminate|].
  destruct (text =? "{}")%string; [discriminate|].
  destruct (text =? "[]")%string; [discriminate|].
  intros [= <-]. eexists. reflexivity.
Qed.

Lemma validate_contract : validator_contract Stubs.validate.
Proof.
  intros v schema e. unfold Stubs.validate, SchemaModel.validate.
  destruct (satisfies schema v); [discriminate|].
  intros [= <-]. eexists. reflexivity.
Qed.

(** A parser that repairs: it returns a value for every text, the empty
    string for one in which it finds nothing to read. *)
Definition repairing (text : string) : result JSON :=
  if (text =? valid_answer)%string
  then inr (JObject [("simulationName", JString "Gym")])
  else if (text =? "{}")%string then inr (JObject [])
  else if (text =? "[]")%string then inr (JArray [])
  else inr (JString "").

Lemma repairing_contract : parser_contract repairing.
Proof.
  intros text e. unfold repairing.
  repeat match goal with
         | |- context [if ?b then _ else _] => destruct b
         end; discriminate.
Qed.

Lemma validate_json_classifies_witness :
  validate_json repairing Stubs.validate (awaiting 0 "oops")
  = inr (verdict_update (awaiting 0 "oops")
           (SCHEMA_VIOLATION "instance does not match the schema"))
  /\ validate_json repairing Stubs.validate (awaiting 0 valid_answer)
     = inr (verdict_update (awaiting 0 valid_answer) PASS)
  /\ (forall msg,
        validate_json repairing Stubs.validate (awaiting 0 "oops")
        <> inr (verdict_update (awaiting 0 "oops") (PARSE_ERROR msg)))
  /\ exists verdict,
       validate_json repairing Stubs.validate (awaiting 0 "```")
       = inr (verdict_update (awaiting 0 "```") verdict).
Proof.
  split; [|split; [|split]].
  - eapply (proj1 (proj2 (validate_json_classifies repairing Stubs.validate
                            (awaiting 0 "oops") _ _ eq_refl eq_refl)));
      reflexivity.
  - eapply (proj1 (proj2 (proj2 (validate_json_classifies repairing
                                   Stubs.validate (awaiting 0 valid_answer)
                                   _ _ eq_refl eq_refl))));
      reflexivity.
  - intros msg.
    eapply (proj1 (proj2 (proj2 (proj2 (validate_json_classifies repairing
                                          Stubs.validate (awaiting 0 "oops")
                                          _ _ eq_refl eq_refl))))).
    + reflexivity.
    + apply validate_contract.
  - apply (proj2 (proj2 (proj2 (proj2 (proj2 (proj2 (proj2
             (validate_json_classifies repairing Stubs.validate
                (awaiting 0 "```") _ _ eq_refl eq_refl)))))))).
    + apply repairing_contract.
    + apply validate_contract.
Defined.

(** C6 (as stated) fails: a text with no JSON in it does not make the
    repairing parser fail; it comes back as the empty string, and the
    verdict is a schema violation, not a parse error. *)
Lemma unparsable_text_is_a_schema_violation :
  repairing (Sanitizer._remove_markdown_code_blocks "oops") = inr (JString "")
  /\ validate_json repairing Stubs.validate (awaiting 0 "oops")
     = inr (verdict_update (awaiting 0 "oops")
              (SCHEMA_VIOLATION "instance does not match the schema"))
  /\ forall msg,
       validate_json repairing Stubs.validate (awaiting 0 "oops")
       <> inr (verdict_update (awaiting 0 "oops") (PARSE_ERROR msg)).
Proof.
  split; [reflexivity|]. split; [reflexivity|].
  intros msg. vm_compute. intros [=].
Qed.

End Scenarios.

(* ================================================================== *)
(** * Aggregator: properties *)
(* ================================================================== *)

Module AggregatorProps.
Import Json JsonFacts SchemaModel Workflow RetryProps.
Local Open Scope string_scope.
Local Open Scope agg_scope.

(** The merge of lines 291-292: every item of the fragment is written over
    the copy's [topicWizardData]. *)
Definition overwrite (fragment base : Dict) : Dict :=
  fold_left (fun acc kv => dict_set (fst kv) (snd kv) acc) fragment base.

Lemma dict_get_overwrite (k : string) (fragment base : Dict) :
  NoDup (keys fragment) ->
  dict_get k (overwrite fragment base)
  = match dict_get k fragment with
    | Some v => Some v
    | None => dict_get k base
    end.
Proof.
  revert base. induction fragment as [|[k1 v1] rest IH]; intros base ND.
  - reflexivity.
  - inversion ND as [|? ? Hk ND']; subst.
    change (overwrite ((k1, v1) :: rest) base)
      with (overwrite rest (dict_set k1 v1 base)).
    rewrite IH by exact ND'. cbn [dict_get].
    destruct (String.eqb_spec k1 k) as [->|ne].
    + rewrite (dict_get_absent k rest Hk). apply dict_get_set_same.
    + now rewrite dict_get_set_other.
Qed.

Lemma dict_set_noop (k : string) (v : JSON) (d : Dict) :
  dict_get k d = Some v -> dict_set k v d = d.
Proof.
  induction d as [|[k' v'] d IH]; simpl; [discriminate|].
  destruct (String.eqb_spec k' k) as [->|ne].
  - now intros [= ->].
  - intros H. now rewrite IH.
Qed.

Section Aggregator.

Variable json_repair_loads : string -> result JSON.
Variable jsonschema_validate : JSON -> Schema -> result unit.
Variable DeepDiff : JSON -> JSON -> result JSON.
Variable json_load_file : string -> result JSON.
Variable clock : nat -> spec_float.

Let aggregator_node :=
  aggregator_node json_repair_loads jsonschema_validate DeepDiff
                  json_load_file clock.

(** C5 (what the code does).  When the diff computation raises, the
    aggregator does not return: it raises. *)
Theorem diff_failure_is_fatal (w : World) :
  (forall a b, exists e, DeepDiff a b = inl e) ->
  exists e, fst (aggregator_node w) = inl e.
Proof.
  intros Hd. destruct (aggregator_node w) as [[e|u] w'] eqn:H; [now exists e|].
  exfalso. unfold aggregator_node, Workflow.aggregator_node in H.
  repeat bind_inv H.
  match goal with
  | E : try_except _ _ _ = _ |- _ =>
      unfold try_except, bind, load, liftR in E;
      match type of E with
      | context [DeepDiff ?a ?b] => destruct (Hd a b) as [e He]; rewrite He in E
      end;
      injection E as <- <-
  end.
  cbv beta iota in H. repeat bind_inv H.
  match goal with
  | E : local _ None _ = _ |- _ => discriminate E
  end.
Qed.

(** ** What the aggregator leaves in the world *)

(** A property of the world that a computation keeps, however it ends. *)
Definition preserved (P : World -> Prop) {A} (m : M A) : Prop :=
  forall w r w', P w -> m w = (r, w') -> P w'.

(** The first [k] objects hold [objs], and the state's [generated_schema]
    is [g]. *)
Definition settled (k : nat) (objs : list JSON) (g : Generated) (w : World)
  : Prop :=
  generated_schema (wstate w) = g /\ firstn k (heap w) = objs
  /\ (k <= List.length (heap w))%nat.

Lemma preserved_ret P {A} (a : A) : preserved P (ret a).
Proof. intros w r w' H [= _ <-]. exact H. Qed.

Lemma preserved_liftR P {A} (x : result A) : preserved P (liftR x).
Proof. intros w r w' H [= _ <-]. exact H. Qed.

Lemma preserved_bind P {A B} (m : M A) (k : A -> M B) :
  preserved P m -> (forall a, preserved P (k a)) -> preserved P (bind m k).
Proof.
  intros Hm Hk w r w' H. unfold bind.
  destruct (m w) as [[e|a] w1] eqn:E.
  - intros [= _ <-]. exact (Hm _ _ _ H E).
  - apply Hk. exact (Hm _ _ _ H E).
Qed.

Lemma preserved_try_except P {A} (m : M A) (h : exn -> M A) :
  preserved P m -> (forall e, preserved P (h e)) -> preserved P (try_except m h).
Proof.
  intros Hm Hh w r w' H. unfold try_except.
  destruct (m w) as [[e|a] w1] eqn:E.
  - apply Hh. exact (Hm _ _ _ H E).
  - intros [= _ <-]. exact (Hm _ _ _ H E).
Qed.

Lemma preserved_for_each P {A} (l : list A) (body : A -> M unit) :
  (forall a, preserved P (body a)) -> preserved P (for_each l body).
Proof.
  intros Hb. induction l as [|x l IH]; cbn [for_each].
  - apply preserved_ret.
  - apply preserved_bind; [apply Hb | intros _; exact IH].
Qed.

Lemma preserved_local P {A} (name : string) (v : option A) :
  preserved P (local name v).
Proof. destruct v; [apply preserved_ret | apply preserved_liftR]. Qed.

Lemma preserved_load P (l : loc) : preserved P (load l).
Proof. intros w r w' H [= _ <-]. exact H. Qed.

Lemma preserved_get_state P : preserved P get_state.
Proof. intros w r w' H [= _ <-]. exact H. Qed.

Lemma settled_time_time k objs g : preserved (settled k objs g) (time_time clock).
Proof. intros w r w' H [= _ <-]. exact H. Qed.

Lemma settled_alloc k objs g (v : JSON) : preserved (settled k objs g) (alloc v).
Proof.
  intros w r w' (Hg & Hf & Hl) [= _ <-]. unfold settled. cbn [heap wstate].
  repeat split; [exact Hg | | rewrite length_app; lia].
  rewrite firstn_app. replace (k - List.length (heap w))%nat with 0%nat by lia.
  rewrite firstn_O, app_nil_r. exact Hf.
Qed.

Lemma firstn_list_set {A} (h : list A) (k l : nat) (x : A) :
  (k <= l)%nat -> firstn k (list_set h l x) = firstn k h.
Proof.
  revert k l. induction h as [|y h IH]; intros k l H; [reflexivity|].
  destruct l as [|l]; [now replace k with 0%nat by lia|].
  destruct k as [|k]; cbn [list_set firstn]; [reflexivity|].
  f_equal. apply IH. lia.
Qed.

Lemma length_list_set {A} (h : list A) (l : nat) (x : A) :
  List.length (list_set h l x) = List.length h.
Proof.
  revert l. induction h as [|y h IH]; intros l; [reflexivity|].
  destruct l; cbn [list_set List.length]; [reflexivity | now rewrite IH].
Qed.

Lemma settled_store k objs g (l : loc) (v : JSON) :
  (k <= l)%nat -> preserved (settled k objs g) (store l v).
Proof.
  intros Hl w r w' (Hg & Hf & Hn) [= _ <-]. unfold settled. cbn [heap wstate].
  rewrite firstn_list_set by exact Hl. rewrite length_list_set. now repeat split.
Qed.

Lemma settled_setitem2_at k objs g (l : loc) (k1 k2 : string) (x : JSON) :
  (k <= l)%nat -> preserved (settled k objs g) (setitem2_at l k1 k2 x).
Proof.
  intros Hl. unfold setitem2_at.
  apply preserved_bind; [apply preserved_load | intros v].
  apply preserved_bind; [apply preserved_liftR | intros v'].
  apply settled_store, Hl.
Qed.

Lemma preserved_getitem2_at P (l : loc) (k1 k2 : string) :
  preserved P (getitem2_at l k1 k2).
Proof.
  unfold getitem2_at.
  apply preserved_bind; [apply preserved_load | intros v].
  apply preserved_bind; [apply preserved_liftR | intros a].
  apply preserved_liftR.
Qed.

Lemma generated_schema_store (g : Generated) (s : State) :
  generated_schema (store_generated_schema g s) = g.
Proof. destruct s. reflexivity. Qed.

Ltac keep_settled :=
  repeat first
    [ apply settled_setitem2_at; rewrite length_app; cbn [List.length]; lia
    | apply preserved_getitem2_at
    | apply preserved_for_each; intros ?
    | apply preserved_try_except; [|intros ?]
    | apply preserved_local
    | apply settled_time_time
    | apply settled_alloc
    | apply preserved_load
    | apply preserved_get_state
    | apply preserved_liftR
    | apply preserved_ret
    | apply preserved_bind; [|intros ?]
    | match goal with
      | x : (JSON * option spec_float * option spec_float)%type |- _ =>
          destruct x as [[? ?] ?]
      end ].

(** C9 (what the code does).  Whatever way the aggregator ends, the object
    read from the file still holds the document that was loaded and no
    object that existed before has changed; the state dict handed to the
    node, however, has had its [generated_schema] entry overwritten by the
    parsed fragment. *)
Theorem aggregator_writes_incoming_state
    (s : State) (t : nat) (h0 : list JSON) (file : JSON) (text : string)
    (parsed : JSON) :
  json_load_file "problem_statement/POC_sim_D.json" = inr file ->
  generated_schema s = GenText text ->
  json_repair_loads text = inr parsed ->
  let w' := snd (aggregator_node (mkWorld h0 s t)) in
  nth (List.length h0) (heap w') JNull = file
  /\ firstn (List.length h0) (heap w') = h0
  /\ generated_schema (wstate w') = GenParsed parsed
  /\ wstate w' <> s.
Proof.
  intros Hfile Hgen Hparse w'.
  assert (S : settled (S (List.length h0)) (h0 ++ [file]) (GenParsed parsed) w').
  { subst w'. unfold aggregator_node, Workflow.aggregator_node.
    unfold bind at 1. cbn [time_time heap wstate ticks].
    unfold bind at 1. cbn [liftR]. rewrite Hfile.
    unfold bind at 1. cbn [alloc heap wstate ticks].
    unfold bind at 1. unfold deepcopy at 1. unfold bind at 1.
    cbn [load alloc heap wstate ticks].
    unfold bind at 1. cbn [get_state heap wstate ticks].
    unfold bind at 1. cbn [liftR loads]. rewrite Hgen. cbn [loads].
    rewrite Hparse.
    unfold bind at 1. cbn [put_state heap wstate ticks].
    match goal with
    | |- settled _ _ _ (snd (?rest ?w6)) =>
        assert (K : preserved (settled (S (List.length h0)) (h0 ++ [file])
                                       (GenParsed parsed)) rest);
        [|destruct (rest w6) as [r w7] eqn:E; apply (K w6 r w7); [|exact E]]
    end.
    - keep_settled.
    - unfold settled. cbn [heap wstate]. rewrite generated_schema_store.
      repeat split.
      + rewrite firstn_app.
        replace (S (List.length h0) - List.length (h0 ++ [file]))%nat
          with 0%nat by (rewrite length_app; cbn [List.length]; lia).
        rewrite firstn_O, app_nil_r.
        apply firstn_all2. rewrite length_app. cbn [List.length]. lia.
      + rewrite !length_app. cbn [List.length]. lia. }
  destruct S as (Hg & Hf & Hl). repeat split.
  - rewrite <- (firstn_skipn (S (List.length h0)) (heap w')), Hf.
    rewrite <- app_assoc. apply nth_middle.
  - apply (f_equal (firstn (List.length h0))) in Hf.
    rewrite firstn_firstn in Hf. rewrite Nat.min_l in Hf by lia.
    rewrite Hf. rewrite firstn_app, Nat.sub_diag, firstn_all, firstn_O.
    apply app_nil_r.
  - exact Hg.
  - intros E. rewrite E, Hgen in Hg. discriminate Hg.
Qed.

(** ** The merged document and the locked field *)

(** The loop of lines 291-292 on the copy, which is object 1. *)
Lemma for_each_overwrite (a : JSON) (fragment d inner : Dict) (s : State)
    (t : nat) (k1 : string) :
  dict_get k1 d = Some (JObject inner) ->
  for_each fragment (fun kv => setitem2_at 1%nat k1 (fst kv) (snd kv))
           (mkWorld [a; JObject d] s t)
  = (inr tt,
     mkWorld [a; JObject (dict_set k1 (JObject (overwrite fragment inner)) d)]
             s t).
Proof.
  revert d inner. induction fragment as [|[k v] fragment IH]; intros d inner H.
  - cbn [for_each overwrite fold_left]. rewrite dict_set_noop by exact H.
    reflexivity.
  - cbn [for_each]. unfold bind at 1. unfold setitem2_at at 1.
    unfold bind, load, liftR, store, setitem2.
    cbn [nth heap wstate ticks fst snd]. rewrite H. cbn [list_set].
    rewrite (IH _ (dict_set k v inner)) by apply dict_get_set_same.
    rewrite dict_set_set. reflexivity.
Qed.

(** [topicWizardData] of the merged document. *)
Definition merged_topic (s : State) (fragment twd : Dict) : Dict :=
  dict_set "selectedScenarioOption" (JString (new_scenario_option s))
           (overwrite fragment twd).

Definition merged_document (s : State) (fragment twd d : Dict) : JSON :=
  JObject (dict_set "topicWizardData" (JObject (merged_topic s fragment twd)) d).

(** [scenarioOptions] of the merged document: the fragment's, when the
    fragment has that key. *)
Definition merged_options (fragment : Dict) (old : JSON) : JSON :=
  match dict_get "scenarioOptions" fragment with
  | Some v => v
  | None => old
  end.

Lemma merged_topic_options (s : State) (fragment twd : Dict) (old : JSON) :
  NoDup (keys fragment) ->
  dict_get "scenarioOptions" twd = Some old ->
  dict_get "scenarioOptions" (merged_topic s fragment twd)
  = Some (merged_options fragment old).
Proof.
  intros ND H. unfold merged_topic, merged_options.
  rewrite dict_get_set_other by discriminate.
  rewrite dict_get_overwrite by exact ND.
  destruct (dict_get "scenarioOptions" fragment); [reflexivity | exact H].
Qed.

(** What the aggregator returns when it returns. *)
Lemma aggregator_node_returns (s : State) (t : nat) (d twd fragment : Dict)
    (old : JSON) (text : string) (u : Update) (w' : World) :
  json_load_file "problem_statement/POC_sim_D.json" = inr (JObject d) ->
  dict_get "topicWizardData" d = Some (JObject twd) ->
  dict_get "scenarioOptions" twd = Some old ->
  generated_schema s = GenText text ->
  json_repair_loads text = inr (JObject fragment) ->
  NoDup (keys fragment) ->
  aggregator_node (mkWorld [] s t) = (inr u, w') ->
  exists fidelity end_time duration diff,
    u = [ Set_schema_fidelity fidelity;
          Set_locked_field_equality
            (if py_eq (merged_options fragment old) old then "PASS" else "FAIL");
          Set_output_json (merged_document s fragment twd d);
          Set_simulation_end_time end_time;
          Set_simulation_duration duration;
          Set_changed_fields diff ].
Proof.
  intros Hfile Htwd Hold Hgen Hparse ND H.
  unfold aggregator_node, Workflow.aggregator_node in H.
  unfold bind at 1 in H. cbn [time_time heap wstate ticks] in H.
  unfold bind at 1 in H. cbn [liftR] in H. rewrite Hfile in H.
  unfold bind at 1 in H. cbn [alloc heap wstate ticks] in H.
  unfold bind at 1 in H. unfold deepcopy at 1 in H. unfold bind at 1 in H.
  cbn [load alloc heap wstate ticks List.length app nth] in H.
  unfold bind at 1 in H. cbn [get_state heap wstate ticks] in H.
  unfold bind at 1 in H. cbn [liftR loads] in H. rewrite Hgen in H.
  cbn [loads] in H. rewrite Hparse in H.
  unfold bind at 1 in H. cbn [put_state heap wstate ticks] in H.
  unfold bind at 1 in H. cbn [get_state heap wstate ticks] in H.
  unfold bind at 1 in H. rewrite generated_schema_store in H.
  cbn [liftR dict_items] in H.
  unfold bind at 1 in H. rewrite (for_each_overwrite _ _ _ twd) in H by exact Htwd.
  unfold bind at 1 in H. unfold setitem2_at at 1 in H.
  unfold bind at 1 2 3, load, liftR, store, setitem2 in H.
  cbn [nth heap wstate ticks] in H. rewrite dict_get_set_same in H.
  cbn [list_set] in H. rewrite dict_set_set in H.
  replace (new_scenario_option
             (store_generated_schema (GenParsed (JObject fragment)) s))
    with (new_scenario_option s) in H by (destruct s; reflexivity).
  fold (merged_topic s fragment twd) in H.
  unfold try_except, getitem2_at in H.
  unfold bind, ret, time_time, liftR, load, getitem, local in H.
  cbn [heap nth wstate ticks] in H.
  destruct (DeepDiff _ _) as [e|diff]; cbn [heap nth wstate ticks] in H;
    destruct (jsonschema_validate _ _) as [[]|[]];
    cbn [raise] in H; try discriminate H;
    repeat (first [ rewrite dict_get_set_same in H
                  | rewrite (merged_topic_options s fragment twd old ND Hold) in H
                  | rewrite Htwd in H
                  | rewrite Hold in H ];
            cbn [heap nth wstate ticks raise] in H);
    try discriminate H;
    injection H as <- _; do 4 eexists; reflexivity.
Qed.

(** The locked field of a document: [doc['topicWizardData']['scenarioOptions']]. *)
Definition locked_field (doc : JSON) : result JSON :=
  rbind (getitem doc "topicWizardData") (fun x => getitem x "scenarioOptions").

Lemma locked_field_merged (s : State) (fragment twd d : Dict) (old : JSON) :
  NoDup (keys fragment) ->
  dict_get "scenarioOptions" twd = Some old ->
  locked_field (merged_document s fragment twd d)
  = inr (merged_options fragment old).
Proof.
  intros ND H. unfold locked_field, merged_document. cbn [getitem].
  rewrite dict_get_set_same. cbn [rbind getitem].
  now rewrite (merged_topic_options s fragment twd old ND H).
Qed.

(** C4 (as amended).  When the aggregator returns: the merged document holds
    under [scenarioOptions] the fragment's value for that key whenever the
    fragment has the key, although the key is not one to extract, and the
    original value otherwise; the verdict is PASS exactly when Python's [==]
    holds between that value and the original one, FAIL otherwise; it is
    PASS when the fragment lacks the key, and whenever the two values are
    structurally equal.  An untouched field that holds a NaN inside a list
    or a dict passes as well, the NaN being one object on both sides; one
    that is itself the NaN fails. *)
Theorem locked_field_verdict (s : State) (t : nat) (d twd fragment : Dict)
    (old : JSON) (text : string) (u : Update) (w' : World) :
  json_load_file "problem_statement/POC_sim_D.json" = inr (JObject d) ->
  dict_get "topicWizardData" d = Some (JObject twd) ->
  dict_get "scenarioOptions" twd = Some old ->
  generated_schema s = GenText text ->
  json_repair_loads text = inr (JObject fragment) ->
  NoDup (keys fragment) ->
  aggregator_node (mkWorld [] s t) = (inr u, w') ->
  let final := merge s u in
  let merged := merged_document s fragment twd d in
  let now := merged_options fragment old in
  str_in "scenarioOptions" SIMULATION_KEYS_TO_EXTRACT = false
  /\ output_json final = Some merged
  /\ locked_field merged = inr now
  /\ (forall v, dict_get "scenarioOptions" fragment = Some v -> now = v)
  /\ (locked_field_equality final = Some "PASS" <-> py_eq now old = true)
  /\ (locked_field_equality final = Some "FAIL" <-> py_eq now old = false)
  /\ (dict_get "scenarioOptions" fragment = None -> wf_doc old ->
      locked_field_equality final = Some "PASS")
  /\ (wf_doc now -> wf_doc old -> struct_eq now old ->
      locked_field_equality final = Some "PASS")
  /\ (dict_get "scenarioOptions" fragment = None -> keys_distinct old ->
      (locked_field_equality final = Some "PASS" <-> is_nan old = false)).
Proof.
  intros Hfile Htwd Hold Hgen Hparse ND H final merged now.
  destruct (aggregator_node_returns s t d twd fragment old text u w'
              Hfile Htwd Hold Hgen Hparse ND H)
    as (fidelity & end_time & duration & diff & ->).
  assert (L : locked_field_equality final
              = Some (if py_eq now old then "PASS" else "FAIL"))
    by (subst final now; destruct s; reflexivity).
  assert (O : output_json final = Some merged)
    by (subst final merged; destruct s; reflexivity).
  split; [reflexivity|]. split; [exact O|].
  split; [apply locked_field_merged; assumption|].
  split; [intros v Hv; subst now; unfold merged_options; now rewrite Hv|].
  rewrite L.
  split; [destruct (py_eq now old); split; congruence|].
  split; [destruct (py_eq now old); split; congruence|].
  split; [|split].
  - intros Hnone W. subst now. unfold merged_options. rewrite Hnone.
    now rewrite py_eq_refl.
  - intros Wn Wo E. now rewrite (struct_eq_py_eq now old Wn Wo E).
  - intros Hnone K. subst now. unfold merged_options. rewrite Hnone.
    destruct (is_nan old) eqn:N.
    + destruct old as [| | |f| | |]; try discriminate N.
      destruct f; try discriminate N. cbn. split; discriminate.
    + rewrite (proj1 (py_eq_self old K) N). split; reflexivity.
Qed.

End Aggregator.

(** ** The aggregator on concrete runs *)

(** The state a passed validation hands over. *)
Definition passed (text : string) : State :=
  merge (create_initial_state "old" "new" Stubs.document)
        [ Set_generated_schema text; Set_evaluator_message "PASS" ].

Definition parse (text : string) : result JSON :=
  if (text =? "{'scenarioOptions': ['z']}")%string
  then inr (JObject [("scenarioOptions", JArray [JString "z"])])
  else if (text =? "{'scenarioOptions': true}")%string
  then inr (JObject [("scenarioOptions", JBool true)])
  else if (text =? "{'simulationName': 'Gym'}")%string
  then inr (JObject [("simulationName", JString "Gym")])
  else Stubs.parse text.

(** A document whose locked field is the number 1. *)
Definition numeric_options (path : string) : result JSON :=
  inr (JObject [("topicWizardData", JObject [("scenarioOptions", JInt 1)])]).

Definition aggregate (diff : JSON -> JSON -> result JSON)
    (file : string -> result JSON) (text : string) : result Update * World :=
  aggregator_node parse Stubs.validate diff file Stubs.clock
                  (mkWorld [] (passed text) 2).

(** The state the driver holds after merging what the aggregator returned. *)
Definition outcome (text : string) (r : result Update * World) : option State :=
  match fst r with
  | inr u => Some (merge (passed text) u)
  | inl _ => None
  end.

Definition merged_locked_field (st : option State) : option JSON :=
  match st with
  | Some final => match output_json final with
                  | Some doc => match locked_field doc with
                                | inr v => Some v
                                | inl _ => None
                                end
                  | None => None
                  end
  | None => None
  end.

Example aggregate_conformant_fragment :
  let final := outcome "{'simulationName': 'Gym'}"
                 (aggregate Stubs.diff_ok Stubs.file "{'simulationName': 'Gym'}") in
  option_map locked_field_equality final = Some (Some "PASS")
  /\ option_map schema_fidelity final = Some (Some "PASS")
  /\ merged_locked_field final = Some (JArray [JString "a"; JString "b"]).
Proof. vm_compute. repeat split. Qed.

Lemma locked_field_verdict_witness :
  exists u w',
    aggregate Stubs.diff_ok Stubs.file "{'scenarioOptions': ['z']}" = (inr u, w')
    /\ locked_field_equality (merge (passed "{'scenarioOptions': ['z']}") u)
       = Some "FAIL".
Proof.
  eexists. eexists. split; [vm_compute; reflexivity|].
  eapply (locked_field_verdict parse Stubs.validate Stubs.diff_ok Stubs.file
            Stubs.clock (passed "{'scenarioOptions': ['z']}") 2).
  - reflexivity.
  - reflexivity.
  - reflexivity.
  - reflexivity.
  - reflexivity.
  - repeat constructor. simpl. tauto.
  - vm_compute. reflexivity.
  - reflexivity.
Defined.

(** C4 (as stated) fails, twice.  A fragment that has the key
    [scenarioOptions], which is not a key to extract, overwrites the locked
    field.  And the verdict is PASS for a locked field that went from the
    number 1 to the boolean [true], which are not structurally equal. *)
Lemma fragment_overwrites_locked_field :
  str_in "scenarioOptions" SIMULATION_KEYS_TO_EXTRACT = false
  /\ locked_field Stubs.document = inr (JArray [JString "a"; JString "b"])
  /\ merged_locked_field
       (outcome "{'scenarioOptions': ['z']}"
          (aggregate Stubs.diff_ok Stubs.file "{'scenarioOptions': ['z']}"))
     = Some (JArray [JString "z"])
  /\ option_map locked_field_equality
       (outcome "{'scenarioOptions': true}"
          (aggregate Stubs.diff_ok numeric_options "{'scenarioOptions': true}"))
     = Some (Some "PASS")
  /\ merged_locked_field
       (outcome "{'scenarioOptions': true}"
          (aggregate Stubs.diff_ok numeric_options "{'scenarioOptions': true}"))
     = Some (JBool true)
  /\ ~ struct_eq (JBool true) (JInt 1).
Proof.
  repeat split; try (vm_compute; reflexivity).
  intros E. inversion E.
Qed.

(** Documents whose locked field holds a NaN, in a list and by itself. *)
Definition nan_in_options (path : string) : result JSON :=
  inr (JObject [("topicWizardData",
                 JObject [("scenarioOptions", JArray [JFloat S754_nan])])]).

Definition nan_options (path : string) : result JSON :=
  inr (JObject [("topicWizardData",
                 JObject [("scenarioOptions", JFloat S754_nan)])]).

Example aggregate_untouched_nan :
  option_map locked_field_equality
    (outcome "{'simulationName': 'Gym'}"
       (aggregate Stubs.diff_ok nan_in_options "{'simulationName': 'Gym'}"))
  = Some (Some "PASS")
  /\ option_map locked_field_equality
       (outcome "{'simulationName': 'Gym'}"
          (aggregate Stubs.diff_ok nan_options "{'simulationName': 'Gym'}"))
     = Some (Some "FAIL").
Proof. vm_compute. split; reflexivity. Qed.

(** C5: with a diff computation that raises, the aggregator raises
    [UnboundLocalError] where line 334 reads [simulation_duration]. *)
Example aggregate_failing_diff :
  fst (aggregate Stubs.diff_fails Stubs.file "{'simulationName': 'Gym'}")
  = inl (UnboundLocalError "simulation_duration").
Proof. vm_compute. reflexivity. Qed.

Lemma diff_failure_is_fatal_witness :
  exists e,
    fst (aggregate Stubs.diff_fails Stubs.file "{'simulationName': 'Gym'}")
    = inl e.
Proof.
  apply (diff_failure_is_fatal parse Stubs.validate Stubs.diff_fails Stubs.file
           Stubs.clock).
  intros a b. eexists. reflexivity.
Defined.

Lemma aggregator_writes_incoming_state_witness :
  let w' := snd (aggregate Stubs.diff_ok Stubs.file "{'simulationName': 'Gym'}") in
  nth 0 (heap w') JNull = Stubs.document
  /\ firstn 0 (heap w') = []
  /\ generated_schema (wstate w')
     = GenParsed (JObject [("simulationName", JString "Gym")])
  /\ wstate w' <> passed "{'simulationName': 'Gym'}".
Proof.
  apply (aggregator_writes_incoming_state parse Stubs.validate Stubs.diff_ok
           Stubs.file Stubs.clock (passed "{'simulationName': 'Gym'}") 2 []
           Stubs.document "{'simulationName': 'Gym'}"
           (JObject [("simulationName", JString "Gym")]));
    reflexivity.
Defined.

End AggregatorProps.

(* ================================================================== *)
(** * SchemaInferrer: properties *)
(* ================================================================== *)

Module SchemaProps.
Import Json SchemaModel Workflow.
Local Open Scope string_scope.

(** The examples a schema was inferred from, told from the instances it
    merely lets through: a node built from no example covers nothing, and a
    map is covered only when every one of its keys has a node. *)
Fixpoint covers (s : Schema) (v : JSON) {struct v} : bool :=
  match s with
  | SNode types items props required =>
      match v with
      | JNull => has_type TNull types
      | JBool _ => has_type TBoolean types
      | JInt _ => has_type TInteger types
      | JFloat _ => has_type TNumber types
      | JString _ => has_type TString types
      | JArray l =>
          match items with
          | None => false
          | Some s' => forallb (fun x => covers s' x) l
          end
      | JObject d =>
          match required with
          | None => false
          | Some req =>
              forallb (fun k => str_in k (keys d)) req
              && forallb (fun kv => match props_get (fst kv) props with
                                    | Some s' => covers s' (snd kv)
                                    | None => false
                                    end) d
          end
      end
  end.

Lemma ScalarType_eqb_refl (t : ScalarType) : ScalarType_eqb t t = true.
Proof. destruct t; reflexivity. Qed.

Lemma has_type_app (t : ScalarType) (ts us : list ScalarType) :
  has_type t (ts ++ us) = has_type t ts || has_type t us.
Proof. unfold has_type. apply existsb_app. Qed.

Lemma has_type_add (t : ScalarType) (ts : list ScalarType) :
  has_type t (add_type t ts) = true.
Proof.
  unfold add_type. destruct (has_type t ts) eqn:E; [exact E|].
  rewrite has_type_app, E. cbn. now rewrite ScalarType_eqb_refl.
Qed.

Lemma has_type_add_mono (t t' : ScalarType) (ts : list ScalarType) :
  has_type t ts = true -> has_type t (add_type t' ts) = true.
Proof.
  intros H. unfold add_type. destruct (has_type t' ts); [exact H|].
  now rewrite has_type_app, H.
Qed.

Lemma props_get_set_same (k : string) (s : Schema) ps :
  props_get k (props_set k s ps) = Some s.
Proof.
  induction ps as [|[k' s'] ps IH]; cbn [props_set props_get].
  - now rewrite String.eqb_refl.
  - destruct (String.eqb_spec k' k) as [->|ne]; cbn [props_get].
    + now rewrite String.eqb_refl.
    + apply String.eqb_neq in ne. now rewrite ne.
Qed.

Lemma props_get_set_other (k k0 : string) (s : Schema) ps :
  k <> k0 -> props_get k0 (props_set k s ps) = props_get k0 ps.
Proof.
  intros ne. induction ps as [|[k' s'] ps IH]; cbn [props_set props_get].
  - apply String.eqb_neq in ne. now rewrite ne.
  - destruct (String.eqb_spec k' k) as [->|ne']; cbn [props_get].
    + apply String.eqb_neq in ne. now rewrite ne.
    + now rewrite IH.
Qed.

Lemma str_in_keys (k : string) (v : JSON) (d : Dict) :
  In (k, v) d -> str_in k (keys d) = true.
Proof.
  intros H. unfold str_in. apply existsb_exists. exists k. split.
  - apply (in_map fst) in H. exact H.
  - apply String.eqb_refl.
Qed.

(** One step of the inference over the items of a map. *)
Definition feed (ps : list (string * Schema)) (kv : string * JSON)
  : list (string * Schema) :=
  props_set (fst kv)
            (add_object (node_or_new (props_get (fst kv) ps)) (snd kv)) ps.

Lemma add_object_array ts it ps rq (l : list JSON) :
  add_object (SNode ts it ps rq) (JArray l)
  = SNode ts (Some (fold_left add_object l (node_or_new it))) ps rq.
Proof. reflexivity. Qed.

Lemma add_object_object ts it ps rq (d : Dict) :
  add_object (SNode ts it ps rq) (JObject d)
  = SNode ts it (fold_left feed d ps)
          (Some match rq with
                | None => keys d
                | Some req => filter (fun k => str_in k (keys d)) req
                end).
Proof. reflexivity. Qed.

(** What inference keeps: an example covered by a schema stays covered when
    the schema learns from [v]. *)
Definition kept (v : JSON) : Prop :=
  forall s w, covers s w = true -> covers (add_object s v) w = true.

Lemma fold_kept (l : list JSON) :
  Forall kept l ->
  forall s w, covers s w = true -> covers (fold_left add_object l s) w = true.
Proof.
  induction 1 as [|x l Hx _ IH]; intros s w H; cbn [fold_left]; [exact H|].
  apply IH, Hx, H.
Qed.

Lemma feed_kept (d : Dict) :
  Forall (fun kv => kept (snd kv)) d ->
  forall ps k s w,
    props_get k ps = Some s -> covers s w = true ->
    exists s', props_get k (fold_left feed d ps) = Some s'
               /\ covers s' w = true.
Proof.
  induction 1 as [|[k1 v1] d H1 _ IH]; intros ps k s w G C; cbn [fold_left].
  - now exists s.
  - cbn [snd] in H1. unfold feed at 2. cbn [fst snd].
    destruct (String.eqb_spec k1 k) as [->|ne].
    + eapply IH; [apply props_get_set_same|].
      rewrite G. cbn [node_or_new]. apply H1, C.
    + eapply IH; [|exact C]. rewrite props_get_set_other by exact ne. exact G.
Qed.

Lemma forallb_filter_keep {A} (p q : A -> bool) (l : list A) :
  forallb p l = true -> forallb p (filter q l) = true.
Proof.
  rewrite !forallb_forall. intros H x Hx. apply filter_In in Hx as [Hx _].
  apply H, Hx.
Qed.

Lemma add_object_kept (v : JSON) : kept v.
Proof.
  induction v as [|b|z|f|t|l IH|d IH] using JSON_ind;
    intros [ts it ps rq] w H.
  1-5: destruct w; cbn [add_object covers] in *;
    auto using has_type_add_mono.
  - rewrite add_object_array. destruct w; cbn [covers] in *; auto.
    destruct it as [s'|]; [|discriminate]. cbn [node_or_new].
    rewrite forallb_forall in *. intros x Hx. apply fold_kept; auto.
  - rewrite add_object_object. destruct w; cbn [covers] in *; auto.
    destruct rq as [req|]; [|discriminate].
    apply andb_prop in H as [Hreq Hitems]. apply andb_true_intro. split.
    + apply forallb_filter_keep, Hreq.
    + rewrite forallb_forall in *. intros [k x] Hx. cbn [fst snd].
      specialize (Hitems (k, x) Hx). cbn [fst snd] in Hitems.
      destruct (props_get k ps) as [s'|] eqn:G; [|discriminate].
      destruct (feed_kept d IH ps k s' x G Hitems) as (s'' & -> & C).
      exact C.
Qed.

(** A schema covers the example it has just learned from. *)
Lemma add_object_covers (v : JSON) :
  forall s, covers (add_object s v) v = true.
Proof.
  induction v as [|b|z|f|t|l IH|d IH] using JSON_ind; intros [ts it ps rq].
  1-5: cbn [add_object covers]; apply has_type_add.
  - rewrite add_object_array. cbn [covers].
    generalize (node_or_new it). clear it.
    induction IH as [|x l Hx _ IHl]; intros s0; [reflexivity|].
    cbn [fold_left forallb]. apply andb_true_intro. split.
    + apply fold_kept; [|apply Hx].
      apply Forall_forall. intros y _. apply add_object_kept.
    + apply IHl.
  - rewrite add_object_object. cbn [covers]. apply andb_true_intro. split.
    + destruct rq as [req|].
      * apply forallb_forall. intros k Hk. apply filter_In in Hk. tauto.
      * apply forallb_forall. intros k Hk. unfold keys in Hk.
        apply in_map_iff in Hk as ([k' x] & <- & Hx).
        eapply str_in_keys, Hx.
    + generalize ps. clear ps.
      induction IH as [|[k1 v1] d H1 _ IHd]; intros ps; [reflexivity|].
      cbn [fold_left forallb fst snd]. apply andb_true_intro. split.
      * cbn [snd] in H1.
        destruct (feed_kept d
                    ltac:(apply Forall_forall; intros y _; apply add_object_kept)
                    (feed ps (k1, v1)) k1
                    (add_object (node_or_new (props_get k1 ps)) v1) v1
                    (props_get_set_same _ _ _) (H1 _))
          as (s'' & -> & C).
        exact C.
      * apply IHd.
Qed.

(** A covered example satisfies the schema. *)
Lemma covers_satisfies (v : JSON) :
  forall s, covers s v = true -> satisfies s v = true.
Proof.
  induction v as [|b|z|f|t|l IH|d IH] using JSON_ind; intros [ts it ps rq] H;
    cbn [satisfies covers] in *; apply orb_true_iff; right; auto.
  - now rewrite H.
  - destruct it as [s'|]; [|discriminate].
    rewrite forallb_forall in *. rewrite Forall_forall in IH. auto.
  - destruct rq as [req|]; [|discriminate].
    apply andb_prop in H as [Hreq Hitems]. rewrite Hreq. cbn [andb].
    rewrite forallb_forall in *. rewrite Forall_forall in IH.
    intros kv Hkv. specialize (Hitems kv Hkv).
    destruct (props_get (fst kv) ps); [|reflexivity]. apply (IH kv Hkv), Hitems.
Qed.

Definition sample : JSON :=
  JObject [ ("simulationName", JString "Pricing war");
            ("steps", JArray [ JObject [("id", JInt 1); ("hint", JNull)];
                               JObject [("id", JFloat (S754_zero false))];
                               JArray [] ]);
            ("ready", JBool true) ].

Example sample_satisfies_its_schema :
  validate sample (to_schema (add_object SchemaBuilder sample)) = inr tt.
Proof. reflexivity. Qed.

Example schema_rejects_other_shapes :
  let schema := to_schema (add_object SchemaBuilder sample) in
  satisfies schema (JObject [("ready", JBool true)]) = false
  /\ satisfies schema (JObject [ ("simulationName", JInt 3);
                                 ("steps", JArray []);
                                 ("ready", JBool true) ]) = false
  /\ satisfies schema (JObject [ ("simulationName", JString "x");
                                 ("steps", JArray [JObject [("id", JInt 7)]]);
                                 ("ready", JBool false);
                                 ("scenarioOptions", JArray []) ]) = true.
Proof. vm_compute. repeat split. Qed.

(** C3.  A document validates against the schema inferred from it: the
    check raises no [ValidationError].  This holds for the extracted subset,
    a map, and for the whole document the aggregator builds its schema
    from; and for a builder that has seen other examples before. *)
Theorem schema_inference_sound :
  (forall D : JSON,
      validate D (to_schema (add_object SchemaBuilder D)) = inr tt)
  /\ (forall subset : Dict,
        validate (JObject subset)
                 (to_schema (add_object SchemaBuilder (JObject subset)))
        = inr tt)
  /\ (forall (builder : Schema) (D : JSON),
        validate D (to_schema (add_object builder D)) = inr tt).
Proof.
  assert (A : forall (builder : Schema) (D : JSON),
             validate D (to_schema (add_object builder D)) = inr tt).
  { intros builder D. unfold validate, to_schema.
    now rewrite covers_satisfies by apply add_object_covers. }
  repeat split; intros; apply A.
Qed.

End SchemaProps.

(* ================================================================== *)
(** * The run as a whole: what every superstep produces *)
(* ================================================================== *)

Module RunProps.
Import PyStr Sanitizer Json SchemaModel Workflow ValidatorProps RetryProps.
Local Open Scope string_scope.
Local Open Scope Z_scope.

Section Run.

Variable model_invoke : list Message -> result string.
Variable json_repair_loads : string -> result JSON.
Variable jsonschema_validate : JSON -> Schema -> result unit.
Variable DeepDiff : JSON -> JSON -> result JSON.
Variable json_load_file : string -> result JSON.
Variable clock : nat -> spec_float.
Variable _build_recontextualization_prompt : string -> string -> Dict -> string.
Variable _build_correction_prompt : string -> string.

Let recontextualize_agent :=
  recontextualize_agent model_invoke clock _build_recontextualization_prompt.
Let validate_json := validate_json json_repair_loads jsonschema_validate.
Let json_format_correction_agent :=
  json_format_correction_agent model_invoke _build_correction_prompt.
Let aggregator_node :=
  aggregator_node json_repair_loads jsonschema_validate DeepDiff
                  json_load_file clock.
Let run_node :=
  run_node model_invoke json_repair_loads jsonschema_validate DeepDiff
           json_load_file clock _build_recontextualization_prompt
           _build_correction_prompt.
Let step :=
  step model_invoke json_repair_loads jsonschema_validate DeepDiff
       json_load_file clock _build_recontextualization_prompt
       _build_correction_prompt.
Let run :=
  run model_invoke json_repair_loads jsonschema_validate DeepDiff
      json_load_file clock _build_recontextualization_prompt
      _build_correction_prompt.
Let reachable :=
  reachable model_invoke json_repair_loads jsonschema_validate DeepDiff
            json_load_file clock _build_recontextualization_prompt
            _build_correction_prompt.

(** The request the first node sends to the generator. *)
Definition first_request (s : State) (subset : Dict) : list Message :=
  (message_history s
   ++ [mkMessage "user"
         (_build_recontextualization_prompt (current_scenario_option s)
            (new_scenario_option s) subset)])%list.

(** The request a correction round sends to the generator. *)
Definition correction_request (s : State) : list Message :=
  (message_history s
   ++ [mkMessage "user" (_build_correction_prompt (evaluator_message s))])%list.

(** The dict a node returns when it returns, node by node. *)
Inductive produced (s : State) (t : nat) : Node -> Update -> Prop :=
| by_recontextualize subset response :
    _extract_simulation_subset (current_scenario_example_json s)
                               SIMULATION_KEYS_TO_EXTRACT = inr subset ->
    model_invoke (first_request s subset) = inr response ->
    produced s t N_recontextualize_agent
      [ Set_validation_schema
          (to_schema (add_object SchemaBuilder (JObject subset)));
        Set_simulation_start_time (clock t);
        Set_message_history
          (first_request s subset ++ [mkMessage "assistant" response])%list;
        Set_generated_schema response;
        Set_history_generator (history_generator s ++ [response])%list ]
| by_validate v :
    validate_json s = inr (verdict_update s v) ->
    produced s t N_validate_json (verdict_update s v)
| by_correction response :
    model_invoke (correction_request s) = inr response ->
    produced s t N_json_format_correction
      [ Set_message_history
          (message_history s
           ++ [ mkMessage "user"
                  (_build_correction_prompt (evaluator_message s));
                mkMessage "assistant" response ])%list;
        Set_generated_schema response;
        Set_history_generator (history_generator s ++ [response])%list ]
| by_aggregator fidelity verdict output diff k :
    fidelity = "PASS" \/ fidelity = "FAIL" ->
    verdict = "PASS" \/ verdict = "FAIL" ->
    produced s t N_aggregator_node
      [ Set_schema_fidelity fidelity;
        Set_locked_field_equality verdict;
        Set_output_json output;
        Set_simulation_end_time (clock k);
        Set_simulation_duration
          (float_sub (clock k) (simulation_start_time s));
        Set_changed_fields diff ].

Lemma recontextualize_agent_produces (s : State) (t : nat) (h : list JSON)
    (u : Update) (w' : World) :
  recontextualize_agent (mkWorld h s t) = (inr u, w') ->
  produced s t N_recontextualize_agent u.
Proof.
  unfold recontextualize_agent, Workflow.recontextualize_agent. intros H.
  repeat bind_inv H.
  repeat match goal with
         | E : get_state _ = _ |- _ => injection E as <- <-
         | E : time_time _ _ = _ |- _ => injection E as <- <-
         | E : liftR _ _ = _ |- _ => injection E as E <-
         end.
  injection H as <- _. cbn [wstate ticks] in *.
  eapply by_recontextualize; eassumption.
Qed.

Lemma simulation_start_time_store (g : Generated) (s : State) :
  simulation_start_time (store_generated_schema g s) = simulation_start_time s.
Proof. destruct s. reflexivity. Qed.

Lemma aggregator_node_produces (s : State) (t : nat) (h : list JSON)
    (u : Update) (w' : World) :
  aggregator_node (mkWorld h s t) = (inr u, w') ->
  produced s t N_aggregator_node u.
Proof.
  unfold aggregator_node, Workflow.aggregator_node. intros H.
  repeat bind_inv H.
  repeat match goal with
         | E : get_state _ = _ |- _ => injection E as <- <-
         | E : put_state _ _ = _ |- _ => injection E as _ <-
         | E : time_time _ _ = _ |- _ => injection E as <- <-
         | E : alloc _ _ = _ |- _ => injection E as <- <-
         | E : deepcopy _ _ = _ |- _ =>
             unfold deepcopy, bind, load, alloc in E; injection E as <- <-
         | E : liftR _ _ = _ |- _ => injection E as E <-
         end.
  cbn [heap wstate ticks] in *.
  match goal with
  | E : try_except _ _ _ = _ |- _ =>
      unfold try_except, bind, load, liftR, ret, time_time in E;
      destruct (DeepDiff _ _) as [e|diff]; injection E as <- <-;
      cbv beta iota in H
  end; repeat bind_inv H.
  - match goal with E : local _ None _ = _ |- _ => discriminate E end.
  - repeat match goal with
           | E : local _ (Some _) _ = _ |- _ => injection E as <- <-
           | E : load _ _ = _ |- _ => injection E as <- <-
           end.
    match goal with
    | E : liftR (match jsonschema_validate _ _ with _ => _ end) _ = _ |- _ =>
        injection E as E <-;
        destruct (jsonschema_validate _ _) as [[]|[]]; try discriminate E;
        injection E as <-
    end;
      injection H as <- _; cbn [wstate];
      rewrite simulation_start_time_store;
      (apply by_aggregator;
       [ auto | destruct (py_eq _ _); auto ]).
Qed.

(** What a superstep that does not raise has done. *)
Lemma step_produced (c c' : Config) :
  step c = inr c' ->
  (at_node c = N_END /\ c' = c)
  \/ exists u,
       produced (state_of c) (readings c) (at_node c) u
       /\ state_of c' = merge (state_of c) u
       /\ next_node (at_node c) (merge (state_of c) u) = inr (at_node c').
Proof.
  destruct c as [n s t]. unfold step, Workflow.step.
  cbn [at_node state_of readings].
  destruct n; cbn [Workflow.run_node]; intros H;
    [right|right|right|right|injection H as <-; now left]; revert H.
  - fold recontextualize_agent.
    destruct (recontextualize_agent (mkWorld [] s t)) as [[e|u] w] eqn:E;
      cbn [rbind next_node]; [discriminate|].
    intros [= <-]. exists u. cbn [state_of at_node].
    eauto using recontextualize_agent_produces.
  - unfold bind, get_state, liftR. cbn [wstate]. fold validate_json.
    destruct (validate_json s) as [e|u] eqn:E; cbn [rbind]; [discriminate|].
    destruct (validate_json_verdict _ _ s u E) as [v ->].
    destruct (next_node N_validate_json (merge s (verdict_update s v)))
      as [e|n'] eqn:N; cbn [rbind]; [discriminate|].
    intros [= <-]. exists (verdict_update s v). cbn [state_of at_node].
    repeat split; [now apply by_validate | exact N].
  - unfold bind, get_state, liftR. cbn [wstate].
    unfold Workflow.json_format_correction_agent.
    fold (correction_request s).
    destruct (model_invoke (correction_request s)) as [e|r] eqn:E;
      cbn [rbind next_node]; [discriminate|].
    intros [= <-]. eexists. cbn [state_of at_node].
    split; [apply (by_correction s t r E)|]. split; reflexivity.
  - fold aggregator_node.
    destruct (aggregator_node (mkWorld [] s t)) as [[e|u] w] eqn:E;
      cbn [rbind next_node]; [discriminate|].
    intros [= <-]. exists u. cbn [state_of at_node].
    eauto using aggregator_node_produces.
Qed.

(** ** The histories along a run *)

(** The text awaiting validation is the generator's latest answer, which is
    also the last message of the conversation. *)
Definition last_output (s : State) : Prop :=
  exists earlier out msgs,
    history_generator s = (earlier ++ [out])%list
    /\ generated_schema s = GenText out
    /\ message_history s = (msgs ++ [mkMessage "assistant" out])%list.

Definition nothing_aggregated (s : State) : Prop :=
  output_json s = None /\ schema_fidelity s = None
  /\ locked_field_equality s = None /\ changed_fields s = None.

Definition aggregated (s : State) : Prop :=
  exists output fidelity verdict diff,
    output_json s = Some output
    /\ schema_fidelity s = Some fidelity
    /\ (fidelity = "PASS" \/ fidelity = "FAIL")
    /\ locked_field_equality s = Some verdict
    /\ (verdict = "PASS" \/ verdict = "FAIL")
    /\ changed_fields s = Some diff
    /\ simulation_duration s
       = float_sub (simulation_end_time s) (simulation_start_time s).

(** Where the histories and the counter stand at each node. *)
Definition Hist (c : Config) : Prop :=
  let s := state_of c in
  let n := num_retries s in
  let g := Z.of_nat (List.length (history_generator s)) in
  let e := Z.of_nat (List.length (history_evaluator s)) in
  List.length (message_history s) = (2 * List.length (history_generator s))%nat
  /\ match at_node c with
     | N_recontextualize_agent =>
         g = 0 /\ e = 0 /\ n = 0
         /\ evaluator_message s <> "PASS" /\ nothing_aggregated s
     | N_validate_json =>
         g = n + 1 /\ e = n
         /\ evaluator_message s <> "PASS" /\ nothing_aggregated s
         /\ last_output s /\ simulation_start_time s = clock 0
     | N_json_format_correction =>
         g = n /\ e = n
         /\ evaluator_message s <> "PASS" /\ nothing_aggregated s
         /\ last_output s /\ simulation_start_time s = clock 0
     | N_aggregator_node =>
         g = n + 1 /\ e = n + 1 /\ n < MAX_RETRIES
         /\ evaluator_message s = "PASS" /\ nothing_aggregated s
         /\ last_output s /\ simulation_start_time s = clock 0
     | N_END =>
         last_output s /\ simulation_start_time s = clock 0
         /\ ((evaluator_message s = "PASS" /\ g = n + 1 /\ e = n + 1
              /\ n < MAX_RETRIES /\ aggregated s)
             \/ (evaluator_message s <> "PASS" /\ n = MAX_RETRIES
                 /\ g = n /\ e = n /\ nothing_aggregated s))
     end.

Lemma last_output_snoc (s : State) (hg : list string) (mh : list Message)
    (out : string) :
  history_generator s = (hg ++ [out])%list ->
  generated_schema s = GenText out ->
  message_history s = (mh ++ [mkMessage "assistant" out])%list ->
  last_output s.
Proof. intros. now exists hg, out, mh. Qed.

Lemma step_Hist (c c' : Config) :
  readings c = 0%nat \/ at_node c <> N_recontextualize_agent ->
  Inv c -> Hist c -> step c = inr c' -> Hist c'.
Proof.
  intros Hr [B W] [L H] E.
  destruct (step_produced c c' E) as [[_ ->]|(u & P & Es & En)];
    [now split|].
  destruct c as [n s t], c' as [n' s' t'].
  cbn [at_node state_of readings] in *. subst s'.
  inversion P; subst; clear P.
  - (* recontextualize_agent *)
    injection En as <-. destruct Hr as [->|Hr]; [|contradiction].
    destruct H as (Hg & He & Hn & Hm & Hnone).
    unfold Hist, first_request. cbn [at_node state_of].
    destruct s; unfold nothing_aggregated in *;
      cbn [merge fold_left assign history_generator history_evaluator
           message_history num_retries evaluator_message generated_schema
           output_json schema_fidelity locked_field_equality changed_fields
           simulation_start_time] in *.
    rewrite !length_app in *. cbn [List.length] in *.
    repeat split; try lia; try tauto.
    eapply last_output_snoc; reflexivity.
  - (* validate_json *)
    pose proof (merge_verdict s v) as M.
    pose proof (route_after_verdict s v) as R.
    cbn [next_node] in En. rewrite R in En. cbn [awaits_validation] in W.
    specialize (W eq_refl).
    destruct H as (Hg & He & Hm & Hnone & Hlast & Hstart).
    assert (K : history_generator (merge s (verdict_update s v))
                = history_generator s
                /\ message_history (merge s (verdict_update s v))
                   = message_history s
                /\ generated_schema (merge s (verdict_update s v))
                   = generated_schema s
                /\ simulation_start_time (merge s (verdict_update s v))
                   = simulation_start_time s
                /\ List.length (history_evaluator (merge s (verdict_update s v)))
                   = S (List.length (history_evaluator s))
                /\ (nothing_aggregated s ->
                    nothing_aggregated (merge s (verdict_update s v)))).
    { destruct s, v; cbn; rewrite length_app; cbn [List.length];
        repeat split; try lia; auto;
        match goal with
        | A : nothing_aggregated _ |- _ =>
            destruct A as (? & ? & ? & ?); assumption
        end. }
    destruct K as (Kg & Km & Kgs & Kst & Ke & Kn).
    assert (Hlast' : last_output (merge s (verdict_update s v))).
    { destruct Hlast as (a & o & m & X & Y & Z).
      exists a, o, m. now rewrite Kg, Kgs, Km. }
    unfold Hist. cbn [at_node state_of]. rewrite Kg, Km, Ke, Kst.
    split; [exact L|].
    assert (F : forall m : State,
               (evaluator_message m =? "PASS")%string = false ->
               evaluator_message m <> "PASS")
      by (intros m X; now apply String.eqb_neq).
    destruct (Kn Hnone) as (N1 & N2 & N3 & N4).
    destruct v as [|message|message]; destruct M as [Mn Mm]; rewrite Mn.
    + cbn in En. injection En as <-. repeat split; auto; lia.
    + apply F in Mm.
      destruct (num_retries s + 1 >=? MAX_RETRIES) eqn:G;
        cbn in En; injection En as <-.
      * apply Z.geb_le in G. repeat split; auto.
        right. repeat split; auto; lia.
      * rewrite Z.geb_leb in G. apply Z.leb_gt in G.
        repeat split; auto; lia.
    + apply F in Mm.
      destruct (num_retries s + 1 >=? MAX_RETRIES) eqn:G;
        cbn in En; injection En as <-.
      * apply Z.geb_le in G. repeat split; auto.
        right. repeat split; auto; lia.
      * rewrite Z.geb_leb in G. apply Z.leb_gt in G.
        repeat split; auto; lia.
  - (* json_format_correction_agent *)
    injection En as <-.
    destruct H as (Hg & He & Hm & Hnone & Hlast & Hstart).
    unfold Hist. cbn [at_node state_of].
    destruct s; unfold nothing_aggregated in *;
      cbn [merge fold_left assign history_generator history_evaluator
           message_history num_retries evaluator_message generated_schema
           output_json schema_fidelity locked_field_equality changed_fields
           simulation_start_time] in *.
    rewrite !length_app in *. cbn [List.length] in *.
    repeat split; try lia; try tauto.
    eapply (last_output_snoc _ _ (_ ++ [_])%list).
    + reflexivity.
    + reflexivity.
    + cbn [message_history]. rewrite <- app_assoc. reflexivity.
  - (* aggregator_node *)
    injection En as <-.
    destruct H as (Hg & He & Hlt & Hm & Hnone & Hlast & Hstart).
    unfold Hist. cbn [at_node state_of].
    assert (Hlast' : last_output (merge s
              [Set_schema_fidelity fidelity; Set_locked_field_equality verdict;
               Set_output_json output; Set_simulation_end_time (clock k);
               Set_simulation_duration
                 (float_sub (clock k) (simulation_start_time s));
               Set_changed_fields diff])).
    { destruct Hlast as (a & o & m & X & Y & Z).
      exists a, o, m. destruct s; cbn in *. auto. }
    split; [destruct s; exact L|].
    split; [exact Hlast'|]. split; [destruct s; exact Hstart|].
    left. destruct s; cbn in *. repeat split; auto.
    exists output, fidelity, verdict, diff. cbn. repeat split; auto.
Qed.

(** The first node runs once, on the first clock reading. *)
Definition fresh_start (c : Config) : Prop :=
  readings c = 0%nat \/ at_node c <> N_recontextualize_agent.

Lemma next_node_total (n : Node) (s : State) :
  exists n', next_node n s = inr n' /\ n' <> N_recontextualize_agent.
Proof.
  destruct n; cbn [next_node]; try (eexists; split; [reflexivity|discriminate]).
  unfold route_after_validation.
  destruct (evaluator_message s =? "PASS")%string;
    [|destruct (num_retries s >=? MAX_RETRIES)];
    cbn; eexists; (split; [reflexivity|discriminate]).
Qed.

Lemma step_fresh_start (c c' : Config) :
  fresh_start c -> step c = inr c' -> fresh_start c'.
Proof.
  intros F E.
  destruct (step_produced c c' E) as [[_ ->]|(u & _ & _ & En)]; [exact F|].
  destruct (next_node_total (at_node c) (merge (state_of c) u))
    as (n' & En' & Hn').
  rewrite En in En'. injection En' as <-. now right.
Qed.

Lemma reachable_Hist (c : Config) :
  reachable c -> Inv c /\ Hist c /\ fresh_start c.
Proof.
  induction 1 as [a b j|c c' R (I & H & F) E].
  - split; [|split].
    + unfold Inv. cbn. unfold MAX_RETRIES. split; [lia|]. intros _. lia.
    + unfold Hist, nothing_aggregated. cbn. repeat split; auto. discriminate.
    + now left.
  - split; [|split].
    + exact (proj1 (step_spec _ _ _ _ _ _ _ _ c c' I E)).
    + exact (step_Hist c c' F I H E).
    + exact (step_fresh_start c c' F E).
Qed.

(** ** Termination *)

(** A bound on the supersteps still to come. *)
Definition supersteps_left (c : Config) : nat :=
  match at_node c with
  | N_recontextualize_agent => 7
  | N_validate_json => 2 * Z.to_nat (MAX_RETRIES - num_retries (state_of c))
  | N_json_format_correction =>
      2 * Z.to_nat (MAX_RETRIES - num_retries (state_of c)) + 1
  | N_aggregator_node => 1
  | N_END => 0
  end.

Lemma step_decreases (c c' : Config) :
  Inv c -> step c = inr c' -> at_node c <> N_END ->
  (supersteps_left c' < supersteps_left c)%nat.
Proof.
  intros [B W] E Hn.
  destruct (step_produced c c' E) as [[X _]|(u & P & Es & En)];
    [contradiction|].
  destruct c as [n s t], c' as [n' s' t'].
  cbn [at_node state_of readings] in *. subst s'.
  unfold supersteps_left. cbn [at_node state_of].
  inversion P; subst; clear P; cbn [awaits_validation] in W.
  - injection En as <-. specialize (W eq_refl).
    replace (num_retries (merge s _)) with (num_retries s)
      by (destruct s; reflexivity).
    unfold MAX_RETRIES in *. lia.
  - pose proof (merge_verdict s v) as M.
    pose proof (route_after_verdict s v) as R.
    cbn [next_node] in En. rewrite R in En. specialize (W eq_refl).
    destruct v as [|message|message]; destruct M as [Mn Mm];
      [cbn in En; injection En as <-; unfold MAX_RETRIES in *; lia| |];
      (destruct (num_retries s + 1 >=? MAX_RETRIES) eqn:G;
       cbn in En; injection En as <-;
       [unfold MAX_RETRIES in *; lia|];
       rewrite Mn; rewrite Z.geb_leb in G; apply Z.leb_gt in G;
       unfold MAX_RETRIES in *; lia).
  - injection En as <-. specialize (W eq_refl).
    replace (num_retries (merge s _)) with (num_retries s)
      by (destruct s; reflexivity).
    unfold MAX_RETRIES in *. lia.
  - injection En as <-. lia.
Qed.

Lemma run_from_END (k : nat) (c : Config) :
  at_node c = N_END -> run k c = inr c.
Proof.
  intros H. induction k as [|k IH]; [reflexivity|].
  cbn [run Workflow.run]. unfold Workflow.step. rewrite H. cbn [rbind].
  exact IH.
Qed.

Lemma run_add (k l : nat) (c : Config) :
  run (k + l) c = rbind (run k c) (run l).
Proof.
  revert c. induction k as [|k IH]; intros c; [reflexivity|].
  cbn [Nat.add run Workflow.run]. fold run.
  destruct (Workflow.step _ _ _ _ _ _ _ _ c) as [e|c1]; cbn [rbind];
    [reflexivity|apply IH].
Qed.

Lemma run_reaches_END (k : nat) (c : Config) :
  Inv c -> (supersteps_left c <= k)%nat ->
  (exists e, run k c = inl e)
  \/ (exists c', run k c = inr c' /\ at_node c' = N_END).
Proof.
  revert c. induction k as [|k IH]; intros c I Hk.
  - right. exists c. split; [reflexivity|].
    destruct I as [B W]. unfold supersteps_left in Hk.
    destruct (at_node c); cbn [awaits_validation] in W;
      try specialize (W eq_refl); unfold MAX_RETRIES in *; try lia.
    reflexivity.
  - cbn [run Workflow.run]. fold step. fold run.
    destruct (step c) as [e|c1] eqn:E; cbn [rbind].
    + left. now exists e.
    + apply IH.
      * exact (proj1 (step_spec _ _ _ _ _ _ _ _ c c1 I E)).
      * destruct c as [n s t]. destruct n;
          try (assert (D := step_decreases _ _ I E); cbn [at_node] in D;
               assert (D' := D ltac:(discriminate)); lia).
        unfold step, Workflow.step in E. cbn [at_node] in E.
        injection E as <-. cbn in *. lia.
Qed.

(** X1.  A run never loops: seven supersteps from the initial state either
    end by an exception of a node or arrive at [END], and supersteps beyond
    the seventh change nothing. *)
Theorem run_ends_within_seven_supersteps
    (current_scenario new_scenario : string) (scenario_json : JSON) (k : nat) :
  let start := initial_config current_scenario new_scenario scenario_json in
  run (7 + k) start = run 7 start
  /\ ((exists e, run 7 start = inl e)
      \/ (exists c, run 7 start = inr c /\ at_node c = N_END)).
Proof.
  intros start.
  assert (I : Inv start).
  { unfold Inv. cbn. unfold MAX_RETRIES. split; [lia|]. intros _. lia. }
  destruct (run_reaches_END 7 start I) as [[e E]|(c & E & H)].
  - cbn. lia.
  - split; [|left; now exists e]. rewrite run_add, E. reflexivity.
  - split; [|right; now exists c].
    rewrite run_add, E. cbn [rbind]. rewrite run_from_END by exact H.
    reflexivity.
Qed.

(** ** How a run ends *)

(** X2.  A run that has arrived at [END] has either passed validation with
    fewer than [MAX_RETRIES] failures and been aggregated, with both
    verdicts of the aggregator, the output document, the diff and a duration
    measured from the first clock reading of the run; or it has failed
    validation [MAX_RETRIES] times and holds no output document, no verdict
    of the aggregator and no diff. *)
Theorem run_outcome (c : Config) :
  reachable c -> at_node c = N_END ->
  let s := state_of c in
  simulation_start_time s = clock 0
  /\ ((evaluator_message s = "PASS" /\ num_retries s < MAX_RETRIES
       /\ aggregated s)
      \/ (evaluator_message s <> "PASS" /\ num_retries s = MAX_RETRIES
          /\ nothing_aggregated s)).
Proof.
  intros R E s. destruct (reachable_Hist c R) as (_ & [_ H] & _).
  rewrite E in H. destruct H as (_ & Hs & [H|H]); (split; [exact Hs|]);
    [left|right]; tauto.
Qed.

(** X3.  The generator is called at most [MAX_RETRIES] times in a run: the
    answers recorded never exceed that number, the conversation holds
    exactly one request and one answer per call, and the validator has
    given one verdict per answer, bar the answer still awaiting its
    verdict. *)
Theorem generator_calls_bounded (c : Config) :
  reachable c ->
  let s := state_of c in
  let answers := List.length (history_generator s) in
  let verdicts := List.length (history_evaluator s) in
  Z.of_nat answers <= MAX_RETRIES
  /\ List.length (message_history s) = (2 * answers)%nat
  /\ (verdicts <= answers <= verdicts + 1)%nat
  /\ (at_node c = N_END -> verdicts = answers).
Proof.
  intros R s answers verdicts.
  destruct (reachable_Hist c R) as ([B W] & [L H] & _).
  subst answers verdicts s. split; [|split; [exact L|]];
    destruct (at_node c); cbn [awaits_validation] in W;
    try specialize (W eq_refl); unfold MAX_RETRIES in *;
    try (split; [|intros; try discriminate]); try lia;
    destruct H as (_ & _ & [H|H]); lia.
Qed.

(** X4.  What the validator and the aggregator are about to read is the
    generator's latest answer, which is also the last message of the
    conversation; the aggregator runs only on a PASS verdict, the correcting
    node only on another verdict and below the retry limit. *)
Theorem nodes_read_latest_answer (c : Config) :
  reachable c ->
  (at_node c = N_validate_json -> last_output (state_of c))
  /\ (at_node c = N_aggregator_node ->
      last_output (state_of c) /\ evaluator_message (state_of c) = "PASS")
  /\ (at_node c = N_json_format_correction ->
      last_output (state_of c) /\ evaluator_message (state_of c) <> "PASS"
      /\ num_retries (state_of c) < MAX_RETRIES).
Proof.
  intros R. destruct (reachable_Hist c R) as ([B W] & [L H] & _).
  split; [|split]; intros E; rewrite E in H, W; cbn [awaits_validation] in W.
  - tauto.
  - tauto.
  - specialize (W eq_refl). tauto.
Qed.

(** ** What a superstep leaves alone *)

Definition extends {A} (l l' : list A) : Prop := exists t, l' = (l ++ t)%list.

Lemma extends_refl {A} (l : list A) : extends l l.
Proof. exists []. now rewrite app_nil_r. Qed.

Lemma extends_trans {A} (l1 l2 l3 : list A) :
  extends l1 l2 -> extends l2 l3 -> extends l1 l3.
Proof. intros [t ->] [t' ->]. exists (t ++ t')%list. now rewrite app_assoc. Qed.

(** The inputs of the run are kept and the three histories only grow. *)
Definition carries_on (s s' : State) : Prop :=
  current_scenario_option s' = current_scenario_option s
  /\ new_scenario_option s' = new_scenario_option s
  /\ current_scenario_example_json s' = current_scenario_example_json s
  /\ extends (history_generator s) (history_generator s')
  /\ extends (history_evaluator s) (history_evaluator s')
  /\ extends (message_history s) (message_history s').

Lemma carries_on_refl (s : State) : carries_on s s.
Proof. repeat split; apply extends_refl. Qed.

Lemma carries_on_trans (s1 s2 s3 : State) :
  carries_on s1 s2 -> carries_on s2 s3 -> carries_on s1 s3.
Proof.
  intros (A1 & A2 & A3 & A4 & A5 & A6) (B1 & B2 & B3 & B4 & B5 & B6).
  repeat split; try congruence; eauto using extends_trans.
Qed.

Lemma step_carries_on (c c' : Config) :
  step c = inr c' -> carries_on (state_of c) (state_of c').
Proof.
  intros E.
  destruct (step_produced c c' E) as [[_ ->]|(u & P & -> & _)];
    [apply carries_on_refl|].
  set (s := state_of c) in *. clearbody s. unfold carries_on.
  inversion P; subst; clear P; try destruct v; unfold first_request;
    destruct s; cbn; repeat split; try apply extends_refl;
    try (eexists; reflexivity);
    eexists; rewrite <- app_assoc; reflexivity.
Qed.

(** X5.  However many supersteps are taken, the two scenario texts and the
    example document are as they were given, and nothing is removed from or
    changed in the generator's history, the validator's history or the
    conversation: each is the earlier one with entries added at its end. *)
Theorem run_carries_on (k : nat) (c c' : Config) :
  run k c = inr c' -> carries_on (state_of c) (state_of c').
Proof.
  revert c. induction k as [|k IH]; intros c.
  - intros [= <-]. apply carries_on_refl.
  - cbn [run Workflow.run]. fold step. fold run.
    destruct (step c) as [e|c1] eqn:E; cbn [rbind]; [discriminate|].
    intros H. eapply carries_on_trans; [exact (step_carries_on c c1 E)|].
    apply IH, H.
Qed.

(** A superstep arrives at the correcting node only from a validation
    that failed, whose message it finds in the state. *)
Lemma step_to_correction (c c' : Config) :
  step c = inr c' -> at_node c' = N_json_format_correction ->
  exists message,
    history_evaluator (state_of c')
    = (history_evaluator (state_of c) ++ [message])%list
    /\ (evaluator_message (state_of c')
        = "JSON Schema Validation FAILED: " ++ message
        \/ evaluator_message (state_of c') = "JSON Parse Error: " ++ message).
Proof.
  intros E H.
  destruct (step_produced c c' E) as [[X ->]|(u & P & Es & En)];
    [congruence|].
  rewrite H in En. rewrite Es. set (s := state_of c) in *. clearbody s.
  inversion P as [subset r E1 E2 Hn Hu|v E1 Hn Hu|r E1 Hn Hu
                 |f l o d k Hf Hl Hn Hu]; subst u;
    rewrite <- Hn in En; cbn [next_node] in En; try discriminate En.
  rewrite route_after_verdict in En.
  destruct v as [|message|message]; [discriminate En| |];
    exists message; destruct s; cbn; auto.
Qed.

(** What a PASS of the validator has checked. *)
Definition validated (s : State) : Prop :=
  exists text schema v,
    generated_schema s = GenText text
    /\ validation_schema s = Some schema
    /\ json_repair_loads (_remove_markdown_code_blocks text) = inr v
    /\ jsonschema_validate v schema = inr tt.

Lemma validate_json_pass (s : State) :
  validate_json s = inr (verdict_update s PASS) -> validated s.
Proof.
  unfold validate_json, Workflow.validate_json, validate_json_try.
  destruct (generated_schema s) as [text|parsed] eqn:G;
    cbn [generated_text rbind raise]; [|discriminate].
  destruct (json_repair_loads (_remove_markdown_code_blocks text))
    as [e|v] eqn:L; cbn [rbind]; [destruct e; discriminate|].
  destruct (validation_schema s) as [schema|] eqn:V;
    cbn [raise]; [|discriminate].
  destruct (jsonschema_validate v schema) as [e|[]] eqn:J;
    [destruct e; discriminate|].
  intros _. now exists text, schema, v.
Qed.

(** X15.  The aggregator runs only on an answer that the validator has
    accepted: when it is about to run, the text in the state is one whose
    sanitized form parses to a value that passes the schema in the state. *)
Theorem aggregated_text_was_validated (c : Config) :
  reachable c -> at_node c = N_aggregator_node -> validated (state_of c).
Proof.
  intros R H. destruct R as [a b j|c0 c R E]; [discriminate H|].
  destruct (step_produced c0 c E) as [[X ->]|(u & P & Es & En)];
    [congruence|].
  rewrite H in En. rewrite Es. set (s := state_of c0) in *. clearbody s.
  inversion P as [subset r E1 E2 Hn Hu|v E1 Hn Hu|r E1 Hn Hu
                 |f l o d k Hf Hl Hn Hu]; subst u;
    rewrite <- Hn in En; cbn [next_node] in En; try discriminate En.
  rewrite route_after_verdict in En.
  destruct v as [|message|message];
    [|destruct (num_retries s + 1 >=? MAX_RETRIES); discriminate En..].
  destruct (validate_json_pass s E1) as (text & schema & v & G & V & L & J).
  exists text, schema, v. destruct s; cbn in *. auto.
Qed.

(** ** Where a run can fail *)

(** X6.  The graph itself never fails: when a superstep raises, the
    exception is the one the node raised; in particular the route chosen
    after a validation is always one of the three that the conditional
    edges map. *)
Theorem step_fails_only_in_node (c : Config) (e : exn) :
  step c = inl e ->
  fst (run_node (at_node c) (mkWorld [] (state_of c) (readings c))) = inl e.
Proof.
  unfold step, Workflow.step. destruct c as [n s t].
  cbn [at_node state_of readings]. fold run_node.
  destruct n; try discriminate;
    match goal with
    | |- context [run_node ?n ?w] =>
        destruct (run_node n w) as [[e'|u] w'] eqn:E
    end; cbn [rbind fst]; try (intros [= <-]; reflexivity);
    match goal with
    | |- context [next_node ?n ?s] =>
        destruct (next_node_total n s) as (n' & -> & _)
    end; discriminate.
Qed.

Definition schema_set (c : Config) : Prop :=
  at_node c <> N_recontextualize_agent -> validation_schema (state_of c) <> None.

Lemma reachable_schema_set (c : Config) : reachable c -> schema_set c.
Proof.
  induction 1 as [a b j|c c' R IH E]; [intros H; now contradiction H|].
  intros _.
  destruct (step_produced c c' E) as [[X ->]|(u & P & -> & En)].
  - apply IH. rewrite X. discriminate.
  - unfold schema_set in IH. set (s := state_of c) in *. clearbody s.
    inversion P as [subset r E1 E2 Hn Hu|v E1 Hn Hu|r E1 Hn Hu
                   |f l o d k Hf Hl Hn Hu]; subst u;
      rewrite <- Hn in IH; try destruct v;
      destruct s; cbn in *; try discriminate; apply IH; discriminate.
Qed.

(** X7.  In a run the validator never raises, provided the parser fails
    only by a decode error and the schema check only by a validation error:
    the superstep at [validate_json] always succeeds, since by then the
    schema is in the state and the text to validate is a string. *)
Theorem validation_never_raises (c : Config) :
  parser_contract json_repair_loads ->
  validator_contract jsonschema_validate ->
  reachable c -> at_node c = N_validate_json ->
  exists c', step c = inr c'.
Proof.
  intros Hp Hv R E.
  pose proof (reachable_schema_set c R) as S.
  destruct (reachable_Hist c R) as (_ & [_ H] & _).
  unfold schema_set in S. rewrite E in S, H.
  specialize (S ltac:(discriminate)).
  destruct H as (_ & _ & _ & _ & (a & out & m & _ & Hg & _) & _).
  unfold step, Workflow.step. destruct c as [n s t].
  cbn [at_node state_of readings] in *. subst n.
  cbn [Workflow.run_node]. unfold bind, get_state, liftR. cbn [wstate].
  assert (V : exists u, Workflow.validate_json json_repair_loads
                          jsonschema_validate s = inr u).
  { unfold Workflow.validate_json, validate_json_try. rewrite Hg.
    cbn [generated_text rbind].
    destruct (validation_schema s) as [schema|]; [|contradiction].
    destruct (json_repair_loads _) as [e|v] eqn:E1.
    - destruct (Hp _ _ E1) as [msg ->]. eexists. reflexivity.
    - cbn [rbind]. destruct (jsonschema_validate v schema) as [e|[]] eqn:E2.
      + destruct (Hv _ _ _ E2) as [msg ->]. eexists. reflexivity.
      + eexists. reflexivity. }
  destruct V as [u ->]. cbn [rbind].
  destruct (next_node_total N_validate_json (merge s u)) as (n' & -> & _).
  cbn [rbind]. eexists. reflexivity.
Qed.

End Run.

(** ** The scripted scenarios as instances *)

Lemma scenario_reachable (answers : list string) (n : nat) (c : Config) :
  Scenarios.scenario answers n = inr c ->
  reachable (Stubs.scripted answers) Scenarios.parse Stubs.validate
            Stubs.diff_ok Stubs.file Stubs.clock
            Stubs.recontextualization_prompt Stubs.correction_prompt c.
Proof.
  intros H. eapply run_reachable; [apply reach_start|exact H].
Qed.

Lemma run_outcome_witness :
  exists c,
    Scenarios.scenario [Scenarios.valid_answer] 3 = inr c
    /\ at_node c = N_END
    /\ simulation_start_time (state_of c) = Stubs.clock 0
    /\ ((evaluator_message (state_of c) = "PASS"
         /\ num_retries (state_of c) < MAX_RETRIES
         /\ aggregated (state_of c))
        \/ (evaluator_message (state_of c) <> "PASS"
            /\ num_retries (state_of c) = MAX_RETRIES
            /\ nothing_aggregated (state_of c))).
Proof.
  eexists. split; [vm_compute; reflexivity|]. split; [reflexivity|].
  apply (run_outcome (Stubs.scripted [Scenarios.valid_answer]) Scenarios.parse
           Stubs.validate Stubs.diff_ok Stubs.file Stubs.clock
           Stubs.recontextualization_prompt Stubs.correction_prompt).
  - apply scenario_reachable with (n := 3%nat). vm_compute. reflexivity.
  - reflexivity.
Defined.

Lemma generator_calls_bounded_witness :
  exists c,
    Scenarios.scenario ["oops"; "oops"; "oops"] 6 = inr c
    /\ Z.of_nat (List.length (history_generator (state_of c))) <= MAX_RETRIES
    /\ List.length (message_history (state_of c))
       = (2 * List.length (history_generator (state_of c)))%nat
    /\ (List.length (history_evaluator (state_of c))
        <= List.length (history_generator (state_of c))
        <= List.length (history_evaluator (state_of c)) + 1)%nat
    /\ (at_node c = N_END ->
        List.length (history_evaluator (state_of c))
        = List.length (history_generator (state_of c))).
Proof.
  eexists. split; [vm_compute; reflexivity|].
  apply (generator_calls_bounded (Stubs.scripted ["oops"; "oops"; "oops"])
           Scenarios.parse Stubs.validate Stubs.diff_ok Stubs.file Stubs.clock
           Stubs.recontextualization_prompt Stubs.correction_prompt).
  apply scenario_reachable with (n := 6%nat). vm_compute. reflexivity.
Defined.

Lemma nodes_read_latest_answer_witness :
  exists c,
    Scenarios.scenario ["[]"; Scenarios.valid_answer] 4 = inr c
    /\ at_node c = N_aggregator_node
    /\ last_output (state_of c)
    /\ evaluator_message (state_of c) = "PASS".
Proof.
  eexists. split; [vm_compute; reflexivity|]. split; [reflexivity|].
  apply (nodes_read_latest_answer
           (Stubs.scripted ["[]"; Scenarios.valid_answer])
           Scenarios.parse Stubs.validate Stubs.diff_ok Stubs.file Stubs.clock
           Stubs.recontextualization_prompt Stubs.correction_prompt).
  - apply scenario_reachable with (n := 4%nat). vm_compute. reflexivity.
  - reflexivity.
Defined.

Lemma run_carries_on_witness :
  exists c,
    Scenarios.scenario ["[]"; Scenarios.valid_answer] 5 = inr c
    /\ carries_on (state_of Scenarios.start) (state_of c).
Proof.
  eexists. split; [vm_compute; reflexivity|].
  apply (run_carries_on (Stubs.scripted ["[]"; Scenarios.valid_answer])
           Scenarios.parse Stubs.validate Stubs.diff_ok Stubs.file Stubs.clock
           Stubs.recontextualization_prompt Stubs.correction_prompt 5).
  vm_compute. reflexivity.
Defined.

Lemma aggregated_text_was_validated_witness :
  exists c,
    Scenarios.scenario ["[]"; Scenarios.valid_answer] 4 = inr c
    /\ at_node c = N_aggregator_node
    /\ validated Scenarios.parse Stubs.validate (state_of c).
Proof.
  eexists. split; [vm_compute; reflexivity|]. split; [reflexivity|].
  apply (aggregated_text_was_validated
           (Stubs.scripted ["[]"; Scenarios.valid_answer])
           Scenarios.parse Stubs.validate Stubs.diff_ok Stubs.file Stubs.clock
           Stubs.recontextualization_prompt Stubs.correction_prompt).
  - apply scenario_reachable with (n := 4%nat). vm_compute. reflexivity.
  - reflexivity.
Defined.

(** An example document that is no object makes the first node raise. *)
Lemma step_fails_only_in_node_witness :
  let c := initial_config "old" "new" JNull in
  Workflow.step (Stubs.scripted []) Scenarios.parse Stubs.validate
                Stubs.diff_ok Stubs.file Stubs.clock
                Stubs.recontextualization_prompt Stubs.correction_prompt c
  = inl (AttributeError "get")
  /\ fst (Workflow.run_node (Stubs.scripted []) Scenarios.parse Stubs.validate
                            Stubs.diff_ok Stubs.file Stubs.clock
                            Stubs.recontextualization_prompt
                            Stubs.correction_prompt
                            (at_node c) (mkWorld [] (state_of c) (readings c)))
     = inl (AttributeError "get").
Proof.
  intros c. split; [reflexivity|].
  apply (step_fails_only_in_node (Stubs.scripted []) Scenarios.parse
           Stubs.validate Stubs.diff_ok Stubs.file Stubs.clock
           Stubs.recontextualization_prompt Stubs.correction_prompt c).
  reflexivity.
Defined.

Lemma validation_never_raises_witness :
  exists c,
    Scenarios.scenario ["oops"] 1 = inr c
    /\ at_node c = N_validate_json
    /\ exists c',
         Workflow.step (Stubs.scripted ["oops"]) Scenarios.parse Stubs.validate
                       Stubs.diff_ok Stubs.file Stubs.clock
                       Stubs.recontextualization_prompt
                       Stubs.correction_prompt c
         = inr c'.
Proof.
  eexists. split; [vm_compute; reflexivity|]. split; [reflexivity|].
  apply (validation_never_raises (Stubs.scripted ["oops"]) Scenarios.parse
           Stubs.validate Stubs.diff_ok Stubs.file Stubs.clock
           Stubs.recontextualization_prompt Stubs.correction_prompt).
  - apply Scenarios.parse_contract.
  - apply Scenarios.validate_contract.
  - apply scenario_reachable with (n := 1%nat). vm_compute. reflexivity.
  - reflexivity.
Defined.

End RunProps.

(* ================================================================== *)
(** * Aggregator: what it returns and where it fails *)
(* ================================================================== *)

Module AggregatorRuns.
Import PyStr Json JsonFacts SchemaModel Workflow AggregatorProps.
Local Open Scope string_scope.
Local Open Scope Z_scope.

Section Returns.

Variable json_repair_loads : string -> result JSON.
Variable jsonschema_validate : JSON -> Schema -> result unit.
Variable DeepDiff : JSON -> JSON -> result JSON.
Variable json_load_file : string -> result JSON.
Variable clock : nat -> spec_float.

Let aggregator_node :=
  aggregator_node json_repair_loads jsonschema_validate DeepDiff
                  json_load_file clock.

(** The dict of lines 338-345, for a run entered at clock reading [t]. *)
Definition aggregated_update (s : State) (t : nat) (fidelity verdict : string)
    (merged diff : JSON) : Update :=
  [ Set_schema_fidelity fidelity;
    Set_locked_field_equality verdict;
    Set_output_json merged;
    Set_simulation_end_time (clock (S t));
    Set_simulation_duration
      (float_sub (clock (S t)) (simulation_start_time s));
    Set_changed_fields diff ].

(** The schema the aggregator infers, from the whole original document. *)
Definition fidelity_schema (d : Dict) : Schema :=
  to_schema (add_object SchemaBuilder (JObject d)).

Lemma aggregator_node_result (s : State) (t : nat) (d twd fragment : Dict)
    (old : JSON) (text : string) :
  json_load_file "problem_statement/POC_sim_D.json" = inr (JObject d) ->
  dict_get "topicWizardData" d = Some (JObject twd) ->
  dict_get "scenarioOptions" twd = Some old ->
  generated_schema s = GenText text ->
  json_repair_loads text = inr (JObject fragment) ->
  NoDup (keys fragment) ->
  let merged := merged_document s fragment twd d in
  let verdict :=
    if py_eq (merged_options fragment old) old then "PASS" else "FAIL" in
  let finish fidelity :=
    match DeepDiff (JObject d) merged with
    | inr diff => inr (aggregated_update s t fidelity verdict merged diff)
    | inl _ => inl (UnboundLocalError "simulation_duration")
    end in
  fst (aggregator_node (mkWorld [] s t))
  = match jsonschema_validate merged (fidelity_schema d) with
    | inr tt => finish "PASS"
    | inl (ValidationError _) => finish "FAIL"
    | inl e => inl e
    end.
Proof.
  intros Hfile Htwd Hold Hgen Hparse ND merged verdict finish.
  subst finish verdict merged. unfold fidelity_schema, aggregated_update.
  unfold aggregator_node, Workflow.aggregator_node.
  unfold bind at 1. cbn [time_time heap wstate ticks].
  unfold bind at 1. cbn [liftR]. rewrite Hfile.
  unfold bind at 1. cbn [alloc heap wstate ticks].
  unfold bind at 1. unfold deepcopy at 1. unfold bind at 1.
  cbn [load alloc heap wstate ticks List.length app nth].
  unfold bind at 1. cbn [get_state heap wstate ticks].
  unfold bind at 1. cbn [liftR loads]. rewrite Hgen.
  cbn [loads]. rewrite Hparse.
  unfold bind at 1. cbn [put_state heap wstate ticks].
  unfold bind at 1. cbn [get_state heap wstate ticks].
  unfold bind at 1. rewrite generated_schema_store.
  cbn [liftR dict_items].
  unfold bind at 1. rewrite (for_each_overwrite _ _ _ twd) by exact Htwd.
  unfold bind at 1. unfold setitem2_at at 1.
  unfold bind at 1 2 3, load, liftR, store, setitem2.
  cbn [nth heap wstate ticks]. rewrite dict_get_set_same.
  cbn [list_set]. rewrite dict_set_set.
  replace (new_scenario_option
             (store_generated_schema (GenParsed (JObject fragment)) s))
    with (new_scenario_option s) by (destruct s; reflexivity).
  replace (simulation_start_time
             (store_generated_schema (GenParsed (JObject fragment)) s))
    with (simulation_start_time s) by (destruct s; reflexivity).
  fold (merged_topic s fragment twd).
  fold (merged_document s fragment twd d).
  unfold try_except, getitem2_at.
  unfold bind, ret, time_time, liftR, load, getitem, local.
  cbn [heap nth wstate ticks].
  destruct (DeepDiff _ _) as [e|diff]; cbn [heap nth wstate ticks];
    destruct (jsonschema_validate _ _) as [[]|[]];
    cbn [raise fst]; try reflexivity;
    unfold merged_document;
    repeat (first [ rewrite dict_get_set_same
                  | rewrite (merged_topic_options s fragment twd old ND Hold)
                  | rewrite Htwd
                  | rewrite Hold ];
            cbn [heap nth wstate ticks raise fst]);
    reflexivity.
Qed.

Lemma aggregator_node_update (s : State) (t : nat) (d twd fragment : Dict)
    (old : JSON) (text : string) (u : Update) (w' : World) :
  json_load_file "problem_statement/POC_sim_D.json" = inr (JObject d) ->
  dict_get "topicWizardData" d = Some (JObject twd) ->
  dict_get "scenarioOptions" twd = Some old ->
  generated_schema s = GenText text ->
  json_repair_loads text = inr (JObject fragment) ->
  NoDup (keys fragment) ->
  aggregator_node (mkWorld [] s t) = (inr u, w') ->
  let merged := merged_document s fragment twd d in
  exists fidelity diff,
    DeepDiff (JObject d) merged = inr diff
    /\ ((fidelity = "PASS"
         /\ jsonschema_validate merged (fidelity_schema d) = inr tt)
        \/ (fidelity = "FAIL"
            /\ exists message,
                 jsonschema_validate merged (fidelity_schema d)
                 = inl (ValidationError message)))
    /\ u = aggregated_update s t fidelity
             (if py_eq (merged_options fragment old) old then "PASS" else "FAIL")
             merged diff.
Proof.
  intros Hfile Htwd Hold Hgen Hparse ND H merged.
  pose proof (aggregator_node_result s t d twd fragment old text
                Hfile Htwd Hold Hgen Hparse ND) as R.
  cbv zeta in R. fold merged in R. rewrite H in R. cbn [fst] in R.
  destruct (jsonschema_validate merged (fidelity_schema d)) as [e|[]] eqn:V;
    [destruct e; try discriminate R|];
    destruct (DeepDiff (JObject d) merged) as [e'|diff]; try discriminate R;
    injection R as ->.
  - exists "FAIL", diff. split; [reflexivity|]. split; [|reflexivity].
    right. split; [reflexivity|]. now exists message.
  - exists "PASS", diff. split; [reflexivity|]. split; [|reflexivity].
    left. split; reflexivity.
Qed.

(** X8.  The document the aggregator returns is the hard-coded original
    with only [topicWizardData] changed: every other top-level key keeps its
    value; under [topicWizardData], [selectedScenarioOption] is the new
    scenario whatever the fragment says, every other key of the fragment
    has the fragment's value, whether or not it is a key to extract, and
    every remaining key keeps the original's value. *)
Theorem aggregator_output_document (s : State) (t : nat)
    (d twd fragment : Dict) (old : JSON) (text : string) (u : Update)
    (w' : World) :
  json_load_file "problem_statement/POC_sim_D.json" = inr (JObject d) ->
  dict_get "topicWizardData" d = Some (JObject twd) ->
  dict_get "scenarioOptions" twd = Some old ->
  generated_schema s = GenText text ->
  json_repair_loads text = inr (JObject fragment) ->
  NoDup (keys fragment) ->
  aggregator_node (mkWorld [] s t) = (inr u, w') ->
  exists out topic,
    output_json (merge s u) = Some (JObject out)
    /\ (forall k, k <> "topicWizardData" -> dict_get k out = dict_get k d)
    /\ dict_get "topicWizardData" out = Some (JObject topic)
    /\ dict_get "selectedScenarioOption" topic
       = Some (JString (new_scenario_option s))
    /\ (forall k, k <> "selectedScenarioOption" ->
          dict_get k topic = match dict_get k fragment with
                             | Some v => Some v
                             | None => dict_get k twd
                             end).
Proof.
  intros Hfile Htwd Hold Hgen Hparse ND H.
  destruct (aggregator_node_update s t d twd fragment old text u w'
              Hfile Htwd Hold Hgen Hparse ND H)
    as (fidelity & diff & _ & _ & ->).
  exists (dict_set "topicWizardData" (JObject (merged_topic s fragment twd)) d),
         (merged_topic s fragment twd).
  split; [destruct s; reflexivity|].
  split; [intros k Hk; apply dict_get_set_other; congruence|].
  split; [apply dict_get_set_same|].
  unfold merged_topic. split; [apply dict_get_set_same|].
  intros k Hk. rewrite dict_get_set_other by congruence.
  apply dict_get_overwrite, ND.
Qed.

(** X9.  What the aggregator reports beside the document: the diff is the
    one between the original document and the merged one; the fidelity
    verdict is PASS exactly when the merged document passes the schema
    inferred from the whole original document, FAIL exactly when that check
    raises a validation error; the end time is the clock reading taken right
    after the diff, and the duration runs from the start time held in the
    state to that reading. *)
Theorem aggregator_verdicts_and_diff (s : State) (t : nat)
    (d twd fragment : Dict) (old : JSON) (text : string) (u : Update)
    (w' : World) :
  json_load_file "problem_statement/POC_sim_D.json" = inr (JObject d) ->
  dict_get "topicWizardData" d = Some (JObject twd) ->
  dict_get "scenarioOptions" twd = Some old ->
  generated_schema s = GenText text ->
  json_repair_loads text = inr (JObject fragment) ->
  NoDup (keys fragment) ->
  aggregator_node (mkWorld [] s t) = (inr u, w') ->
  let final := merge s u in
  let merged := merged_document s fragment twd d in
  (exists diff, DeepDiff (JObject d) merged = inr diff
                /\ changed_fields final = Some diff)
  /\ (schema_fidelity final = Some "PASS"
      <-> jsonschema_validate merged (fidelity_schema d) = inr tt)
  /\ (schema_fidelity final = Some "FAIL"
      <-> exists message,
            jsonschema_validate merged (fidelity_schema d)
            = inl (ValidationError message))
  /\ simulation_end_time final = clock (S t)
  /\ simulation_duration final
     = float_sub (clock (S t)) (simulation_start_time s).
Proof.
  intros Hfile Htwd Hold Hgen Hparse ND H final merged.
  destruct (aggregator_node_update s t d twd fragment old text u w'
              Hfile Htwd Hold Hgen Hparse ND H)
    as (fidelity & diff & D & V & ->).
  fold merged in D, V.
  assert (F : schema_fidelity final = Some fidelity)
    by (subst final; destruct s; reflexivity).
  split; [exists diff; split; [exact D|subst final; destruct s; reflexivity]|].
  rewrite F.
  split; [|split; [|split; subst final; destruct s; reflexivity]].
  - destruct V as [[-> V]|[-> [m V]]]; rewrite V; split; try reflexivity;
      discriminate.
  - destruct V as [[-> V]|[-> [m V]]]; rewrite V; split; try reflexivity;
      try discriminate.
    + intros [m' X]. discriminate X.
    + intros _. now exists m.
Qed.

(** The aggregator's only handlers are for the diff and for a validation
    error; everything before them ends the run. *)
Lemma for_each_first_fails {A} (x : A) (l : list A) (body : A -> M unit)
    (w w1 : World) (e : exn) :
  body x w = (inl e, w1) -> for_each (x :: l) body w = (inl e, w1).
Proof. intros H. cbn [for_each]. unfold bind. now rewrite H. Qed.

(** Runs the aggregator up to the parsing of the generator's text. *)
Ltac parse_generated Hfile Hgen :=
  unfold aggregator_node, Workflow.aggregator_node;
  unfold bind at 1; cbn [time_time heap wstate ticks];
  unfold bind at 1; cbn [liftR]; rewrite Hfile;
  unfold bind at 1; cbn [alloc heap wstate ticks];
  unfold bind at 1; unfold deepcopy at 1; unfold bind at 1;
  cbn [load alloc heap wstate ticks List.length app nth];
  unfold bind at 1; cbn [get_state heap wstate ticks];
  unfold bind at 1; cbn [liftR loads]; rewrite Hgen; cbn [loads].

(** Runs the aggregator up to its first write into the copy. *)
Ltac merge_generated Hfile Hgen Hparse :=
  parse_generated Hfile Hgen; rewrite Hparse;
  unfold bind at 1; cbn [put_state heap wstate ticks];
  unfold bind at 1; cbn [get_state heap wstate ticks];
  unfold bind at 1; rewrite generated_schema_store;
  cbn [liftR dict_items].

Lemma aggregator_no_file (s : State) (t : nat) (e : exn) :
  json_load_file "problem_statement/POC_sim_D.json" = inl e ->
  fst (aggregator_node (mkWorld [] s t)) = inl e.
Proof.
  intros E. unfold aggregator_node, Workflow.aggregator_node.
  unfold bind at 1. cbn [time_time heap wstate ticks].
  unfold bind at 1. cbn [liftR]. rewrite E. reflexivity.
Qed.

Lemma aggregator_no_parse (s : State) (t : nat) (text : string)
    (file : JSON) (e : exn) :
  generated_schema s = GenText text ->
  json_load_file "problem_statement/POC_sim_D.json" = inr file ->
  json_repair_loads text = inl e ->
  fst (aggregator_node (mkWorld [] s t)) = inl e.
Proof.
  intros Hgen Hfile E. parse_generated Hfile Hgen. rewrite E. reflexivity.
Qed.

Lemma aggregator_no_items (s : State) (t : nat) (text : string)
    (file v : JSON) :
  generated_schema s = GenText text ->
  json_load_file "problem_statement/POC_sim_D.json" = inr file ->
  json_repair_loads text = inr v ->
  (forall fragment, v <> JObject fragment) ->
  fst (aggregator_node (mkWorld [] s t)) = inl (AttributeError "items").
Proof.
  intros Hgen Hfile E Hv. parse_generated Hfile Hgen. rewrite E.
  unfold bind at 1. cbn [put_state heap wstate ticks].
  unfold bind at 1. cbn [get_state heap wstate ticks].
  unfold bind at 1. rewrite generated_schema_store.
  cbn [liftR]. destruct v; try reflexivity.
  exfalso. eapply Hv. reflexivity.
Qed.

(** The first write into the copy fails when the copy has no dict under
    [topicWizardData]. *)
Lemma aggregator_no_topic (s : State) (t : nat) (text : string)
    (file : JSON) (fragment : Dict) (e : exn) :
  generated_schema s = GenText text ->
  json_load_file "problem_statement/POC_sim_D.json" = inr file ->
  json_repair_loads text = inr (JObject fragment) ->
  (forall k x, setitem2 file "topicWizardData" k x = inl e) ->
  fst (aggregator_node (mkWorld [] s t)) = inl e.
Proof.
  intros Hgen Hfile Hparse Hset. merge_generated Hfile Hgen Hparse.
  unfold bind at 1.
  destruct fragment as [|kv rest].
  - cbn [for_each ret]. unfold bind at 1. unfold setitem2_at at 1.
    unfold bind at 1 2, load, liftR.
    cbn [nth heap wstate ticks]. rewrite Hset. reflexivity.
  - erewrite for_each_first_fails; [reflexivity|].
    unfold setitem2_at, bind, load, liftR.
    cbn [nth heap wstate ticks]. rewrite Hset. reflexivity.
Qed.

Lemma aggregator_no_options (s : State) (t : nat) (text : string)
    (d twd fragment : Dict) :
  generated_schema s = GenText text ->
  json_load_file "problem_statement/POC_sim_D.json" = inr (JObject d) ->
  dict_get "topicWizardData" d = Some (JObject twd) ->
  dict_get "scenarioOptions" twd = None ->
  json_repair_loads text = inr (JObject fragment) ->
  exists e, fst (aggregator_node (mkWorld [] s t)) = inl e.
Proof.
  intros Hgen Hfile Htwd Hnone Hparse. merge_generated Hfile Hgen Hparse.
  unfold bind at 1. rewrite (for_each_overwrite _ _ _ twd) by exact Htwd.
  unfold bind at 1. unfold setitem2_at at 1.
  unfold bind at 1 2 3, load, liftR, store, setitem2.
  cbn [nth heap wstate ticks]. rewrite dict_get_set_same.
  cbn [list_set]. rewrite dict_set_set.
  unfold try_except, getitem2_at.
  unfold bind, ret, time_time, liftR, load, getitem, local.
  cbn [heap nth wstate ticks].
  destruct (DeepDiff _ _) as [e|diff]; cbn [heap nth wstate ticks];
    destruct (jsonschema_validate _ _) as [[]|[]];
    cbn [raise fst]; try (eexists; reflexivity);
    rewrite dict_get_set_same; cbn [heap nth wstate ticks raise fst];
    match goal with
    | |- context [dict_get "scenarioOptions" ?m] =>
        destruct (dict_get "scenarioOptions" m)
    end; cbn [heap nth wstate ticks raise fst];
    try (eexists; reflexivity);
    rewrite Htwd; cbn [heap nth wstate ticks raise fst];
    rewrite Hnone; eexists; reflexivity.
Qed.

(** What it takes for the aggregator to return. *)
Definition aggregable (s : State) (text : string) : Prop :=
  exists d twd old fragment,
    json_load_file "problem_statement/POC_sim_D.json" = inr (JObject d)
    /\ dict_get "topicWizardData" d = Some (JObject twd)
    /\ dict_get "scenarioOptions" twd = Some old
    /\ json_repair_loads text = inr (JObject fragment)
    /\ (jsonschema_validate (merged_document s fragment twd d)
                            (fidelity_schema d) = inr tt
        \/ exists message,
             jsonschema_validate (merged_document s fragment twd d)
                                 (fidelity_schema d)
             = inl (ValidationError message))
    /\ exists diff,
         DeepDiff (JObject d) (merged_document s fragment twd d) = inr diff.

(** X10.  The aggregator returns exactly when the hard-coded file holds a
    dict whose [topicWizardData] is a dict with [scenarioOptions], the
    generator's text, parsed as it stands, is a dict, the schema check
    returns or raises a validation error, and the diff returns.  In every
    other case it raises, and so ends the run: with the error of reading
    the file; with [AttributeError] when the text parses to something that
    is no dict; with [KeyError] when the document has no
    [topicWizardData]; with [TypeError] when that is no dict. *)
Theorem aggregator_returns_exactly_when (s : State) (t : nat) (text : string) :
  generated_schema s = GenText text ->
  (forall fragment,
      json_repair_loads text = inr (JObject fragment) ->
      NoDup (keys fragment)) ->
  let outcome := fst (aggregator_node (mkWorld [] s t)) in
  let path := "problem_statement/POC_sim_D.json" in
  ((exists u, outcome = inr u) <-> aggregable s text)
  /\ (forall e, json_load_file path = inl e -> outcome = inl e)
  /\ (forall file v,
        json_load_file path = inr file ->
        json_repair_loads text = inr v ->
        (forall fragment, v <> JObject fragment) ->
        outcome = inl (AttributeError "items"))
  /\ (forall d fragment,
        json_load_file path = inr (JObject d) ->
        json_repair_loads text = inr (JObject fragment) ->
        dict_get "topicWizardData" d = None ->
        outcome = inl (KeyError "topicWizardData"))
  /\ (forall d fragment topic,
        json_load_file path = inr (JObject d) ->
        json_repair_loads text = inr (JObject fragment) ->
        dict_get "topicWizardData" d = Some topic ->
        (forall twd, topic <> JObject twd) ->
        outcome
        = inl (TypeError "does not support item assignment by a string")).
Proof.
  intros Hgen ND outcome path. subst outcome path.
  split; [|split; [|split; [|split]]].
  - split.
    + intros [u Hu].
      destruct (json_load_file "problem_statement/POC_sim_D.json")
        as [e|file] eqn:Hfile;
        [rewrite (aggregator_no_file s t e Hfile) in Hu; discriminate Hu|].
      destruct (json_repair_loads text) as [e|v] eqn:Hparse;
        [rewrite (aggregator_no_parse s t text file e Hgen Hfile Hparse) in Hu;
         discriminate Hu|].
      assert (V : exists fragment, v = JObject fragment).
      { destruct v; try (rewrite (aggregator_no_items s t text file _
                                    Hgen Hfile Hparse) in Hu;
                         [discriminate Hu|discriminate]).
        eexists. reflexivity. }
      destruct V as [fragment ->].
      assert (F : exists d twd, file = JObject d
                  /\ dict_get "topicWizardData" d = Some (JObject twd)).
      { destruct file as [| | | | | |d];
          try (erewrite (aggregator_no_topic s t text _ fragment _
                           Hgen Hfile Hparse) in Hu;
               [discriminate Hu|reflexivity]).
        destruct (dict_get "topicWizardData" d) as [topic|] eqn:Htwd.
        - destruct topic as [| | | | | |twd];
            try (erewrite (aggregator_no_topic s t text _ fragment _
                             Hgen Hfile Hparse) in Hu;
                 [discriminate Hu|intros k x; cbn [setitem2]; rewrite Htwd;
                                  reflexivity]).
          now exists d, twd.
        - erewrite (aggregator_no_topic s t text _ fragment _
                      Hgen Hfile Hparse) in Hu;
            [discriminate Hu|intros k x; cbn [setitem2]; rewrite Htwd;
                             reflexivity]. }
      destruct F as (d & twd & -> & Htwd).
      destruct (dict_get "scenarioOptions" twd) as [old|] eqn:Hold.
      * pose proof (aggregator_node_result s t d twd fragment old text
                      Hfile Htwd Hold Hgen Hparse (ND _ eq_refl)) as R.
        cbv zeta in R. rewrite Hu in R.
        exists d, twd, old, fragment.
        repeat (split; [assumption|]).
        destruct (jsonschema_validate _ _) as [e|[]] eqn:V;
          [destruct e; try discriminate R|];
          destruct (DeepDiff _ _) as [e'|diff]; try discriminate R;
          (split; [|now exists diff]).
        -- right. now exists message.
        -- now left.
      * destruct (aggregator_no_options s t text d twd fragment
                    Hgen Hfile Htwd Hold Hparse) as [e He].
        rewrite He in Hu. discriminate Hu.
    + intros (d & twd & old & fragment & Hfile & Htwd & Hold & Hparse & V & D).
      pose proof (aggregator_node_result s t d twd fragment old text
                    Hfile Htwd Hold Hgen Hparse (ND _ Hparse)) as R.
      cbv zeta in R. rewrite R. destruct D as [diff ->].
      destruct V as [->|[message ->]]; eexists; reflexivity.
  - intros e E. exact (aggregator_no_file s t e E).
  - intros file v Hfile E Hv.
    exact (aggregator_no_items s t text file v Hgen Hfile E Hv).
  - intros d fragment Hfile Hparse Htwd.
    apply (aggregator_no_topic s t text _ fragment _ Hgen Hfile Hparse).
    intros k x. cbn [setitem2]. rewrite Htwd. reflexivity.
  - intros d fragment topic Hfile Hparse Htwd Hno.
    apply (aggregator_no_topic s t text _ fragment _ Hgen Hfile Hparse).
    intros k x. cbn [setitem2]. rewrite Htwd.
    destruct topic; try reflexivity. exfalso. eapply Hno. reflexivity.
Qed.

End Returns.

(** ** On the concrete runs *)

Definition gym : string := "{'simulationName': 'Gym'}".

Definition original_topic : Dict :=
  [ ("simulationName", JString "Pricing war");
    ("scenarioOptions", JArray [JString "a"; JString "b"]);
    ("selectedScenarioOption", JString "a") ].

Lemma gym_keys : NoDup (keys [("simulationName", JString "Gym")]).
Proof. repeat constructor. simpl. tauto. Qed.

Lemma aggregator_output_document_witness :
  exists u w',
    aggregate Stubs.diff_ok Stubs.file gym = (inr u, w')
    /\ exists out topic,
         output_json (merge (passed gym) u) = Some (JObject out)
         /\ dict_get "topicWizardData" out = Some (JObject topic)
         /\ dict_get "selectedScenarioOption" topic = Some (JString "new")
         /\ dict_get "simulationName" topic = Some (JString "Gym")
         /\ dict_get "scenarioOptions" topic
            = Some (JArray [JString "a"; JString "b"]).
Proof.
  eexists. eexists. split; [vm_compute; reflexivity|].
  destruct (aggregator_output_document parse Stubs.validate Stubs.diff_ok
              Stubs.file Stubs.clock (passed gym) 2
              [("topicWizardData", JObject original_topic)] original_topic
              [("simulationName", JString "Gym")]
              (JArray [JString "a"; JString "b"]) gym _ _
              eq_refl eq_refl eq_refl eq_refl eq_refl gym_keys eq_refl)
    as (out & topic & O & _ & T & S & F).
  exists out, topic.
  split; [exact O|]. split; [exact T|]. split; [exact S|].
  split; rewrite F by discriminate; reflexivity.
Defined.

Lemma aggregator_verdicts_and_diff_witness :
  exists u w',
    aggregate Stubs.diff_ok Stubs.file gym = (inr u, w')
    /\ changed_fields (merge (passed gym) u) = Some (JObject [])
    /\ schema_fidelity (merge (passed gym) u) = Some "PASS"
    /\ simulation_end_time (merge (passed gym) u) = Stubs.clock 3.
Proof.
  eexists. eexists. split; [vm_compute; reflexivity|].
  destruct (aggregator_verdicts_and_diff parse Stubs.validate Stubs.diff_ok
              Stubs.file Stubs.clock (passed gym) 2
              [("topicWizardData", JObject original_topic)] original_topic
              [("simulationName", JString "Gym")]
              (JArray [JString "a"; JString "b"]) gym _ _
              eq_refl eq_refl eq_refl eq_refl eq_refl gym_keys eq_refl)
    as ((diff & D & C) & P & _ & E & _).
  split; [|split; [|exact E]].
  - unfold Stubs.diff_ok in D. injection D as <-. exact C.
  - apply P. reflexivity.
Defined.

Definition no_file (path : string) : result JSON :=
  inl (OtherException "No such file or directory").

Definition empty_file (path : string) : result JSON := inr (JObject []).

Definition list_topic (path : string) : result JSON :=
  inr (JObject [("topicWizardData", JArray [])]).

Lemma gym_parses (fragment : Dict) :
  parse gym = inr (JObject fragment) -> NoDup (keys fragment).
Proof. intros [= <-]. exact gym_keys. Qed.

Lemma aggregator_returns_exactly_when_witness :
  (exists u, fst (aggregate Stubs.diff_ok Stubs.file gym) = inr u)
  /\ fst (aggregate Stubs.diff_ok no_file gym)
     = inl (OtherException "No such file or directory")
  /\ fst (aggregate Stubs.diff_ok Stubs.file "[]")
     = inl (AttributeError "items")
  /\ fst (aggregate Stubs.diff_ok empty_file gym)
     = inl (KeyError "topicWizardData")
  /\ fst (aggregate Stubs.diff_ok list_topic gym)
     = inl (TypeError "does not support item assignment by a string").
Proof.
  split; [|split; [|split; [|split]]].
  - apply (proj1 (aggregator_returns_exactly_when parse Stubs.validate
                    Stubs.diff_ok Stubs.file Stubs.clock (passed gym) 2 gym
                    eq_refl gym_parses)).
    exists [("topicWizardData", JObject original_topic)], original_topic,
           (JArray [JString "a"; JString "b"]),
           [("simulationName", JString "Gym")].
    repeat (split; [reflexivity|]).
    split; [left; reflexivity|]. eexists. reflexivity.
  - apply (proj1 (proj2 (aggregator_returns_exactly_when parse Stubs.validate
                           Stubs.diff_ok no_file Stubs.clock (passed gym) 2
                           gym eq_refl gym_parses))).
    reflexivity.
  - assert (N : forall fragment : Dict,
               parse "[]" = inr (JObject fragment) -> NoDup (keys fragment))
      by (intros fragment H; discriminate H).
    apply (proj1 (proj2 (proj2 (aggregator_returns_exactly_when parse
                                  Stubs.validate Stubs.diff_ok Stubs.file
                                  Stubs.clock (passed "[]") 2 "[]"
                                  eq_refl N)))
             Stubs.document (JArray [])); try reflexivity.
    discriminate.
  - apply (proj1 (proj2 (proj2 (proj2 (aggregator_returns_exactly_when parse
                                         Stubs.validate Stubs.diff_ok
                                         empty_file Stubs.clock (passed gym)
                                         2 gym eq_refl gym_parses))))
             [] [("simulationName", JString "Gym")]); reflexivity.
  - apply (proj2 (proj2 (proj2 (proj2 (aggregator_returns_exactly_when parse
                                         Stubs.validate Stubs.diff_ok
                                         list_topic Stubs.clock (passed gym)
                                         2 gym eq_refl gym_parses))))
             [("topicWizardData", JArray [])]
             [("simulationName", JString "Gym")] (JArray []));
      try reflexivity.
    discriminate.
Defined.

End AggregatorRuns.

(* ================================================================== *)
(** * ResponseSanitizer: what it can return *)
(* ================================================================== *)

Module SanitizerFacts.
Import PyStr Sanitizer PyStrFacts SanitizerProps.
Local Open Scope string_scope.
Local Open Scope Z_scope.

Lemma append_empty_r (s : string) : s ++ "" = s.
Proof. induction s as [|c s IH]; simpl; [reflexivity | now rewrite IH]. Qed.

Lemma contains_refl (s : string) : contains s s.
Proof. exists "", "". simpl. now rewrite append_empty_r. Qed.

Lemma contains_trans (s m sub : string) :
  contains s m -> contains m sub -> contains s sub.
Proof.
  intros (a & b & ->) (a' & b' & ->). exists (a ++ a'), (b' ++ b).
  now rewrite !append_assoc.
Qed.

Lemma contains_len (s sub : string) : contains s sub -> len sub <= len s.
Proof.
  intros (a & b & ->). rewrite !len_append.
  pose proof (len_nonneg a). pose proof (len_nonneg b). lia.
Qed.

Lemma lstrip_suffix (s : string) : exists a, s = a ++ lstrip s.
Proof.
  induction s as [|c s [a IH]]; [now exists ""|].
  cbn [lstrip]. destruct (isspace c).
  - exists (String c a). simpl. now rewrite <- IH.
  - now exists "".
Qed.

Lemma rstrip_prefix (s : string) : exists b, s = rstrip s ++ b.
Proof.
  induction s as [|c s [b IH]]; [now exists ""|].
  cbn [rstrip]. destruct (rstrip s) as [|d r].
  - destruct (isspace c).
    + now exists (String c s).
    + exists s. reflexivity.
  - exists b. simpl. simpl in IH. now rewrite <- IH.
Qed.

Lemma contains_strip (s : string) : contains s (strip s).
Proof.
  unfold strip. destruct (lstrip_suffix s) as [a E].
  destruct (rstrip_prefix (lstrip s)) as [b E'].
  exists a, b. now rewrite <- E', <- E.
Qed.

Lemma substring_0_prefix (m : nat) (s : string) :
  exists b, s = String.substring 0 m s ++ b.
Proof.
  revert s. induction m as [|m IH]; intros s.
  - exists s. destruct s; reflexivity.
  - destruct s as [|c s]; [now exists ""|].
    destruct (IH s) as [b E]. exists b. simpl. now rewrite <- E.
Qed.

Lemma contains_substring (n m : nat) (s : string) :
  contains s (String.substring n m s).
Proof.
  revert n. induction s as [|c s IH]; intros n.
  - destruct n, m; apply contains_refl.
  - destruct n as [|n].
    + destruct (substring_0_prefix m (String c s)) as [b E].
      exists "", b. exact E.
    + simpl. apply contains_tail, IH.
Qed.

Lemma substring_none (n : nat) (s : string) : String.substring n 0 s = "".
Proof.
  revert n. induction s as [|c s IH]; intros n; destruct n; try reflexivity.
  simpl. apply IH.
Qed.

Lemma contains_slice (s : string) (lo hi : Z) : contains s (slice s lo hi).
Proof. unfold slice. apply contains_substring. Qed.

(** X11.  The sanitizer only cuts: what it returns is a trimmed, contiguous
    part of the text it was given, and so never longer than that text. *)
Theorem sanitize_within_text (text : string) :
  let out := _remove_markdown_code_blocks text in
  contains text out /\ strip out = out /\ len out <= len text.
Proof.
  intros out.
  assert (C : contains text out).
  { subst out. unfold _remove_markdown_code_blocks.
    destruct (startswith (strip text) fence); [|apply contains_strip].
    destruct (negb (find (strip text) newline =? -1)
              && negb (rfind (strip text) fence =? -1))%bool;
      [|apply contains_strip].
    eapply contains_trans; [apply contains_strip|].
    eapply contains_trans; [apply contains_slice|apply contains_strip]. }
  split; [exact C|]. split; [apply sanitize_stripped|].
  apply contains_len, C.
Qed.

(** X12.  A fence that is opened and never closed loses the whole answer:
    when the trimmed text starts with a fence, has a newline after it and
    no other fence, the opening fence is taken for the closing one and the
    sanitizer returns the empty text. *)
Theorem sanitize_unclosed_fence_is_empty (text rest : string) :
  strip text = fence ++ rest ->
  contains rest newline ->
  ~ contains ("``" ++ rest) fence ->
  _remove_markdown_code_blocks text = "".
Proof.
  intros E Hn Hf. unfold _remove_markdown_code_blocks. rewrite E.
  unfold startswith. rewrite prefix_app.
  assert (F : find (fence ++ rest) newline <> -1)
    by (apply find_from_present; [lia|apply contains_app_r, Hn]).
  assert (R : rfind (fence ++ rest) fence = 0).
  { unfold rfind.
    change (fence ++ rest) with ("" ++ String "`" ("``" ++ rest)).
    rewrite rfind_from_last; [reflexivity|lia| |exact Hf].
    change (String "`" ("``" ++ rest)) with (fence ++ rest).
    apply prefix_app. }
  destruct (find_from_range (fence ++ rest) newline 0) as [G|[G _]];
    [contradiction|].
  fold (find (fence ++ rest) newline) in G.
  rewrite R. apply Z.eqb_neq in F. rewrite F. cbn [negb andb Z.eqb].
  unfold slice, adjust.
  pose proof (len_nonneg (fence ++ rest)).
  destruct (find (fence ++ rest) newline + 1 <? 0) eqn:L;
    [apply Z.ltb_lt in L; lia|].
  cbn [Z.ltb Z.compare].
  replace (Z.to_nat (Z.min 0 (len (fence ++ rest))
                     - Z.min (find (fence ++ rest) newline + 1)
                             (len (fence ++ rest))))
    with 0%nat by lia.
  rewrite substring_none. reflexivity.
Qed.

Lemma sanitize_unclosed_fence_is_empty_witness :
  _remove_markdown_code_blocks ("```json" ++ newline ++ "{'a': 1}") = "".
Proof.
  apply (sanitize_unclosed_fence_is_empty
           ("```json" ++ newline ++ "{'a': 1}")
           ("json" ++ newline ++ "{'a': 1}")).
  - reflexivity.
  - exists "json", "{'a': 1}". reflexivity.
  - apply find_absent. reflexivity.
Defined.

End SanitizerFacts.

(* ================================================================== *)
(** * The prompts: what they carry *)
(* ================================================================== *)

Module PromptFacts.
Import PyStr PyStrFacts Json Workflow Prompts.
Local Open Scope string_scope.

(** Finds a part of a text written as a chain of concatenations. *)
Ltac find_part :=
  first [ solve [eexists "", _; rewrite ?append_assoc; reflexivity]
        | apply contains_app_r; find_part ].

(** X13.  The first prompt carries, verbatim and each on its labelled line,
    the old scenario, the dump of the extracted subset and the new
    scenario; the correcting prompt carries the validator's message on a
    line of its own. *)
Theorem prompts_carry_their_arguments (json_dumps : Dict -> string)
    (old_scenario new_scenario error_message : string)
    (simulation_json : Dict) :
  let prompt := _build_recontextualization_prompt
                  json_dumps old_scenario new_scenario simulation_json in
  contains prompt ("OLD SCENARIO: " ++ old_scenario ++ newline)
  /\ contains prompt ("SIMULATION: " ++ json_dumps simulation_json ++ newline)
  /\ contains prompt ("NEW SCENARIO: " ++ new_scenario ++ newline)
  /\ contains (_build_correction_prompt error_message)
              (newline ++ error_message ++ newline).
Proof.
  intros prompt. subst prompt.
  unfold _build_recontextualization_prompt, _build_correction_prompt.
  repeat split; find_part.
Qed.

Lemma correction_prompt_contains (error_message : string) :
  contains (_build_correction_prompt error_message) error_message.
Proof. unfold _build_correction_prompt. find_part. Qed.

Section Carried.

Variable model_invoke : list Message -> result string.
Variable json_repair_loads : string -> result JSON.
Variable jsonschema_validate : JSON -> SchemaModel.Schema -> result unit.
Variable DeepDiff : JSON -> JSON -> result JSON.
Variable json_load_file : string -> result JSON.
Variable clock : nat -> spec_float.
Variable json_dumps : Dict -> string.

(** The runs of the graph with the prompts of the source. *)
Let reachable :=
  reachable model_invoke json_repair_loads jsonschema_validate DeepDiff
            json_load_file clock
            (_build_recontextualization_prompt json_dumps)
            _build_correction_prompt.

(** X14.  Whenever the correcting node is about to run, the validator's
    latest message is the last entry of its history, the evaluator message
    is that message behind the prefix of its kind, and the prompt the node
    builds from it carries the message verbatim. *)
Theorem correction_request_carries_verdict (c : Config) :
  reachable c -> at_node c = N_json_format_correction ->
  exists earlier message,
    history_evaluator (state_of c) = (earlier ++ [message])%list
    /\ (evaluator_message (state_of c)
        = "JSON Schema Validation FAILED: " ++ message
        \/ evaluator_message (state_of c) = "JSON Parse Error: " ++ message)
    /\ contains (_build_correction_prompt (evaluator_message (state_of c)))
                message.
Proof.
  intros R H. destruct R as [a b j|c0 c R E]; [discriminate H|].
  destruct (RunProps.step_to_correction _ _ _ _ _ _ _ _ c0 c E H)
    as (message & Eh & Em).
  exists (history_evaluator (state_of c0)), message.
  split; [exact Eh|]. split; [exact Em|].
  eapply SanitizerFacts.contains_trans; [apply correction_prompt_contains|].
  destruct Em as [-> | ->]; apply contains_app_r, SanitizerFacts.contains_refl.
Qed.

End Carried.

Definition dumps (d : Dict) : string := "{}".

Lemma correction_request_carries_verdict_witness :
  exists c,
    run (Stubs.scripted ["oops"]) Scenarios.parse Stubs.validate Stubs.diff_ok
        Stubs.file Stubs.clock (_build_recontextualization_prompt dumps)
        _build_correction_prompt 2 Scenarios.start = inr c
    /\ at_node c = N_json_format_correction
    /\ exists earlier message,
         history_evaluator (state_of c)
         = (earlier ++ [message])%list
         /\ (evaluator_message (state_of c)
             = "JSON Schema Validation FAILED: " ++ message
             \/ evaluator_message (state_of c)
                = "JSON Parse Error: " ++ message)
         /\ contains (_build_correction_prompt
                        (evaluator_message (state_of c)))
                     message.
Proof.
  eexists. split; [vm_compute; reflexivity|]. split; [reflexivity|].
  apply (correction_request_carries_verdict (Stubs.scripted ["oops"])
           Scenarios.parse Stubs.validate Stubs.diff_ok Stubs.file Stubs.clock
           dumps).
  - apply RetryProps.run_reachable with (n := 2%nat) (c := Scenarios.start).
    + apply reach_start.
    + vm_compute. reflexivity.
  - reflexivity.
Defined.

End PromptFacts.
